(** * Cocoon compiler: a shallow embedding of the worker services

    The development follows the TypeScript sources of the repository:
    [globals.ts], [service.ts], [updater.ts], [compiler.ts],
    [notifier.ts], [builder.ts], [builder_android.ts],
    [builder_windows.ts] and [builder_launcher.ts].  Callbacks become
    return values, the file system and the queue become explicit state
    or effect traces, and the answers of the outside world (S3, the
    backend, the native tools, the disk) are inputs of the functions. *)

From Stdlib Require Import ZArith Lia Ascii String List Bool.
From stdpp Require Import base decidable option list strings gmap pretty.

Import ListNotations.
Local Open Scope string_scope.
Local Open Scope Z_scope.

(** ** JavaScript values used by the services *)

Module Js.

(** A call either returns or throws (a [TypeError] from [null[1]], an
    exception of a synchronous [fs] call, ...). *)
Inductive result (A : Type) : Type :=
| Ret (a : A)
| Throw.
Arguments Ret {A} a.
Arguments Throw {A}.

Definition bind {A B : Type} (m : result A) (k : A -> result B) : result B :=
  match m with
  | Ret a => k a
  | Throw => Throw
  end.

(** Truthiness of a possibly missing string property: [undefined],
    [null] and the empty string are falsy. *)
Definition truthy (o : option string) : bool :=
  match o with
  | Some s => negb (String.eqb s "")
  | None => false
  end.

(** String concatenation of a possibly missing string:
    ["" + undefined] prints [undefined]. *)
Definition show (o : option string) : string :=
  match o with
  | Some s => s
  | None => "undefined"
  end.

(** [null] in a string concatenation. *)
Definition show_null (o : option string) : string :=
  match o with
  | Some s => s
  | None => "null"
  end.

Definition show_code (o : option Z) : string :=
  match o with
  | Some z => pretty z
  | None => "null"
  end.

Fixpoint drop (n : nat) (s : string) : string :=
  match n, s with
  | O, _ => s
  | S n', EmptyString => EmptyString
  | S n', String _ s' => drop n' s'
  end.

(** [s.slice(-n)]: the last [n] code units of [s], all of [s] when it
    is shorter. *)
Definition slice_last (n : nat) (s : string) : string :=
  drop (String.length s - n) s.

Fixpoint starts_with (p s : string) : bool :=
  match p, s with
  | EmptyString, _ => true
  | String a p', String b s' => Ascii.eqb a b && starts_with p' s'
  | String _ _, EmptyString => false
  end.

(** [s.indexOf(p) === 0] *)
Definition index_of_is_zero (p s : string) : bool := starts_with p s.

(** *** Numbers

    Numbers are doubles.  A size the disk reports is an integer a
    double holds; a product or a quotient of such numbers is rounded
    to the nearest double, ties to even.  Only values that are not
    negative occur, and none near the ends of the range of the
    exponent. *)

(** The integer nearest to a quotient with integer part [q] and
    remainder [r] by [den], ties to even. *)
Definition round_half_even (q r den : Z) : Z :=
  if 2 * r <? den then q
  else if den <? 2 * r then q + 1
  else if Z.even q then q else q + 1.

(** The double nearest to the integer [z]: [z] itself below [2 ^ 53],
    above it the nearest integer with 53 significant bits. *)
Definition double_of_integer (z : Z) : Z :=
  if z <? 2 ^ 53 then z
  else
    let e := Z.log2 z - 52 in
    round_half_even (z / 2 ^ e) (z mod 2 ^ e) (2 ^ e) * 2 ^ e.

(** A double that need not be an integer: the number
    [mantissa * 2 ^ exponent]. *)
Record double : Type := {
  mantissa : Z;
  exponent : Z
}.

(** [x / d] scaled by [2 ^ (- e)], as numerator and denominator. *)
Definition scaled (x d e : Z) : Z * Z :=
  if e <? 0 then (x * 2 ^ (- e), d) else (x, d * 2 ^ e).

(** [x / d] rounded to a multiple of [2 ^ e]. *)
Definition rounded_at (x d e : Z) : double :=
  let '(num, den) := scaled x d e in
  {| mantissa := round_half_even (num / den) (num mod den) den; exponent := e |}.

(** The double [x / d] for integers [x >= 0] and [d > 0] that doubles
    hold: the exponent is the one that gives the mantissa 53 bits. *)
Definition double_div (x d : Z) : double :=
  if x =? 0 then {| mantissa := 0; exponent := 0 |}
  else
    let e0 := Z.log2 x - Z.log2 d - 53 in
    let '(num, den) := scaled x d e0 in
    rounded_at x d (if 2 ^ 53 <=? num / den then e0 + 1 else e0).

(** [a < q] for an integer [a] that a double holds. *)
Definition lt_double (a : Z) (q : double) : bool :=
  if exponent q <? 0 then a * 2 ^ (- exponent q) <? mantissa q
  else a <? mantissa q * 2 ^ exponent q.

End Js.

(** ** Regular expressions, as far as the sources use them

    A backtracking matcher with the priorities of the JavaScript engine:
    alternatives left to right, [+] and [?] greedy.  [+] is only used on
    character classes in the sources, which keeps the matcher
    structural. *)

Module Regex.

Inductive re : Type :=
| Chr (p : ascii -> bool)
| Cat (r1 r2 : re)
| Alt (r1 r2 : re)
| Opt (r : re)
| PlusC (p : ascii -> bool)
| Group (i : nat) (r : re)
| AtEnd.

Definition captures : Type := list (nat * string).

Definition cont : Type := string -> captures -> option captures.

(** Greedy [p+]: take as many characters as possible, give one back at
    a time while the continuation fails. *)
Fixpoint plus_from (p : ascii -> bool) (k : cont) (s : string) (c : captures)
  : option captures :=
  match s with
  | EmptyString => None
  | String a s' =>
      if p a then
        match plus_from p k s' c with
        | Some c' => Some c'
        | None => k s' c
        end
      else None
  end.

Fixpoint take (n : nat) (s : string) : string :=
  match n, s with
  | O, _ => EmptyString
  | S n', EmptyString => EmptyString
  | S n', String a s' => String a (take n' s')
  end.

(** The text consumed between [s] and its suffix [s']. *)
Definition consumed (s s' : string) : string :=
  take (String.length s - String.length s') s.

Fixpoint run (r : re) (k : cont) (s : string) (c : captures) : option captures :=
  match r with
  | Chr p =>
      match s with
      | String a s' => if p a then k s' c else None
      | EmptyString => None
      end
  | Cat r1 r2 => run r1 (run r2 k) s c
  | Alt r1 r2 =>
      match run r1 k s c with
      | Some c' => Some c'
      | None => run r2 k s c
      end
  | Opt r1 =>
      match run r1 k s c with
      | Some c' => Some c'
      | None => k s c
      end
  | PlusC p => plus_from p k s c
  | Group i r1 => run r1 (fun s' c' => k s' ((i, consumed s s') :: c')) s c
  | AtEnd =>
      match s with
      | EmptyString => k s c
      | String _ _ => None
      end
  end.

Definition accept : cont := fun _ c => Some c.

(** Unanchored search: the leftmost start position that matches. *)
Fixpoint exec (r : re) (s : string) : option captures :=
  match run r accept s [] with
  | Some c => Some c
  | None =>
      match s with
      | EmptyString => None
      | String _ s' => exec r s'
      end
  end.

(** [regex.test(s)] *)
Definition test (r : re) (s : string) : bool :=
  match exec r s with
  | Some _ => true
  | None => false
  end.

Fixpoint lookup (i : nat) (c : captures) : option string :=
  match c with
  | [] => None
  | (j, v) :: c' => if Nat.eqb i j then Some v else lookup i c'
  end.

(** [s.match(regex)[1]]: indexing the [null] of a failed match throws. *)
Definition match_group1 (r : re) (s : string) : Js.result string :=
  match exec r s with
  | Some c =>
      match lookup 1 c with
      | Some v => Js.Ret v
      | None => Js.Throw
      end
  | None => Js.Throw
  end.

(** Character classes and literals; the [/i] flag makes letters match
    in either case. *)
Definition code (a : ascii) : nat := nat_of_ascii a.

Definition is_lower (a : ascii) : bool := (Nat.leb 97 (code a) && Nat.leb (code a) 122)%bool.
Definition is_upper (a : ascii) : bool := (Nat.leb 65 (code a) && Nat.leb (code a) 90)%bool.
Definition is_alpha (a : ascii) : bool := is_lower a || is_upper a.
Definition is_digit (a : ascii) : bool := (Nat.leb 48 (code a) && Nat.leb (code a) 57)%bool.
Definition is_char (x a : ascii) : bool := Ascii.eqb x a.

Definition fold_case (a : ascii) : ascii :=
  if is_upper a then ascii_of_nat (code a + 32) else a.

Definition lit_i (x : ascii) : re := Chr (fun a => Ascii.eqb (fold_case x) (fold_case a)).
Definition lit (x : ascii) : re := Chr (is_char x).

Fixpoint str_with (mk : ascii -> re) (s : string) (tail : re) : re :=
  match s with
  | EmptyString => tail
  | String a s' => Cat (mk a) (str_with mk s' tail)
  end.

(** A literal string followed by [tail]. *)
Definition str_i : string -> re -> re := str_with lit_i.
Definition str : string -> re -> re := str_with lit.

(** The empty regular expression (matches without consuming). *)
Definition eps : re := Opt (Chr (fun _ => false)).

(** [s'] is what is left of [s] after a prefix. *)
Definition rest_of (s' s : string) : Prop := exists before, s = before ++ s'.

(** Every character of [s] is in the class [p]. *)
Fixpoint all_of (p : ascii -> bool) (s : string) : bool :=
  match s with
  | EmptyString => true
  | String a s' => p a && all_of p s'
  end.

(** [s] does not go on with a character of the class [p]. *)
Definition stops (p : ascii -> bool) (s : string) : bool :=
  match s with
  | EmptyString => true
  | String a _ => negb (p a)
  end.

(** The language of [r]: [r] can take a prefix of [s] and leave
    [s']. *)
Fixpoint consumes (r : re) (s s' : string) : Prop :=
  match r with
  | Chr p => exists a, s = String a s' /\ p a = true
  | Cat r1 r2 => exists m, consumes r1 s m /\ consumes r2 m s'
  | Alt r1 r2 => consumes r1 s s' \/ consumes r2 s s'
  | Opt r1 => consumes r1 s s' \/ s' = s
  | PlusC p => exists v, v <> "" /\ all_of p v = true /\ s = v ++ s'
  | Group _ r1 => consumes r1 s s'
  | AtEnd => s = "" /\ s' = ""
  end.

(** [s] with its upper-case letters turned into lower case, as the
    flag [i] compares texts. *)
Fixpoint folded (s : string) : string :=
  match s with
  | EmptyString => EmptyString
  | String a s' => String (fold_case a) (folded s')
  end.

(** [r] has no capturing group. *)
Fixpoint group_free (r : re) : bool :=
  match r with
  | Chr _ | PlusC _ | AtEnd => true
  | Cat r1 r2 | Alt r1 r2 => group_free r1 && group_free r2
  | Opt r1 => group_free r1
  | Group _ _ => false
  end.

End Regex.

(** ** [path] (POSIX flavour) *)

Module Path.

Definition slash : ascii := "/"%char.
Definition is_slash (a : ascii) : bool := Ascii.eqb a slash.

Fixpoint rev_chars (s : string) (acc : list ascii) : list ascii :=
  match s with
  | EmptyString => acc
  | String a s' => rev_chars s' (a :: acc)
  end.

(** The loop of [dirname]: [l] holds the characters at the indices
    [i, i-1, ..., 1]; the answer is the index of the slash that ends
    the directory part. *)
Fixpoint dirname_end (l : list ascii) (i : nat) (matchedSlash : bool) : option nat :=
  match l with
  | [] => None
  | c :: rest =>
      if is_slash c then
        if matchedSlash then dirname_end rest (i - 1) true else Some i
      else dirname_end rest (i - 1) false
  end.

Definition dirname (p : string) : string :=
  match p with
  | EmptyString => "."
  | String first _ =>
      let hasRoot := is_slash first in
      let n := String.length p in
      match dirname_end (removelast (rev_chars p [])) (n - 1) true with
      | None => if hasRoot then "/" else "."
      | Some e => if hasRoot && Nat.eqb e 1 then "//" else Regex.take e p
      end
  end.

(** The loop of [basename]: returns the pair [(start, end)]. *)
Fixpoint basename_scan (l : list ascii) (i : nat) (matchedSlash : bool) (e : option nat)
  : nat * option nat :=
  match l with
  | [] => (O, e)
  | c :: rest =>
      if is_slash c then
        if matchedSlash then basename_scan rest (i - 1) matchedSlash e
        else (S i, e)
      else
        match e with
        | None => basename_scan rest (i - 1) false (Some (S i))
        | Some _ => basename_scan rest (i - 1) matchedSlash e
        end
  end.

Definition basename (p : string) : string :=
  let n := String.length p in
  match basename_scan (rev_chars p []) (n - 1) true None with
  | (_, None) => ""
  | (start, Some e) => Js.drop start (Regex.take e p)
  end.

(** Splitting at slashes. *)
Fixpoint split_rev (s : string) (cur : string) (acc : list string) : list string :=
  match s with
  | EmptyString => cur :: acc
  | String a s' =>
      if is_slash a then split_rev s' "" (cur :: acc)
      else split_rev s' (cur ++ String a "") acc
  end.

Definition segments (s : string) : list string := rev (split_rev s "" []).

(** [normalizeString]: the stack of segments kept so far, last first. *)
Fixpoint normalize_segments (allowAboveRoot : bool) (segs : list string) (stack : list string)
  : list string :=
  match segs with
  | [] => stack
  | seg :: rest =>
      if String.eqb seg "" || String.eqb seg "." then
        normalize_segments allowAboveRoot rest stack
      else if String.eqb seg ".." then
        match stack with
        | top :: below =>
            if String.eqb top ".." then normalize_segments allowAboveRoot rest (".." :: stack)
            else normalize_segments allowAboveRoot rest below
        | [] =>
            if allowAboveRoot then normalize_segments allowAboveRoot rest [".."]
            else normalize_segments allowAboveRoot rest []
        end
      else normalize_segments allowAboveRoot rest (seg :: stack)
  end.

Fixpoint join_with_slash (segs : list string) : string :=
  match segs with
  | [] => ""
  | [x] => x
  | x :: rest => x ++ "/" ++ join_with_slash rest
  end.

Definition ends_with_slash (p : string) : bool :=
  match rev_chars p [] with
  | c :: _ => is_slash c
  | [] => false
  end.

Definition normalize (p : string) : string :=
  match p with
  | EmptyString => "."
  | String first _ =>
      let isAbsolute := is_slash first in
      let trailingSeparator := ends_with_slash p in
      let body := join_with_slash (rev (normalize_segments (negb isAbsolute) (segments p) [])) in
      match body with
      | EmptyString =>
          if isAbsolute then "/" else if trailingSeparator then "./" else "."
      | String _ _ =>
          let body' := if trailingSeparator then body ++ "/" else body in
          if isAbsolute then "/" ++ body' else body'
      end
  end.

(** [path.join(...)]: the non-empty arguments joined by slashes, then
    normalized. *)
Definition join (parts : list string) : string :=
  match filter (fun s => negb (String.eqb s "")) parts with
  | [] => "."
  | kept => normalize (join_with_slash kept)
  end.

(** [s] holds no slash. *)
Definition slash_free (s : string) : bool := Regex.all_of (fun a => negb (is_slash a)) s.

(** One name of a path: not empty, no slash. *)
Definition segment (s : string) : Prop := slash_free s = true /\ s <> "".

(** The text [normalize] gives for a stack of segments (last first)
    when the path has no trailing separator. *)
Definition render (isAbsolute : bool) (stack : list string) : string :=
  match join_with_slash (rev stack) with
  | EmptyString => if isAbsolute then "/" else "."
  | String a b => if isAbsolute then "/" ++ String a b else String a b
  end.

(** The stacks [normalize_segments] leaves: no empty segment, no [.],
    and [..] only at the bottom of a relative path. *)
Fixpoint kept (allowAboveRoot : bool) (stack : list string) : Prop :=
  match stack with
  | [] => True
  | x :: below =>
      slash_free x = true /\ x <> "" /\ x <> "." /\
      (x = ".." -> allowAboveRoot = true /\
                   match below with
                   | [] => True
                   | y :: _ => y = ".."
                   end) /\
      kept allowAboveRoot below
  end.

(** What comes before the last segment of a rendered path. *)
Definition before_last (isAbsolute : bool) (stack : list string) : string :=
  match stack with
  | [] => if isAbsolute then "/" else ""
  | _ :: _ => render isAbsolute stack ++ "/"
  end.

End Path.

(** ** [globals.ts] *)

Module Globals.

Inductive CocoonEnvironment : Type :=
| DEVELOP
| TESTING
| PRODUCTION.

Definition env_eqb (a b : CocoonEnvironment) : bool :=
  match a, b with
  | DEVELOP, DEVELOP | TESTING, TESTING | PRODUCTION, PRODUCTION => true
  | _, _ => false
  end.

Definition stringToEnv (env : string) : CocoonEnvironment :=
  if String.eqb env "develop" then DEVELOP
  else if String.eqb env "testing" then TESTING
  else if String.eqb env "production" then PRODUCTION
  else DEVELOP.

Definition envToString (env : CocoonEnvironment) : string :=
  match env with
  | DEVELOP => "develop"
  | TESTING => "testing"
  | PRODUCTION => "production"
  end.

Definition CORDOVA_COMPILERS_FOLDER : string := "compilers".
Definition CORDOVA_PLATFORMS_FOLDER : string := "platforms".
Definition CORDOVA_PLUGINS_FOLDER : string := "plugins".
Definition CORDOVA_LIBS_FOLDER : string := "libs".
Definition SDKS_FOLDER : string := "sdks".

(** The host: the value of [os.platform()], of the home directory
    ([getHome()]), of [os.tmpdir()] and of [process.getuid()]. *)
Record Host : Type := {
  os_platform : string;
  home : string;
  tmpdir : string;
  uid : Z
}.

Section WithHost.
Variable host : Host.

Definition COMPILER_WORKSPACE_PATH (env : CocoonEnvironment) : string :=
  Path.join [home host; "opt"; "cocoon_compiler"; "workspace"; envToString env].

Definition COMPILER_DATA_PATH (env : CocoonEnvironment) : string :=
  Path.join [COMPILER_WORKSPACE_PATH env; "data"].

Definition CORDOVA_COMPILERS_PATH (env : CocoonEnvironment) : string :=
  Path.join [COMPILER_DATA_PATH env; CORDOVA_COMPILERS_FOLDER].

Definition CORDOVA_PLATFORMS_PATH (env : CocoonEnvironment) : string :=
  Path.join [COMPILER_DATA_PATH env; CORDOVA_PLATFORMS_FOLDER].

Definition CORDOVA_PLUGINS_PATH (env : CocoonEnvironment) : string :=
  Path.join [COMPILER_DATA_PATH env; CORDOVA_PLUGINS_FOLDER].

Definition CORDOVA_LIBS_PATH (env : CocoonEnvironment) : string :=
  Path.join [COMPILER_DATA_PATH env; CORDOVA_LIBS_FOLDER].

Definition PROJECTS_PATH (env : CocoonEnvironment) : string :=
  if String.eqb (os_platform host) "win32" then Path.join [home host; envToString env]
  else Path.join [COMPILER_WORKSPACE_PATH env; "projects"].

Definition SYNC_PATH (env : CocoonEnvironment) : string :=
  Path.join [COMPILER_WORKSPACE_PATH env; "sync"].

Definition S3_STRUCTURE_FILE_PATH (env : CocoonEnvironment) : string :=
  Path.join [COMPILER_WORKSPACE_PATH env; "s3_structure.json"].

(** [getLocalPlatforms]: the platforms this host asks compilations for. *)
Definition getLocalPlatforms : list string :=
  if String.eqb (os_platform host) "darwin" then ["ios"; "osx"]
  else if String.eqb (os_platform host) "linux" then ["ubuntu"; "android"]
  else if String.eqb (os_platform host) "win32" then ["windows"]
  else [].

End WithHost.

Definition HOST_DEVELOP : string := "admin-testing.cocoon.io".
Definition HOST_TESTING : string := "admin-testing.cocoon.io".
Definition HOST_PRODUCTION : string := "admin.cocoon.io".

Definition envToHost (env : CocoonEnvironment) : string :=
  match env with
  | DEVELOP => HOST_DEVELOP
  | TESTING => HOST_TESTING
  | PRODUCTION => HOST_PRODUCTION
  end.

Definition BUCKET_NAME : string := "cocoon-compiler-data".

Definition BUCKET (env : CocoonEnvironment) : string :=
  if env_eqb env DEVELOP then BUCKET_NAME ++ "-" ++ envToString TESTING
  else BUCKET_NAME ++ "-" ++ envToString env.

Definition getMongoDBName (env : CocoonEnvironment) : string :=
  "cocoon-compiler-" ++ envToString env.

End Globals.

(** ** [compilation.ts] and [builder_error.ts] *)

Record IPlatformCompilation : Type := {
  platform_name : string;
  (** the signing key; its fields are not inspected by the properties below *)
  key : option string
}.

Record ICompilation : Type := {
  code : string;
  platform : IPlatformCompilation;
  config : string;
  source : string;
  libVersion : string;
  starttime : Z
}.

(** An error object as the callbacks see it: a [BuilderError] has both
    fields, a plain [Error] only [message]; after the IPC channel either
    may be missing. *)
Record BuilderError : Type := {
  message : option string;
  msgPublic : option string
}.

Definition new_BuilderError (m p : string) : BuilderError :=
  {| message := Some m; msgPublic := Some p |}.

Definition new_Error (m : string) : BuilderError :=
  {| message := Some m; msgPublic := None |}.

(** ** [async.waterfall] *)

Module Async.

(** What a task does with its callback: calls it without or with an
    error, or throws before calling it. *)
Inductive outcome : Type :=
| Done
| Failed (e : BuilderError)
| Thrown.

Section Waterfall.
Context {T W : Type}.
(** Running one task in the world [W]. *)
Variable exec : T -> W -> W * outcome.

(** The tasks run in order; the first error (or exception) ends the
    sequence.  The result lists the tasks that were invoked. *)
Fixpoint waterfall (tasks : list T) (w : W) : list T * W * outcome :=
  match tasks with
  | [] => ([], w, Done)
  | t :: rest =>
      match exec t w with
      | (w', Done) =>
          let '(tr, w'', r) := waterfall rest w' in (t :: tr, w'', r)
      | (w', r) => ([t], w', r)
      end
  end.
End Waterfall.

End Async.

(** ** [builder.ts]: the build pipeline of the child process *)

Module Builder.

Record IBuildOptionsOpts : Type := {
  release : option bool;
  device : option bool;
  archs : option string;
  buildConfig : option string
}.

Record IBuildOptions : Type := {
  verbose : bool;
  platforms : list string;
  options : IBuildOptionsOpts
}.

(** The tasks the platform builders put in the waterfall of their
    build stage. *)
Inductive task : Type :=
| CreateCertsFolder
| Keystore
| Pfx
| RemovePfx
| InstallPfx
| BuildJson
| Compile (o : IBuildOptions).

(** The native builds among the invoked tasks, by their [release] flag. *)
Fixpoint compiles (tr : list task) : list (option bool) :=
  match tr with
  | [] => []
  | Compile o :: rest => release (options o) :: compiles rest
  | _ :: rest => compiles rest
  end.

Section Tasks.
Context {W : Type}.
(** The tool behind a task (file download, [certutil], the native
    build of cordova, ...): it changes the world and answers with
    the message of its error, if any. *)
Variable tool : task -> W -> W * option string.

(** Each task wraps the failure of its tool in its own
    [BuilderError]; [removePfx] only logs it. *)
Definition exec (t : task) (w : W) : W * Async.outcome :=
  match tool t w with
  | (w', None) => (w', Async.Done)
  | (w', Some m) =>
      (w', match t with
           | CreateCertsFolder =>
               Async.Failed (new_BuilderError m "Internal compiler error (code 0115)")
           | Keystore =>
               Async.Failed (new_BuilderError ("Error downloading the keystore: " ++ m)
                               "Internal compiler error (code 0201)")
           | Pfx =>
               Async.Failed (new_BuilderError ("Error downloading the .pfx: " ++ m)
                               "Internal compiler error (code 0600)")
           | RemovePfx => Async.Done
           | InstallPfx =>
               Async.Failed (new_BuilderError ("Error calling certutil: " ++ m)
                               "Internal compiler error (code 0601)")
           | BuildJson =>
               Async.Failed (new_BuilderError ("Error writing the build.json: " ++ m)
                               "Internal compiler error (code 0120)")
           | Compile _ => Async.Failed (new_BuilderError m m)
           end)
  end.
End Tasks.

Section Paths.
Variable host : Globals.Host.
Variable env : Globals.CocoonEnvironment.

Definition getProjectPath (c : string) (t : Z) : string :=
  Path.join [Globals.PROJECTS_PATH host env; c ++ "_" ++ pretty t].

Definition getCordovaProjectPath (c : string) (t : Z) : string :=
  Path.join [getProjectPath c t; "workspace"].
End Paths.

(** *** [cleanUp] and [removeTmpFiles] *)

Record DiskUsage : Type := {
  available : Z;
  total : Z
}.

Record Stats : Type := {
  isDirectory : bool;
  stat_uid : Z
}.

(** What the disk answers during [cleanUp]: [diskUsage.check] of the
    root and of the home file system ([None]: the check reports an
    error), [readdirSync] of the temporary directory and [statSync] of
    its entries. *)
Record Disk : Type := {
  root_check : option DiskUsage;
  home_check : option DiskUsage;
  readdirSync : string -> Js.result (list string);
  statSync : string -> Js.result Stats
}.

Inductive cleanup_effect : Type :=
| StopGradleProcesses
| RemoveGradleCaches (path : string)
| RemoveSync (path : string).

(** [total * 25 / 100]: the product is rounded, then the quotient. *)
Definition quarter (total : Z) : Js.double :=
  Js.double_div (Js.double_of_integer (total * 25)) 100.

(** The test of [cleanUp] on the numbers [diskUsage.check] reports. *)
Definition low_space (rootSpc homeSpc : DiskUsage) : bool :=
  (available rootSpc <? 1 * 1024 ^ 3) || Js.lt_double (available rootSpc) (quarter (total rootSpc)) ||
  (available homeSpc <? 10 * 1024 ^ 3) || Js.lt_double (available homeSpc) (quarter (total homeSpc)).

Section CleanUp.
Variable host : Globals.Host.
(** [AndroidBuilder] overrides [cleanUp] and [removeTmpFiles] and
    calls the inherited methods afterwards. *)
Variable android : bool.
Variable disk : Disk.

Definition win32 : bool := String.eqb (Globals.os_platform host) "win32".

Definition tmp_directory : string :=
  if win32 then "c:cygwin64\tmp" else Globals.tmpdir host.

(** The body of the [forEach] of [removeTmpFiles]; an exception of
    [statSync] is caught and logged per entry. *)
Definition removeTmpFile (value : string) : list cleanup_effect :=
  let dir := Path.join [Globals.tmpdir host; value] in
  match statSync disk dir with
  | Js.Throw => []
  | Js.Ret st =>
      if isDirectory st then
        if Js.index_of_is_zero "npm-" value || Js.index_of_is_zero "git" value then
          if win32 || (stat_uid st =? Globals.uid host) then [RemoveSync dir] else []
        else []
      else []
  end.

(** [removeTmpFiles]; an exception of [readdirSync] leaves the
    method (the caller catches it). *)
Definition removeTmpFiles : list cleanup_effect :=
  (if android
   then [RemoveGradleCaches (Path.join [Globals.home host; ".gradle"; "caches"])]
   else []) ++
  match readdirSync disk tmp_directory with
  | Js.Throw => []
  | Js.Ret files => flat_map removeTmpFile files
  end.

Definition npm_cache : string :=
  Path.join [Globals.home host; ".cordova"; "lib"; "npm_cache"].

Definition cleanUp : list cleanup_effect :=
  (if android then [StopGradleProcesses] else []) ++
  match root_check disk with
  | None => []
  | Some rootSpc =>
      match home_check disk with
      | None => []
      | Some homeSpc =>
          if low_space rootSpc homeSpc
          then removeTmpFiles ++ [RemoveSync npm_cache]
          else []
      end
  end.
End CleanUp.

(** *** [start]: the five stages and the final callback *)

Inductive stage : Type :=
| Init
| Create
| Prepare
| Build
| Pack.

Inductive start_effect : Type :=
| RunStage (s : stage)
| Chdir (path : string)
| UnhookIntercept
| CleanUp (effects : list cleanup_effect).

(** How the call of [start] ends: its callback is called (with the
    error of the failed stage, if any), or an exception (of a stage,
    or of [process.chdir] in the final callback) escapes and the
    callback is never reached. *)
Inductive pipeline_result : Type :=
| Finished (err : option BuilderError)
| Crashed.

Section Start.
Context {W : Type}.
Variable host : Globals.Host.
Variable env : Globals.CocoonEnvironment.
Variable data : ICompilation.
Variable run_stage : stage -> W -> W * Async.outcome.
(** The disk as [cleanUp] finds it after the stages. *)
Variable disk_of : W -> Disk.
(** Whether [process.chdir] to the project folder succeeds after the
    stages: it throws when the folder is missing. *)
Variable chdir : W -> bool.

Definition is_android : bool := String.eqb (platform_name (platform data)) "android".

(** The final callback of the waterfall of [start].  The call of
    [process.chdir] is outside any [try]: when it throws, nothing of
    what follows it runs. *)
Definition final (w : W) (err : option BuilderError) : list start_effect * pipeline_result :=
  if chdir w then
    (([Chdir (getProjectPath host env (code data) (starttime data)); UnhookIntercept] ++
      (if negb (Globals.env_eqb env Globals.DEVELOP)
       then [CleanUp (cleanUp host is_android (disk_of w))]
       else []))%list,
     Finished err)
  else ([Chdir (getProjectPath host env (code data) (starttime data))], Crashed).

Definition start (w : W) : list start_effect * pipeline_result :=
  match Async.waterfall run_stage [Init; Create; Prepare; Build; Pack] w with
  | (tr, w', Async.Done) =>
      let '(eff, r) := final w' None in ((map RunStage tr ++ eff)%list, r)
  | (tr, w', Async.Failed e) =>
      let '(eff, r) := final w' (Some e) in ((map RunStage tr ++ eff)%list, r)
  | (tr, _, Async.Thrown) => (map RunStage tr, Crashed)
  end.
End Start.

(** *** What a run of [start] did, read off its effects *)

Definition is_removal (e : cleanup_effect) : bool :=
  match e with
  | RemoveSync _ | RemoveGradleCaches _ => true
  | StopGradleProcesses => false
  end.

Definition purges (e : start_effect) : bool :=
  match e with
  | CleanUp effects => existsb is_removal effects
  | _ => false
  end.

(** Temporary files or caches were removed. *)
Definition purged (eff : list start_effect) : bool := existsb purges eff.

(** *** [installPlugin]: what is asked of cordova *)

(** [new RegExp("^(https?:\\/\\/)", "i")] without its anchor. *)
Definition regexURL : Regex.re :=
  Regex.Group 1
    (Regex.str_i "http"
       (Regex.Cat (Regex.Opt (Regex.lit_i "s"%char)) (Regex.str_i "://" Regex.eps))).

(** [regexURL.test(s)]: the [^] of the pattern allows a match at the
    start of the text only; a missing attribute is tested as the text
    [undefined]. *)
Definition is_url (s : option string) : bool :=
  match Regex.run regexURL Regex.accept (Js.show s) [] with
  | Some _ => true
  | None => false
  end.

(** [plugin.attrib] of a [plugin] tag of [config.xml]. *)
Record plugin_attrib : Type := {
  plugin_name : option string;
  plugin_spec : option string
}.

Definition pluginID (plugin : plugin_attrib) : string :=
  if is_url (plugin_spec plugin) then Js.show (plugin_spec plugin)
  else if is_url (plugin_name plugin) then Js.show (plugin_name plugin)
  else Js.show (plugin_name plugin) ++ "@" ++
       (if Js.truthy (plugin_spec plugin) then Js.show (plugin_spec plugin) else "*").

(** The disk pressure of the specification: less than 1 GiB or less than
    25% free on the root or on the home file system. *)
Definition under_pressure (rootSpc homeSpc : DiskUsage) : bool :=
  (available rootSpc <? 1024 ^ 3) || (available rootSpc * 100 <? total rootSpc * 25) ||
  (available homeSpc <? 1024 ^ 3) || (available homeSpc * 100 <? total homeSpc * 25).

End Builder.

(** ** [builder_android.ts] *)

Module AndroidBuilder.
Import Builder.

Section Android.
Context {W : Type}.
Variable host : Globals.Host.
Variable env : Globals.CocoonEnvironment.
Variable data : ICompilation.
Variable tool : task -> W -> W * option string.
(** [execSync] of [sdkmanager --licenses]: [false] when it throws. *)
Variable accept_licenses : W -> W * bool.

Definition signed : bool :=
  match key (platform data) with
  | Some _ => true
  | None => false
  end.

Definition options (rel : bool) : IBuildOptions :=
  {| verbose := true;
     platforms := [platform_name (platform data)];
     options :=
       {| release := Some rel;
          device := Some true;
          archs := None;
          buildConfig :=
            if signed
            then Some (Path.join [getCordovaProjectPath host env (code data) (starttime data);
                                  "build.json"])
            else None |} |}.

(** The task list of [build]: the signing tasks when there is a key,
    then the native builds. *)
Definition build_tasks : list task :=
  ((if signed then [CreateCertsFolder; Keystore; BuildJson] else []) ++
   (if negb signed
    then [Compile (options false); Compile (options true)]
    else [Compile (options true)]))%list.

Definition build (w : W) : list task * W * Async.outcome :=
  match accept_licenses w with
  | (w', false) => ([], w', Async.Thrown)
  | (w', true) => Async.waterfall (exec tool) build_tasks w'
  end.

(** [/\/(android|app)(-armv7|-x86)?-release\.apk$/] *)
Definition release_apk : Regex.re :=
  Regex.str "/"
    (Regex.Cat (Regex.Group 1 (Regex.Alt (Regex.str "android" Regex.eps)
                                         (Regex.str "app" Regex.eps)))
       (Regex.Cat (Regex.Opt (Regex.Group 2 (Regex.Alt (Regex.str "-armv7" Regex.eps)
                                                       (Regex.str "-x86" Regex.eps))))
          (Regex.str "-release.apk" Regex.AtEnd))).

(** [/\/(android|app)(-armv7|-x86)?-(debug|release)(-unsigned)?\.apk$/] *)
Definition debug_or_release_apk : Regex.re :=
  Regex.str "/"
    (Regex.Cat (Regex.Group 1 (Regex.Alt (Regex.str "android" Regex.eps)
                                         (Regex.str "app" Regex.eps)))
       (Regex.Cat (Regex.Opt (Regex.Group 2 (Regex.Alt (Regex.str "-armv7" Regex.eps)
                                                       (Regex.str "-x86" Regex.eps))))
          (Regex.str "-"
             (Regex.Cat (Regex.Group 3 (Regex.Alt (Regex.str "debug" Regex.eps)
                                                  (Regex.str "release" Regex.eps)))
                (Regex.Cat (Regex.Opt (Regex.Group 4 (Regex.str "-unsigned" Regex.eps)))
                   (Regex.str ".apk" Regex.AtEnd)))))).

Definition filterFn (path : string) : bool :=
  if signed then Regex.test release_apk path
  else Regex.test debug_or_release_apk path.

Inductive pack_effect : Type :=
| Callback (e : BuilderError)
| CreateOutputZip (files : list string).

(** [pack]: [found] are the files [klawSync] lists under the APK
    output directory.  With no matching file the error is reported
    and the (empty) zip is still requested. *)
Definition pack (found : list string) : list pack_effect :=
  let files := List.filter filterFn found in
  ((match files with
    | [] => [Callback (new_BuilderError "No matching APKs found for packaging"
                         "Internal compiler error (code 0200)")]
    | _ :: _ => []
    end) ++ [CreateOutputZip files])%list.

(** The files handed to [createOutputZip]. *)
Definition zipped (found : list string) : list string := List.filter filterFn found.
End Android.

End AndroidBuilder.

(** ** [builder_windows.ts] *)

Module WindowsBuilder.
Import Builder.

(** [cfg.name().length()]: [cfg.name()] is the project name, a string
    (the other builders concatenate it and hand it to [path.join]);
    the [length] of a string is a number, and calling a number throws
    a [TypeError], whatever the name. *)
Definition name_length (name : string) : Js.result Z := Js.Throw.

Section Windows.
Context {W : Type}.
Variable host : Globals.Host.
Variable env : Globals.CocoonEnvironment.
Variable data : ICompilation.
Variable tool : task -> W -> W * option string.
(** [cfg.name()], the project name of [config.xml]. *)
Variable name : string.

Definition signed : bool :=
  match key (platform data) with
  | Some _ => true
  | None => false
  end.

Definition options : IBuildOptions :=
  {| verbose := true;
     platforms := [platform_name (platform data)];
     options :=
       {| release := Some signed;
          device := Some true;
          archs := Some "x86 x64 arm";
          buildConfig :=
            if signed
            then Some (Path.join [getCordovaProjectPath host env (code data) (starttime data);
                                  "build.json"])
            else None |} |}.

Definition build_tasks : list task :=
  ((if signed then [CreateCertsFolder; Pfx; RemovePfx; InstallPfx; BuildJson] else []) ++
   [Compile options] ++
   (if signed then [RemovePfx] else []))%list.

Definition name_too_long : BuilderError :=
  new_BuilderError
    "msbuild.exe doesn't accept application names longer than 40 characters. Cancelling compilation..."
    "Windows compilations can't have names longer than 40 characters. Choose a shorter name.".

(** [build]: the check of the name, then the task list.  The
    exception of the check leaves the method before any task is
    scheduled and before the callback is called. *)
Definition build (w : W) : list task * W * Async.outcome :=
  match name_length name with
  | Js.Throw => ([], w, Async.Thrown)
  | Js.Ret length =>
      if 40 <? length
      then ([], w, Async.Failed name_too_long)
      else Async.waterfall (exec tool) build_tasks w
  end.

(** [/^CordovaApp\.*/] without its anchor. *)
Definition package_pattern : Regex.re :=
  Regex.str "CordovaApp" (Regex.Opt (Regex.PlusC (Regex.is_char "."%char))).

(** The filter of [pack]; the [^] of the pattern allows a match at the
    start of the name only. *)
Definition is_package (item : string) : bool :=
  match Regex.run package_pattern Regex.accept item [] with
  | Some _ => true
  | None => false
  end.

(** [pack]: the files handed to [createOutputZip]; [dirContents] is
    what [readdirSync] lists in [AppPackages]. *)
Definition pack (dirContents : list string) : list string :=
  map (fun value => Path.join [getCordovaProjectPath host env (code data) (starttime data);
                               "platforms"; "windows"; "AppPackages"; value])
      (List.filter is_package dirContents).
End Windows.

End WindowsBuilder.

(** ** [builder_launcher.ts] *)

Module Launcher.

(** The command line as [commander] parsed it, and whether the script
    runs with an IPC channel ([process.send] is defined). *)
Record program : Type := {
  env : option string;
  json : option ICompilation;
  send : bool
}.

Inductive ipc_message : Type :=
| MsgNull
| MsgError (e : BuilderError)
(** [{ error: new Error(text), data: null }] *)
| MsgLauncher (text : string).

Inductive console_line : Type :=
| ConsoleError (text : string).

Record run : Type := {
  sent : list ipc_message;
  console : list console_line;
  (** the argument of [process.exit]; an uncaught exception ends the
      process with code 1 *)
  exit_code : Z
}.

Definition known_platform (name : string) : bool :=
  String.eqb name "android" || String.eqb name "ios" || String.eqb name "osx" ||
  String.eqb name "windows" || String.eqb name "ubuntu".

Definition launcher_error (p : program) (text : string) (code_with_ipc : Z) : run :=
  if send p
  then {| sent := [MsgLauncher text]; console := []; exit_code := code_with_ipc |}
  else {| sent := []; console := [ConsoleError text]; exit_code := -1 |}.

(** The script; [start] is the run of [builder.start] for the chosen
    platform builder. *)
Definition launch (p : program) (start : ICompilation -> Builder.pipeline_result) : run :=
  match env p with
  | None => launcher_error p "Parameter env not available" (-1)
  | Some _ =>
      match json p with
      | None => launcher_error p "Parameter json not available" (-1)
      | Some data =>
          if negb (known_platform (platform_name (platform data)))
          then launcher_error p "Builder not available" 0
          else
            match start data with
            | Builder.Finished (Some err) =>
                if send p
                then {| sent := [MsgError err]; console := []; exit_code := 0 |}
                else {| sent := []; console := [ConsoleError "JSON.stringify(err)"];
                        exit_code := -1 |}
            | Builder.Finished None =>
                {| sent := if send p then [MsgNull] else []; console := []; exit_code := 0 |}
            | Builder.Crashed => {| sent := []; console := []; exit_code := 1 |}
            end
      end
  end.

(** The message that carries the end of the pipeline. *)
Definition terminal_message (r : option BuilderError) : ipc_message :=
  match r with
  | Some err => MsgError err
  | None => MsgNull
  end.

End Launcher.

(** ** [notifier.ts]: the notification record, shared with the compiler *)

Record INotificationData : Type := {
  n_platform : string;
  (** [code] may be missing in a malformed payload *)
  n_code : option string;
  n_starttime : Z;
  msg_internal : option string;
  msg_public : option string
}.

(** ** [compiler.ts]: the Builder service *)

Module Compiler.

Definition COMPILER_LOOP_INTERVAL : Z := 5000.
Definition COMPILER_WATCHDOG_INTERVAL : Z := 2700000.

Definition nl : string := String (ascii_of_nat 10) "".

(** The bound of [log.slice(-10000)]. *)
Definition LOG_TAIL : nat := Z.to_nat 10000.

(** The events of the forked child the service listens to. *)
Inductive event : Type :=
| StdoutData (buffer : string)
| StderrData (buffer : string)
(** the IPC message: [null] or an error object *)
| Message (error : option BuilderError)
(** [code] is [null] when a signal ended the child *)
| Exit (code : option Z) (signal : option string)
| ProcessError (err : BuilderError).

(** The events that end a build. *)
Definition terminal (e : event) : bool :=
  match e with
  | StdoutData _ | StderrData _ => false
  | Message _ | Exit _ _ | ProcessError _ => true
  end.

Inductive effect : Type :=
| StdoutWrite (text : string)
| StdoutClose
| ClearInterval
| Kill (signal : string).

Record state : Type := {
  cbCalled : bool;
  (** the time of the next firing of the watchdog, [None] once the
      timer is cleared *)
  watchdogTimer : option Z;
  (** the error [cb] was called with, once it was called *)
  resolved : option (option BuilderError);
  (** what was written to [stdout.log] *)
  stdout_log : string;
  effects : list effect
}.

Definition is_kill (e : effect) : bool :=
  match e with
  | Kill _ => true
  | _ => false
  end.

Definition kills (s : state) : nat := List.length (List.filter is_kill (effects s)).

Section Build.
(** [replace(regex, "")] with the pattern made of the workspace and
    home paths. *)
Variable redact : string -> string.
(** The content of [cordova.log] in the workspace, if the file
    exists. *)
Variable cordova_log : option string.

(** The state [build] leaves after forking the child at time [0]. *)
Definition spawned : state :=
  {| cbCalled := false;
     watchdogTimer := Some COMPILER_WATCHDOG_INTERVAL;
     resolved := None;
     stdout_log := "";
     effects := [ClearInterval] |}.

Definition finishBuild (error : option BuilderError) (s : state) : state :=
  {| cbCalled := true;
     watchdogTimer := None;
     resolved := if cbCalled s then resolved s else Some error;
     stdout_log := stdout_log s;
     effects := (effects s ++ [StdoutClose; ClearInterval])%list |}.

Definition write (text : string) (s : state) : state :=
  {| cbCalled := cbCalled s;
     watchdogTimer := watchdogTimer s;
     resolved := resolved s;
     stdout_log := stdout_log s ++ text;
     effects := (effects s ++ [StdoutWrite text])%list |}.

Definition kill (signal : string) (s : state) : state :=
  {| cbCalled := cbCalled s;
     watchdogTimer := watchdogTimer s;
     resolved := resolved s;
     stdout_log := stdout_log s;
     effects := (effects s ++ [Kill signal])%list |}.

Definition reschedule (next : Z) (s : state) : state :=
  {| cbCalled := cbCalled s;
     watchdogTimer := Some next;
     resolved := resolved s;
     stdout_log := stdout_log s;
     effects := effects s |}.

(** The text of the log the handler of ["message"] reads. *)
Definition read_log : string :=
  match cordova_log with
  | Some content => redact content
  | None => "No log available"
  end.

(** The public message the handler of ["message"] builds. *)
Definition augment (error : BuilderError) : string :=
  let log := read_log in
  if Js.truthy (msgPublic error)
  then "COMPILER ERROR: " ++ nl ++ nl ++ redact (Js.show (msgPublic error))
       ++ nl ++ nl ++ "CORDOVA LOG: " ++ nl ++ nl ++ Js.slice_last LOG_TAIL log
  else "CORDOVA LOG: " ++ nl ++ nl ++ log.

Definition on_message (error : option BuilderError) (s : state) : state :=
  match error with
  | Some e =>
      finishBuild
        (Some {| message := if negb (Js.truthy (message e))
                            then Some (stdout_log s) else message e;
                 msgPublic := Some (augment e) |}) s
  | None => finishBuild None s
  end.

Definition exit_text (code : option Z) (signal : option string) : string :=
  "Process exited abnormally (" ++ Js.show_null signal ++ "): " ++ Js.show_code code.

Definition on_exit (code : option Z) (signal : option string) (s : state) : state :=
  match code with
  | Some 0 => finishBuild None s
  | _ => finishBuild (Some (new_Error (exit_text code signal)))
           (write (exit_text code signal) s)
  end.

Definition handle (e : event) (s : state) : state :=
  match e with
  | StdoutData buffer => write (redact buffer) s
  | StderrData buffer => write (redact buffer) s
  | Message error => on_message error s
  | Exit code signal => on_exit code signal s
  | ProcessError err => finishBuild (Some err) s
  end.

Definition watchdog_error : BuilderError :=
  new_BuilderError "Compilation took too long, killing..."
    "The compilation exceed the designated time.".

(** The callback of [setInterval], run at time [due]; the interval
    would fire again one period later, but [finishBuild] clears it. *)
Definition watchdog_fire (due : Z) (s : state) : state :=
  finishBuild (Some watchdog_error)
    (kill "SIGKILL" (reschedule (due + COMPILER_WATCHDOG_INTERVAL) s)).

(** The interval fires again and again, one period apart, as long as it
    is armed and due. *)
Fixpoint fire_all (periods : nat) (t : Z) (s : state) : state :=
  match periods with
  | O => s
  | S periods' =>
      match watchdogTimer s with
      | Some due => if due <=? t then fire_all periods' t (watchdog_fire due s) else s
      | None => s
      end
  end.

(** Timers that are due at time [t] run before what happens at [t]. *)
Definition fire_due (t : Z) (s : state) : state :=
  match watchdogTimer s with
  | Some due => fire_all (Z.to_nat ((t - due) / COMPILER_WATCHDOG_INTERVAL) + 1) t s
  | None => s
  end.

(** The events of the child, each with its time in milliseconds
    since the fork, in the order they arrive. *)
Fixpoint run (evs : list (Z * event)) (s : state) : state :=
  match evs with
  | [] => s
  | (t, e) :: rest => run rest (handle e (fire_due t s))
  end.

(** The build as it stands at time [now], [evs] being the events up
    to then. *)
Definition build (evs : list (Z * event)) (now : Z) : state :=
  fire_due now (run evs spawned).
End Build.

(** *** Invariants of a build

    A kill clears the timer and only an armed timer kills, so the
    watchdog kills at most once. *)
Definition at_most_once (s : state) : Prop :=
  (kills s <= 1)%nat /\ (watchdogTimer s <> None -> kills s = 0%nat).

(** The two states of a build that no terminal event has touched:
    waiting with the watchdog armed, or ended by the watchdog. *)
Definition waiting (s : state) : Prop :=
  cbCalled s = false /\ watchdogTimer s = Some COMPILER_WATCHDOG_INTERVAL /\
  resolved s = None /\ kills s = 0%nat.

Definition timed_out (s : state) : Prop :=
  cbCalled s = true /\ watchdogTimer s = None /\
  resolved s = Some (Some watchdog_error) /\ kills s = 1%nat /\
  In (Kill "SIGKILL") (effects s).

(** *** The callback of the waterfall of [loop] *)

Inductive loop_effect : Type :=
| Notify (n : INotificationData)
| Working (b : bool)
| ProcessExit (code : Z).

Definition notification (err : option BuilderError) (data : ICompilation) : INotificationData :=
  {| n_platform := platform_name (platform data);
     n_code := Some (code data);
     n_starttime := starttime data;
     msg_internal := match err with Some e => message e | None => None end;
     msg_public := match err with Some e => msgPublic e | None => None end |}.

(** [service] is [this._options.service]: daemon mode. *)
Definition finish_loop (service : bool) (err : option BuilderError) (data : option ICompilation)
  : list loop_effect :=
  ((match data with
    | Some d => if service then [Notify (notification err d)] else []
    | None => []
    end) ++
   [Working false] ++
   (if negb service
    then [ProcessExit (match err with Some _ => -1 | None => 0 end)]
    else []))%list.

(** *** The child as the service sees it

    What the service observes of one run of the launcher when the
    messages the child sends are delivered before its exit.  [wire] is
    what the IPC channel leaves of an error object; the object
    [{ error, data }] the launcher sends for its own errors has neither
    [message] nor [msgPublic].  The parent sees the low byte of the
    argument of [process.exit]. *)
Definition delivered (wire : BuilderError -> BuilderError) (m : Launcher.ipc_message) : event :=
  match m with
  | Launcher.MsgNull => Message None
  | Launcher.MsgError e => Message (Some (wire e))
  | Launcher.MsgLauncher _ => Message (Some {| message := None; msgPublic := None |})
  end.

Definition child_events (wire : BuilderError -> BuilderError) (t : Z) (r : Launcher.run)
  : list (Z * event) :=
  (map (fun m => (t, delivered wire m)) (Launcher.sent r)
   ++ [(t, Exit (Some (Launcher.exit_code r mod 256)) None)])%list.

(** [cb] was called exactly when the result is there, and from then on
    the watchdog is cleared. *)
Definition latched (s : state) : Prop :=
  (cbCalled s = true <-> resolved s <> None) /\
  (cbCalled s = true -> watchdogTimer s = None).

(** The sentence of the specification about the public message of a
    failed build: it carries, after [CORDOVA LOG:], a tail of at most
    10,000 characters of the log. *)
Definition carries_log_tail (log : string) (public : option string) : Prop :=
  exists before tail skipped,
    public = Some (before ++ "CORDOVA LOG: " ++ nl ++ nl ++ tail) /\
    (String.length tail <= LOG_TAIL)%nat /\
    log = skipped ++ tail.

End Compiler.

(** ** [notifier.ts]: the Notifier service *)

Module Notifier.

Definition MAX_RETRIES_NUMBER : Z := 20.

Record IMongoQueueMessage : Type := {
  id : string;
  ack : string;
  payload : INotificationData;
  tries : Z
}.

(** The answer to the POST of the result. *)
Inductive response : Type :=
| TransportError (text : string)
(** [description] is the field of the parsed body, when it parses *)
| Response (statusCode : Z) (description : option string).

Inductive dequeued : Type :=
| GetError (text : string)
| GetMessage (msg : option IMongoQueueMessage).

(** What the queue and the backend answer during one iteration. *)
Record World : Type := {
  get : dequeued;
  ping_error : option string;
  post : response;
  ack_error : option string
}.

Inductive effect : Type :=
| Working (b : bool)
| QueueGet
| QueuePing (token : string)
| QueueAck (token : string)
| QueueClean
| Post (url : string)
| RemoveSync (path : string).

Section Service.
Variable host : Globals.Host.
Variable env : Globals.CocoonEnvironment.
(** [globals.envToHost] *)
Variable envToHost : Globals.CocoonEnvironment -> string.

Definition workspace (n : INotificationData) : string :=
  Path.join [Globals.PROJECTS_PATH host env;
             Js.show (n_code n) ++ "_" ++ pretty (n_starttime n)].

Definition clean (n : INotificationData) : list effect :=
  if negb (Globals.env_eqb env Globals.DEVELOP) then [RemoveSync (workspace n)] else [].

Definition url (n : INotificationData) : string :=
  "https://" ++ envToHost env ++ "/api/v1/compilation/" ++ Js.show (n_code n).

(** [send]: the effects and the error handed to the callback. *)
Definition send (w : World) (n : INotificationData) : list effect * option string :=
  if Globals.env_eqb env Globals.DEVELOP then ([], None)
  else
    ([Post (url n)],
     match post w with
     | TransportError text => Some text
     | Response statusCode description =>
         if (200 <=? statusCode) && (statusCode <? 400) then None
         else Some (match description with
                    | Some d => d
                    | None => "An unknown error happened, sorry!"
                    end)
     end).

(** One call of [loop]; [working] is [this._working] on entry. *)
Definition loop (working : bool) (w : World) : list effect :=
  if working then []
  else
    Working true :: QueueGet ::
    match get w with
    | GetError _ => [Working false]
    | GetMessage None => [Working false]
    | GetMessage (Some msg) =>
        if MAX_RETRIES_NUMBER <? tries msg then
          QueueAck (ack msg) :: Working false ::
          match ack_error w with
          | Some _ => []
          | None => clean (payload msg)
          end
        else
          let n := payload msg in
          if negb (Js.truthy (n_code n)) then Working false :: clean n
          else
            QueuePing (ack msg) ::
            let '(sent, error) := send w n in
            (sent ++
             match error with
             | Some _ => [Working false]
             | None =>
                 QueueAck (ack msg) ::
                 match ack_error w with
                 | Some _ => [Working false]
                 | None => Working false :: QueueClean :: clean n
                 end
             end)%list
    end.

(** The filter of [getOutputFile]:
    [value.indexOf(".") === 0 || value.indexOf("..") === 0]. *)
Definition hidden (value : string) : bool :=
  Js.index_of_is_zero "." value || Js.index_of_is_zero ".." value.

(** [getOutputFile]; [readdir] is what [readdirSync] of the [out]
    folder answers.  An exception leaves the list empty, and [pop] of
    an empty list gives [undefined]. *)
Definition getOutputFile (readdir : Js.result (list string)) (n : INotificationData)
  : option string :=
  let files :=
    match readdir with
    | Js.Ret files =>
        map (fun value => Path.join [Globals.PROJECTS_PATH host env;
                                     Js.show (n_code n) ++ "_" ++ pretty (n_starttime n);
                                     "out"; value])
            (List.filter (fun value => negb (hidden value)) files)
    | Js.Throw => []
    end in
  last files.

Definition getStdout (n : INotificationData) : string :=
  Path.join [Globals.PROJECTS_PATH host env;
             Js.show (n_code n) ++ "_" ++ pretty (n_starttime n); "stdout.log"].

End Service.

(** The working flag was set to [b]. *)
Definition sets_working (b : bool) (e : effect) : bool :=
  match e with
  | Working b' => Bool.eqb b b'
  | _ => false
  end.

(** The steps that clean up after a notification. *)
Definition cleaning (e : effect) : Prop :=
  match e with
  | QueueClean | RemoveSync _ => True
  | _ => False
  end.

(** The requests to the queue and to the backend. *)
Definition queue_or_post (e : effect) : Prop :=
  match e with
  | QueueGet | QueuePing _ | QueueAck _ | Post _ => True
  | _ => False
  end.

(** *** What an iteration did, read off its effects *)

Definition is_post (e : effect) : bool :=
  match e with
  | Post _ => true
  | _ => false
  end.

Definition is_ack (e : effect) : bool :=
  match e with
  | QueueAck _ => true
  | _ => false
  end.

Definition is_remove (e : effect) : bool :=
  match e with
  | RemoveSync _ => true
  | _ => false
  end.

(** The result was POSTed to the backend. *)
Definition posted (eff : list effect) : bool := existsb is_post eff.

(** The ack of the message was issued. *)
Definition acked (eff : list effect) : bool := existsb is_ack eff.

(** A directory was removed. *)
Definition removed (eff : list effect) : bool := existsb is_remove eff.

(** The POST completed with a status code in [[200, 400)]. *)
Definition post_ok (w : World) : bool :=
  match post w with
  | TransportError _ => false
  | Response statusCode _ => (200 <=? statusCode) && (statusCode <? 400)
  end.

(** The sentence of the specification about a notification that is sent:
    acked, and outside DEVELOP its workspace removed, if and only if the
    POST completed with a status code in [[200, 400)]. *)
Definition acked_and_cleaned_iff_post_ok
    (env : Globals.CocoonEnvironment) (w : World) (eff : list effect) : Prop :=
  (acked eff = true /\ (env <> Globals.DEVELOP -> removed eff = true)) <->
  (posted eff = true /\ post_ok w = true).

End Notifier.

(** ** [updater.ts]: the Updater service *)

Module Updater.

Record IS3ContentData : Type := {
  Key : string;
  (** the ISO-8601 text of the date: what [toISOString] gives for the
      remote entry and what the persisted JSON holds *)
  LastModified : string;
  ETag : string;
  Size : string
}.

Inductive SyncStatus : Type :=
| IGNORE
| DOWNLOAD
| DELETE.

(** What reading [s3_structure.json] gives. *)
Inductive manifest_file : Type :=
| Absent
(** [JSON.parse] throws *)
| Unparsable
(** the parsed value is falsy ([null]) *)
| Falsy
| Structure (items : list IS3ContentData).

(** The part of the file system the Updater works on: the manifest
    file [s3_structure.json] of the workspace folder, the directories,
    and the file [ready.lock] of the data folder. *)
Record FS : Type := {
  s3_structure : manifest_file;
  (** the directories that exist *)
  dirs : gset string;
  (** [ready.lock] exists *)
  ready_lock : bool
}.

Definition tracked (dirName : string) : bool :=
  existsb (String.eqb dirName)
    [Globals.CORDOVA_PLATFORMS_FOLDER; Globals.CORDOVA_COMPILERS_FOLDER;
     Globals.CORDOVA_PLUGINS_FOLDER; Globals.CORDOVA_LIBS_FOLDER; Globals.SDKS_FOLDER].

(** The five folders of the data folder. *)
Definition folders : list string :=
  [Globals.CORDOVA_PLATFORMS_FOLDER; Globals.CORDOVA_COMPILERS_FOLDER;
   Globals.CORDOVA_PLUGINS_FOLDER; Globals.CORDOVA_LIBS_FOLDER; Globals.SDKS_FOLDER].

Definition dot (a : ascii) : bool := Regex.is_char "."%char a.
Definition dash (a : ascii) : bool := Regex.is_char "-"%char a.
Definition qmark (a : ascii) : bool := Regex.is_char "?"%char a.

Definition tar_bz2 : Regex.re := Regex.str_i ".tar.bz2" Regex.eps.

(** [/([a-zA-Z0-9.\-?]+)\.tar\.bz2/i] *)
Definition name_pattern : Regex.re :=
  Regex.Cat
    (Regex.Group 1
       (Regex.PlusC (fun a => Regex.is_alpha a || Regex.is_digit a || dot a || dash a || qmark a)))
    tar_bz2.

(** [/compiler_cordova_([0-9.?]+)\.tar\.bz2/i] *)
Definition compiler_pattern : Regex.re :=
  Regex.str_i "compiler_cordova_"
    (Regex.Cat (Regex.Group 1 (Regex.PlusC (fun a => Regex.is_digit a || dot a || qmark a)))
       tar_bz2).

(** [/(cordova-[0-9.]+)-[a-zA-Z]+\.tar\.bz2/i] *)
Definition lib_name_pattern : Regex.re :=
  Regex.Cat
    (Regex.Group 1
       (Regex.str_i "cordova-" (Regex.PlusC (fun a => Regex.is_digit a || dot a))))
    (Regex.Cat (Regex.lit_i "-"%char) (Regex.Cat (Regex.PlusC Regex.is_alpha) tar_bz2)).

(** [/cordova-[0-9.]+-([a-zA-Z]+)\.tar\.bz2/i] *)
Definition lib_os_pattern : Regex.re :=
  Regex.str_i "cordova-"
    (Regex.Cat (Regex.PlusC (fun a => Regex.is_digit a || dot a))
       (Regex.Cat (Regex.lit_i "-"%char)
          (Regex.Cat (Regex.Group 1 (Regex.PlusC Regex.is_alpha)) tar_bz2))).

(** [/[a-zA-Z.\-]+-([a-zA-Z0-9]+)\.tar\.bz2/i] *)
Definition sdk_os_pattern : Regex.re :=
  Regex.Cat (Regex.PlusC (fun a => Regex.is_alpha a || dot a || dash a))
    (Regex.Cat (Regex.lit_i "-"%char)
       (Regex.Cat (Regex.Group 1 (Regex.PlusC (fun a => Regex.is_alpha a || Regex.is_digit a)))
          tar_bz2)).

Inductive effect : Type :=
| Working (b : bool)
| Download (key : string)
| EmptyDir (path : string)
| Extract (key : string) (outDir : string)
| RemoveDir (path : string)
| WriteManifest
| RemoveSyncFolder
| TouchReadyLock
| ProcessExit (code : Z).

(** How the download of one object ends. *)
Inductive fetched : Type :=
(** the write stream reports an error *)
| StreamError (text : string)
(** the stream closes; [tar] then ends with the given error, if any *)
| Closed (tar_error : option string).

(** How [fse.writeFile] of the manifest ends; after an error the world
    decides what is left of the file. *)
Inductive written : Type :=
| WriteOk
| WriteError (text : string) (remains : manifest_file).

(** What the outside answers during one iteration. *)
Record World : Type := {
  ensure_data_dir : option string;
  empty_sync_dir : option string;
  listObjects : string + list IS3ContentData;
  getObject : string -> fetched;
  writeFile : written
}.

(** How an iteration ends: the final callback of the waterfall runs
    to its end (with an error or not), or an exception escapes a
    callback: the final callback then never runs, or not to its end. *)
Inductive iteration : Type :=
| Completed (err : option string)
| Crashed
| Skipped.

Section Service.
Variable host : Globals.Host.
Variable env : Globals.CocoonEnvironment.
(** [this._options.service] *)
Variable service : bool.

(** [p] is [dir] or lies below it. *)
Definition under (dir p : string) : bool :=
  String.eqb p dir || Js.starts_with (dir ++ "/") p.

Definition existsSync (fs : FS) (p : option string) : bool :=
  match p with
  | Some path => bool_decide (path ∈ dirs fs)
  | None => false
  end.

Definition set_dirs (d : gset string) (fs : FS) : FS :=
  {| s3_structure := s3_structure fs; dirs := d; ready_lock := ready_lock fs |}.

(** [path.join(globals.COMPILER_DATA_PATH(env), "ready.lock")] *)
Definition lock : string := Path.join [Globals.COMPILER_DATA_PATH host env; "ready.lock"].

(** [p] and the directories above it, up to the root or to [.]. *)
Fixpoint parents (fuel : nat) (p : string) : list string :=
  match fuel with
  | O => [p]
  | S n => if String.eqb (Path.dirname p) p then [p] else p :: parents n (Path.dirname p)
  end.

(** The directories [mkdirsSync(p)] makes sure of. *)
Definition mkdirs (p : string) : gset string := list_to_set (parents (String.length p) p).

(** [fse.ensureDir(dir)] that succeeds. *)
Definition ensureDir (dir : string) (fs : FS) : FS := set_dirs (mkdirs dir ∪ dirs fs) fs.

(** [fse.removeSync(dir)]: [dir] goes with all it holds, the
    directories below it and, when they lie in it, the manifest file
    and [ready.lock]. *)
Definition removeSync (dir : string) (fs : FS) : FS :=
  {| s3_structure :=
       if under dir (Globals.S3_STRUCTURE_FILE_PATH host env) then Absent else s3_structure fs;
     dirs := filter (fun p => negb (under dir p)) (dirs fs);
     ready_lock := ready_lock fs && negb (under dir lock) |}.

(** [fse.emptyDirSync(dir)]: all that [dir] holds goes; [dir] is there
    afterwards, made with the directories above it when it was
    missing. *)
Definition emptyDirSync (dir : string) (fs : FS) : FS :=
  set_dirs (mkdirs dir ∪ dirs (removeSync dir fs)) (removeSync dir fs).

Definition isPlatformFile (data : IS3ContentData) : Js.result bool :=
  let fileName := Path.basename (Key data) in
  let dirName := Path.dirname (Key data) in
  if tracked dirName then
    let osType := Globals.os_platform host in
    if String.eqb dirName Globals.CORDOVA_LIBS_FOLDER then
      Js.bind (Regex.match_group1 lib_os_pattern fileName) (fun libOS =>
        Js.Ret (String.eqb osType libOS))
    else if String.eqb dirName Globals.SDKS_FOLDER then
      Js.bind (Regex.match_group1 sdk_os_pattern fileName) (fun libOS =>
        Js.Ret (String.eqb osType libOS))
    else Js.Ret true
  else Js.Ret true.

(** One of the five [if]s of [getOutputDir]. *)
Definition output_in (folder : string) (pattern : Regex.re) (base : string)
    (contentData : IS3ContentData) (dir : option string) : Js.result (option string) :=
  if String.eqb (Path.dirname (Key contentData)) folder then
    Js.bind (Regex.match_group1 pattern (Path.basename (Key contentData))) (fun name =>
      Js.Ret (Some (Path.join [base; name])))
  else Js.Ret dir.

Definition getOutputDir (contentData : IS3ContentData) : Js.result (option string) :=
  Js.bind (output_in Globals.CORDOVA_PLATFORMS_FOLDER name_pattern
             (Globals.CORDOVA_PLATFORMS_PATH host env) contentData None) (fun dir =>
  Js.bind (output_in Globals.CORDOVA_COMPILERS_FOLDER compiler_pattern
             (Globals.CORDOVA_COMPILERS_PATH host env) contentData dir) (fun dir =>
  Js.bind (output_in Globals.CORDOVA_PLUGINS_FOLDER name_pattern
             (Globals.CORDOVA_PLUGINS_PATH host env) contentData dir) (fun dir =>
  Js.bind (output_in Globals.CORDOVA_LIBS_FOLDER lib_name_pattern
             (Globals.CORDOVA_LIBS_PATH host env) contentData dir) (fun dir =>
  output_in Globals.SDKS_FOLDER name_pattern
    (Path.join [Globals.COMPILER_DATA_PATH host env; Globals.SDKS_FOLDER])
    contentData dir)))).

(** Where [getOutputDir] points: a name in one of the five folders of
    the data folder. *)
Definition placed (dir : option string) : Prop :=
  forall outDir, dir = Some outDir ->
    exists folder name,
      In folder folders /\ Path.segment name /\
      outDir = Path.join [Path.join [Globals.COMPILER_DATA_PATH host env; folder]; name].

(** The loop of [getSyncStatus] over the persisted manifest, from
    the initial [IGNORE]; [break] ends it with [DOWNLOAD]. *)
Fixpoint getSyncStatus (fs : FS) (data : list IS3ContentData) (contentData : IS3ContentData)
  : Js.result SyncStatus :=
  match data with
  | [] => Js.Ret IGNORE
  | item :: rest =>
      if tracked (Path.dirname (Key contentData)) && String.eqb (Key item) (Key contentData)
      then
        Js.bind (getOutputDir contentData) (fun outDir =>
          if negb (existsSync fs outDir) then Js.Ret DOWNLOAD
          else if negb (String.eqb (LastModified item) (LastModified contentData))
               then Js.Ret DOWNLOAD
               else getSyncStatus fs rest contentData)
      else getSyncStatus fs rest contentData
  end.

(** The status [sync] computes for one entry: [DOWNLOAD] unless the
    manifest file exists, parses to a truthy value and
    [getSyncStatus] returns. *)
Definition syncObject (fs : FS) (contentData : IS3ContentData) : SyncStatus :=
  match s3_structure fs with
  | Structure structure =>
      match getSyncStatus fs structure contentData with
      | Js.Ret status => status
      | Js.Throw => DOWNLOAD
      end
  | Absent | Unparsable | Falsy => DOWNLOAD
  end.

(** The first loop of [sync]: the entries for this host. *)
Fixpoint purgedContents (contents : list IS3ContentData) : Js.result (list IS3ContentData) :=
  match contents with
  | [] => Js.Ret []
  | dataContent :: rest =>
      Js.bind (isPlatformFile dataContent) (fun keep =>
        Js.bind (purgedContents rest) (fun kept =>
          Js.Ret (if keep then dataContent :: kept else kept)))
  end.

(** [async.forEachOfSeries] over the entries. *)
Fixpoint sync_each (w : World) (contents : list IS3ContentData) (fs : FS)
  : FS * list effect * iteration :=
  match contents with
  | [] => (fs, [], Completed None)
  | contentData :: rest =>
      match syncObject fs contentData with
      | DOWNLOAD =>
          match getObject w (Key contentData) with
          | StreamError text => (fs, [Download (Key contentData)], Completed (Some text))
          | Closed tar_error =>
              match getOutputDir contentData with
              | Js.Throw => (fs, [Download (Key contentData)], Crashed)
              | Js.Ret None =>
                  let '(fs', eff, r) := sync_each w rest fs in
                  (fs', Download (Key contentData) :: eff, r)
              | Js.Ret (Some outDir) =>
                  let fs1 := emptyDirSync outDir fs in
                  let here := [Download (Key contentData); EmptyDir outDir;
                               Extract (Key contentData) outDir] in
                  match tar_error with
                  | Some text => (fs1, here, Completed (Some text))
                  | None =>
                      let '(fs', eff, r) := sync_each w rest fs1 in
                      (fs', (here ++ eff)%list, r)
                  end
              end
          end
      | IGNORE | DELETE => sync_each w rest fs
      end
  end.

(** The loop of [purge] over the persisted manifest; an exception of
    [getOutputDir] ends the loop (the [catch] around it logs). *)
Fixpoint purge_each (remote : list IS3ContentData) (structure : list IS3ContentData) (fs : FS)
  : FS * list effect :=
  match structure with
  | [] => (fs, [])
  | localItem :: rest =>
      if existsb (fun remoteItem => String.eqb (Key localItem) (Key remoteItem)) remote
      then purge_each remote rest fs
      else
        match getOutputDir localItem with
        | Js.Throw => (fs, [])
        | Js.Ret file =>
            if existsSync fs file then
              match file with
              | Some path =>
                  let '(fs', eff) := purge_each remote rest (removeSync path fs) in
                  (fs', RemoveDir path :: eff)
              | None => purge_each remote rest fs
              end
            else purge_each remote rest fs
        end
  end.

Definition purge (remote : list IS3ContentData) (fs : FS) : FS * list effect :=
  match s3_structure fs with
  | Structure structure => purge_each remote structure fs
  | Absent | Unparsable | Falsy => (fs, [])
  end.

Definition set_manifest (m : manifest_file) (fs : FS) : FS :=
  {| s3_structure := m; dirs := dirs fs; ready_lock := ready_lock fs |}.

Definition save (w : World) (contents : list IS3ContentData) (fs : FS)
  : FS * list effect * option string :=
  match writeFile w with
  | WriteOk => (set_manifest (Structure contents) fs, [RemoveSyncFolder; WriteManifest], None)
  | WriteError text remains => (set_manifest remains fs, [RemoveSyncFolder; WriteManifest], Some text)
  end.

Definition touch_ready_lock (fs : FS) : FS :=
  {| s3_structure := s3_structure fs; dirs := dirs fs; ready_lock := true |}.

(** [!err && status && status.Contents.length > 0] *)
Definition lock_due (err : option string) (status : option (list IS3ContentData)) : bool :=
  match err, status with
  | None, Some contents => Nat.ltb 0 (List.length contents)
  | _, _ => false
  end.

(** The final callback of the waterfall of [loop]; [status] is the
    listing the last task handed over.  [fse.openSync(lock, "w")]
    creates the file in the data folder and throws when that folder
    is missing: the rest of the callback is then skipped. *)
Definition final (err : option string) (status : option (list IS3ContentData)) (fs : FS)
  : FS * list effect * iteration :=
  let ready := lock_due err status in
  if ready && negb (existsSync fs (Some (Globals.COMPILER_DATA_PATH host env)))
  then (fs, [RemoveSyncFolder], Crashed)
  else
    (if ready then touch_ready_lock fs else fs,
     ([RemoveSyncFolder] ++ (if ready then [TouchReadyLock] else []) ++ [Working false] ++
      (if negb service
       then [ProcessExit (match err with Some _ => -1 | None => 0 end)]
       else []))%list,
     Completed err).

Definition finish (before : list effect) (err : option string)
    (status : option (list IS3ContentData)) (fs : FS) : FS * list effect * iteration :=
  let '(fs', eff, r) := final err status fs in
  (fs', (before ++ eff)%list, r).

(** One call of [loop]: [init], [dataFolder], [syncFolder], [list],
    [sync], [purge], [save], then the final callback. *)
Definition loop (working : bool) (w : World) (fs : FS) : FS * list effect * iteration :=
  if working then (fs, [], Skipped)
  else
    match ensure_data_dir w with
    | Some text => finish [Working true] (Some text) None fs
    | None =>
        let fs0 := ensureDir (Globals.COMPILER_DATA_PATH host env) fs in
        match empty_sync_dir w with
        | Some text => finish [Working true] (Some text) None fs0
        | None =>
            match listObjects w with
            | inl text => finish [Working true] (Some text) None fs0
            | inr remote =>
                match purgedContents remote with
                | Js.Throw => (fs0, [Working true], Crashed)
                | Js.Ret contents =>
                    match sync_each w contents fs0 with
                    | (fs1, eff1, Completed (Some text)) =>
                        finish (Working true :: eff1) (Some text) (Some contents) fs1
                    | (fs1, eff1, Completed None) =>
                        let '(fs2, eff2) := purge contents fs1 in
                        let '(fs3, eff3, err) := save w contents fs2 in
                        finish (Working true :: eff1 ++ eff2 ++ eff3)%list err (Some contents) fs3
                    | (fs1, eff1, r) => (fs1, Working true :: eff1, r)
                    end
                end
            end
        end
    end.

(** The effect takes [ready.lock] away: a directory that holds it is
    emptied or removed. *)
Definition is_wipe (e : effect) : bool :=
  match e with
  | EmptyDir path | RemoveDir path => under path lock
  | _ => false
  end.

(** [ready.lock] went with a directory. *)
Definition wiped_ready_lock (eff : list effect) : bool := existsb is_wipe eff.

End Service.

Definition is_touch (e : effect) : bool :=
  match e with
  | TouchReadyLock => true
  | _ => false
  end.

(** [ready.lock] was created or touched. *)
Definition touched_ready_lock (eff : list effect) : bool := existsb is_touch eff.

Definition is_download (k : string) (e : effect) : bool :=
  match e with
  | Download k' => String.eqb k k'
  | _ => false
  end.

(** The object with key [k] was downloaded. *)
Definition downloaded (k : string) (eff : list effect) : bool := existsb (is_download k) eff.

End Updater.

(** ** [service.ts]: the frame shared by the services *)

Module Service.

Definition LOOP_INTERVAL : Z := 10000.
Definition STOP_INTERVAL : Z := 5000.
Definition HEARTBEAT_INTERVAL : Z := 60000.

(** A timer field of the service: [null], the handle of a running
    interval, or a handle that [clearInterval] has stopped (the field
    keeps the handle). *)
Inductive timer : Type :=
| Null
| Running
| Cleared.

Definition clearInterval (t : timer) : timer :=
  match t with
  | Running => Cleared
  | Null => Null
  | Cleared => Cleared
  end.

Definition is_null (t : timer) : bool :=
  match t with
  | Null => true
  | _ => false
  end.

(** The answer to a request to the backend. *)
Inductive answer : Type :=
| RequestError (text : string)
| Status (statusCode : Z).

Definition ok (a : answer) : bool :=
  match a with
  | RequestError _ => false
  | Status statusCode => (200 <=? statusCode) && (statusCode <? 400)
  end.

(** The answers to the two registration requests. *)
Record Backend : Type := {
  compilers_answer : answer;
  service_answer : answer
}.

Inductive effect : Type :=
| OnStop
| Loop
| SetLoopInterval (ms : Z)
| SetHeartbeatInterval (ms : Z)
| SetStopInterval (ms : Z)
| Request (method : string) (uri : string)
| ProcessExit (code : Z).

Record state : Type := {
  _working : bool;
  _ipAddress : option string;
  _loopIntervalId : timer;
  _stopIntervalId : timer;
  _heartbeatIntervalId : timer;
  (** what the service did so far, in order *)
  trace : list effect
}.

(** The fields as the constructor leaves them. *)
Definition constructed : state :=
  {| _working := false;
     _ipAddress := None;
     _loopIntervalId := Null;
     _stopIntervalId := Null;
     _heartbeatIntervalId := Null;
     trace := [] |}.

Definition emit (e : list effect) (s : state) : state :=
  {| _working := _working s;
     _ipAddress := _ipAddress s;
     _loopIntervalId := _loopIntervalId s;
     _stopIntervalId := _stopIntervalId s;
     _heartbeatIntervalId := _heartbeatIntervalId s;
     trace := (trace s ++ e)%list |}.

Definition working (b : bool) (s : state) : state :=
  {| _working := b;
     _ipAddress := _ipAddress s;
     _loopIntervalId := _loopIntervalId s;
     _stopIntervalId := _stopIntervalId s;
     _heartbeatIntervalId := _heartbeatIntervalId s;
     trace := trace s |}.

Definition set_ip (ip : string) (s : state) : state :=
  {| _working := _working s;
     _ipAddress := Some ip;
     _loopIntervalId := _loopIntervalId s;
     _stopIntervalId := _stopIntervalId s;
     _heartbeatIntervalId := _heartbeatIntervalId s;
     trace := trace s |}.

Definition set_timers (loopId stopId heartbeatId : timer) (s : state) : state :=
  {| _working := _working s;
     _ipAddress := _ipAddress s;
     _loopIntervalId := loopId;
     _stopIntervalId := stopId;
     _heartbeatIntervalId := heartbeatId;
     trace := trace s |}.

Section Frame.
Variable env : Globals.CocoonEnvironment.
(** [this._options.service] *)
Variable service : bool.
(** [this._id] and [this._loopInterval] *)
Variable id : string.
Variable loopInterval : Z.
(** [onStart] of the service at hand: the Updater runs its first
    [loop] there, the other services connect to what they need.
    [onStop] does nothing in any of the services. *)
Variable onStart : state -> state.

Definition compilers_uri : string :=
  "https://" ++ Globals.envToHost env ++ "/api/v1/compilers".

Definition heartbeat (s : state) : state :=
  if Globals.env_eqb env Globals.DEVELOP
  then set_timers (_loopIntervalId s) (_stopIntervalId s)
         (clearInterval (_heartbeatIntervalId s)) s
  else emit [Request "POST" (compilers_uri ++ "/" ++ Js.show (_ipAddress s) ++ "/" ++ id
                             ++ "/heartbeat")] s.

(** [registerService], with the answer to its request. *)
Definition registerService (b : Backend) (s : state) : state :=
  if Globals.env_eqb env Globals.DEVELOP then s
  else
    let s1 := emit [Request "POST" (compilers_uri ++ "/" ++ Js.show (_ipAddress s))] s in
    if ok (service_answer b) then heartbeat s1 else s1.

(** [register] up to its request. *)
Definition register_request (s : state) : state :=
  if Globals.env_eqb env Globals.DEVELOP then s
  else emit [Request "POST" compilers_uri] s.

(** The callback of the request of [register]. *)
Definition register_answered (b : Backend) (s : state) : state :=
  if Globals.env_eqb env Globals.DEVELOP then s
  else if ok (compilers_answer b) then registerService b s else s.

(** [register], with the answers to the requests it leads to. *)
Definition register (b : Backend) (s : state) : state :=
  register_answered b (register_request s).

Definition deregister (s : state) : state :=
  emit [Request "DELETE" (compilers_uri ++ "/" ++ Js.show (_ipAddress s) ++ "/" ++ id)] s.

(** [stop]: the handler of SIGTERM and SIGINT, and the callback of the
    stop interval. *)
Definition stop (s : state) : state :=
  if _working s then
    let s1 := set_timers (clearInterval (_loopIntervalId s)) (_stopIntervalId s)
                (_heartbeatIntervalId s) s in
    if is_null (_stopIntervalId s1)
    then emit [SetStopInterval STOP_INTERVAL]
           (set_timers (_loopIntervalId s1) Running (_heartbeatIntervalId s1) s1)
    else s1
  else
    let s1 := emit [OnStop] s in
    let s2 :=
      if service
      then set_timers (clearInterval (_loopIntervalId s1)) (_stopIntervalId s1)
             (clearInterval (_heartbeatIntervalId s1)) s1
      else s1 in
    emit [ProcessExit 0] (deregister (working false s2)).

(** [start]; [ip] is what [getNetworkIP] answers, an address or an
    error.  The answer to the request of [register] arrives after the
    intervals are set. *)
Definition start (ip : string + string) (b : Backend) (s : state) : state :=
  if is_null (_loopIntervalId s) then
    let s1 := onStart s in
    match ip with
    | inr _ => stop s1
    | inl ipAddress =>
        if service then
          let s2 := register_request (set_ip ipAddress s1) in
          let s3 := emit [SetLoopInterval loopInterval; SetHeartbeatInterval HEARTBEAT_INTERVAL]
                      (set_timers Running (_stopIntervalId s2) Running s2) in
          register_answered b s3
        else emit [Loop] s1
    end
  else s.
End Frame.

Definition is_exit (e : effect) : bool :=
  match e with
  | ProcessExit _ => true
  | _ => false
  end.

(** The process has ended. *)
Definition exited (s : state) : bool := existsb is_exit (trace s).

Definition is_stop_interval (e : effect) : bool :=
  match e with
  | SetStopInterval _ => true
  | _ => false
  end.

(** How many stop intervals were created. *)
Definition stop_intervals (s : state) : nat :=
  List.length (List.filter is_stop_interval (trace s)).

Definition requests (s : state) : list (string * string) :=
  flat_map (fun e => match e with
                     | Request method uri => [(method, uri)]
                     | _ => []
                     end) (trace s).

End Service.

(** ** Concrete hosts, jobs and answers of the outside world *)

Module Scenario.

Definition linux : Globals.Host :=
  {| Globals.os_platform := "linux";
     Globals.home := "/home/cocoon";
     Globals.tmpdir := "/tmp";
     Globals.uid := 1000 |}.

Definition envToHost (env : Globals.CocoonEnvironment) : string :=
  match env with
  | Globals.PRODUCTION => "admin.cocoon.io"
  | _ => "admin-testing.cocoon.io"
  end.

Definition job (name : string) (k : option string) : ICompilation :=
  {| code := "A1";
     platform := {| platform_name := name; key := k |};
     config := "config.xml";
     source := "src.zip";
     libVersion := "8.0.0";
     starttime := 1534809600000 |}.

(** *** The launcher *)

Definition over_ipc (data : ICompilation) : Launcher.program :=
  {| Launcher.env := Some "testing"; Launcher.json := Some data; Launcher.send := true |}.

Definition pack_failed : BuilderError :=
  new_BuilderError "No matching APKs found for packaging" "Internal compiler error (code 0200)".

(** *** The Notifier *)

Definition failed_notification : INotificationData :=
  {| n_platform := "android";
     n_code := Some "A1";
     n_starttime := 1534809600000;
     msg_internal := Some "boom";
     msg_public := Some "Internal compiler error (code 0200)" |}.

Definition message (n : Z) : Notifier.IMongoQueueMessage :=
  {| Notifier.id := "5b7c";
     Notifier.ack := "token";
     Notifier.payload := failed_notification;
     Notifier.tries := n |}.

(** The queue hands out [message n]; the backend answers [status];
    the ack ends with [ack_error]. *)
Definition notifier_world (n : Z) (status : Z) (ack_error : option string) : Notifier.World :=
  {| Notifier.get := Notifier.GetMessage (Some (message n));
     Notifier.ping_error := None;
     Notifier.post := Notifier.Response status None;
     Notifier.ack_error := ack_error |}.

(** *** The build stage of the platform builders *)

(** A world in which every tool succeeds. *)
Definition all_fine (t : Builder.task) (w : unit) : unit * option string := (w, None).

(** A world in which the debug build of cordova fails. *)
Definition debug_fails (t : Builder.task) (w : unit) : unit * option string :=
  match t with
  | Builder.Compile o =>
      match Builder.release (Builder.options o) with
      | Some false => (w, Some "Gradle build failed")
      | _ => (w, None)
      end
  | _ => (w, None)
  end.

Definition licenses_accepted (w : unit) : unit * bool := (w, true).

(** *** The Updater *)

Definition entry (k modified : string) : Updater.IS3ContentData :=
  {| Updater.Key := k;
     Updater.LastModified := modified;
     Updater.ETag := "9b2cf535f27731c974343645a3985328";
     Updater.Size := "1024" |}.

Definition plugin_X : Updater.IS3ContentData :=
  entry "plugins/X.tar.bz2" "2018-08-20T09:30:00.000Z".

Definition plugin_Y : Updater.IS3ContentData :=
  entry "plugins/Y.tar.bz2" "2018-08-01T10:00:00.000Z".

Definition darwin_lib : Updater.IS3ContentData :=
  entry "libs/cordova-8.0.0-darwin.tar.bz2" "2018-07-15T08:00:00.000Z".

(** An archive whose name is two dots: its output directory is the
    data folder itself. *)
Definition plugin_dots : Updater.IS3ContentData :=
  entry "plugins/...tar.bz2" "2018-08-05T12:00:00.000Z".

Definition data_dir : string := "/home/cocoon/opt/cocoon_compiler/workspace/testing/data".

Definition plugins_dir (name : string) : string :=
  "/home/cocoon/opt/cocoon_compiler/workspace/testing/data/plugins/" ++ name.

(** The bucket lists [contents]; every download, extraction and write
    succeeds. *)
Definition bucket (contents : list Updater.IS3ContentData) : Updater.World :=
  {| Updater.ensure_data_dir := None;
     Updater.empty_sync_dir := None;
     Updater.listObjects := inr contents;
     Updater.getObject := fun _ => Updater.Closed None;
     Updater.writeFile := Updater.WriteOk |}.

(** A fresh host. *)
Definition fresh : Updater.FS :=
  {| Updater.s3_structure := Updater.Absent; Updater.dirs := ∅; Updater.ready_lock := false |}.

(** A host in sync with a bucket that holds the plugin Y only. *)
Definition synced_Y : Updater.FS :=
  {| Updater.s3_structure := Updater.Structure [plugin_Y];
     Updater.dirs := {[ plugins_dir "Y" ]};
     Updater.ready_lock := true |}.

(** One iteration of the Updater service on the linux host, in TESTING,
    as a daemon. *)
Definition update (w : Updater.World) (fs : Updater.FS)
  : Updater.FS * list Updater.effect * Updater.iteration :=
  Updater.loop linux Globals.TESTING true false w fs.

(** A host whose bucket held the archive of two dots: the sync has
    emptied the data folder into which it was unpacked. *)
Definition synced_dots : Updater.FS :=
  {| Updater.s3_structure := Updater.Structure [plugin_dots];
     Updater.dirs := {[ data_dir ]};
     Updater.ready_lock := true |}.

(** *** The log of a failed build *)

Fixpoint repeated (n : nat) (line : string) : string :=
  match n with
  | O => ""
  | S n' => line ++ repeated n' line
  end.

(** A log of 10,040 characters: a headline, then 1,000 lines of ten
    characters. *)
Definition long_log : string :=
  "FAILURE: Build failed with an exception." ++ repeated 1000 ("> Task :a" ++ Compiler.nl).

(** *** The pipeline of the child and the disk *)

(** Every stage succeeds. *)
Definition stages_fine (s : Builder.stage) (w : unit) : unit * Async.outcome := (w, Async.Done).

(** Both file systems are full; the temporary directory holds two
    directories of the current user that the purge is looking for. *)
Definition full_disk : Builder.Disk :=
  {| Builder.root_check := Some {| Builder.available := 0; Builder.total := 100 * 1024 ^ 3 |};
     Builder.home_check := Some {| Builder.available := 0; Builder.total := 100 * 1024 ^ 3 |};
     Builder.readdirSync := fun _ => Js.Ret ["npm-1234"; "git-5678"; "systemd-private"];
     Builder.statSync := fun _ => Js.Ret {| Builder.isDirectory := true; Builder.stat_uid := 1000 |} |}.

Definition name40 : string := "0123456789012345678901234567890123456789".
Definition name41 : string := "01234567890123456789012345678901234567890".

(** *** Further runs *)

(** The launcher started from a console. *)
Definition from_console (data : ICompilation) : Launcher.program :=
  {| Launcher.env := Some "testing"; Launcher.json := Some data; Launcher.send := false |}.

Definition gradle_failed : BuilderError :=
  new_BuilderError "Gradle build failed" "Gradle build failed".

(** The build stage fails, the other stages succeed. *)
Definition build_fails (s : Builder.stage) (w : unit) : unit * Async.outcome :=
  match s with
  | Builder.Build => (w, Async.Failed gradle_failed)
  | _ => (w, Async.Done)
  end.

(** A service at work, registered from the address 10.0.0.7. *)
Definition busy : Service.state :=
  {| Service._working := true;
     Service._ipAddress := Some "10.0.0.7";
     Service._loopIntervalId := Service.Running;
     Service._stopIntervalId := Service.Null;
     Service._heartbeatIntervalId := Service.Running;
     Service.trace := [] |}.

Definition backend_up : Service.Backend :=
  {| Service.compilers_answer := Service.Status 200;
     Service.service_answer := Service.Status 201 |}.

Definition linux_lib : Updater.IS3ContentData :=
  entry "libs/cordova-8.0.0-linux.tar.bz2" "2018-07-15T08:00:00.000Z".

Definition readme : Updater.IS3ContentData :=
  entry "docs/README.md" "2018-07-01T08:00:00.000Z".

(** The bucket lists [contents], but no object can be fetched. *)
Definition unreachable_objects (contents : list Updater.IS3ContentData) : Updater.World :=
  {| Updater.ensure_data_dir := None;
     Updater.empty_sync_dir := None;
     Updater.listObjects := inr contents;
     Updater.getObject := fun _ => Updater.StreamError "socket hang up";
     Updater.writeFile := Updater.WriteOk |}.

(** A notification whose payload lost its code. *)
Definition without_code : Notifier.IMongoQueueMessage :=
  {| Notifier.id := "5b7d";
     Notifier.ack := "token";
     Notifier.payload :=
       {| n_platform := "android";
          n_code := None;
          n_starttime := 1534809600000;
          msg_internal := None;
          msg_public := None |};
     Notifier.tries := 1 |}.

End Scenario.

(** * Properties *)

(** Trying each element of a list of candidates in a proof. *)
Ltac try_each l k :=
  lazymatch l with
  | ?x :: ?rest => first [k x | try_each rest k]
  end.

(** ** The launcher of the build child *)

Section LauncherFacts.
Import Launcher.

(** C10.  A build child started over the IPC channel whose pipeline
    reaches its final callback exits with code 0, on success and on a
    structured error alike, after sending exactly one message: [null]
    or the error.  A non-zero exit code of such a child therefore
    comes from a missing launcher parameter or from a crash, never
    from a structured error. *)
Theorem C10_child_exits_zero_over_ipc
    (p : program) (start : ICompilation -> Builder.pipeline_result)
    (Hsend : send p = true) :
  (forall data r,
      env p <> None -> json p = Some data ->
      known_platform (platform_name (platform data)) = true ->
      start data = Builder.Finished r ->
      exit_code (launch p start) = 0 /\ sent (launch p start) = [terminal_message r]) /\
  (exit_code (launch p start) <> 0 ->
   env p = None \/ json p = None \/
   exists data, json p = Some data /\ start data = Builder.Crashed).
Proof.
  split.
  - intros data r Henv Hjson Hknown Hstart.
    unfold launch. destruct (env p) as [e|]; [|congruence].
    rewrite Hjson, Hknown. cbn. rewrite Hstart.
    destruct r as [err|]; cbn; rewrite Hsend; cbn; auto.
  - unfold launch, launcher_error. destruct (env p) as [e|]; [|auto].
    destruct (json p) as [data|]; [|auto].
    destruct (known_platform (platform_name (platform data))); cbn.
    + destruct (start data) as [[err|]|] eqn:Hstart; rewrite ?Hsend; cbn; try congruence.
      intros _. right. right. exists data. auto.
    + rewrite Hsend. cbn. congruence.
Qed.

(** An Android job whose pack stage fails: one error message, exit code 0. *)
Lemma C10_witness :
  (exit_code (launch (Scenario.over_ipc (Scenario.job "android" None))
                (fun _ => Builder.Finished (Some Scenario.pack_failed))) = 0 /\
   sent (launch (Scenario.over_ipc (Scenario.job "android" None))
           (fun _ => Builder.Finished (Some Scenario.pack_failed)))
   = [MsgError Scenario.pack_failed]).
Proof.
  apply (proj1 (C10_child_exits_zero_over_ipc
                  (Scenario.over_ipc (Scenario.job "android" None))
                  (fun _ => Builder.Finished (Some Scenario.pack_failed))
                  eq_refl)
           (Scenario.job "android" None) (Some Scenario.pack_failed));
    [discriminate | reflexivity | reflexivity | reflexivity].
Defined.

End LauncherFacts.

(** ** Strings, the matcher and the waterfall *)

Section StringFacts.

Lemma append_cons (a : ascii) (s t : string) : String a s ++ t = String a (s ++ t).
Proof. reflexivity. Qed.

Lemma append_nil_r (s : string) : s ++ "" = s.
Proof. induction s as [|a s IH]; [reflexivity | rewrite append_cons; f_equal; exact IH]. Qed.

Lemma append_assoc (a b c : string) : (a ++ b) ++ c = a ++ (b ++ c).
Proof. induction a as [|x a IH]; [reflexivity | rewrite !append_cons; f_equal; exact IH]. Qed.

Lemma length_drop (n : nat) (s : string) :
  String.length (Js.drop n s) = (String.length s - n)%nat.
Proof.
  revert s. induction n as [|n IH]; intros s.
  - cbn. lia.
  - destruct s as [|a s]; cbn; [reflexivity | apply IH].
Qed.

Lemma length_slice_last (n : nat) (s : string) :
  (String.length (Js.slice_last n s) <= n)%nat.
Proof. unfold Js.slice_last. rewrite length_drop. lia. Qed.

Lemma length_slice_last_min (n : nat) (s : string) :
  String.length (Js.slice_last n s) = Nat.min n (String.length s).
Proof. unfold Js.slice_last. rewrite length_drop. lia. Qed.

Lemma drop_is_suffix (n : nat) (s : string) : exists before, s = before ++ Js.drop n s.
Proof.
  revert s. induction n as [|n IH]; intros s.
  - exists "". reflexivity.
  - destruct s as [|a s]; cbn.
    + exists "". reflexivity.
    + destruct (IH s) as [before Hb]. exists (String a before).
      rewrite append_cons. f_equal. exact Hb.
Qed.

Lemma length_append (a b : string) :
  String.length (a ++ b) = (String.length a + String.length b)%nat.
Proof.
  induction a as [|x a IH]; [reflexivity|].
  rewrite append_cons. cbn [String.length]. now rewrite IH.
Qed.

End StringFacts.

Section RegexFacts.
Import Regex.

Lemma rest_of_refl (s : string) : rest_of s s.
Proof. exists "". reflexivity. Qed.

Lemma rest_of_trans (a b c : string) : rest_of a b -> rest_of b c -> rest_of a c.
Proof.
  intros [p Hp] [q Hq]. exists (q ++ p). subst. now rewrite append_assoc.
Qed.

Lemma rest_of_tail (a : ascii) (s : string) : rest_of s (String a s).
Proof. exists (String a ""). reflexivity. Qed.

Lemma plus_from_rest (p : ascii -> bool) (k : cont) (s : string) (c c' : captures) :
  plus_from p k s c = Some c' -> exists s', rest_of s' s /\ k s' c = Some c'.
Proof.
  revert c'. induction s as [|a s IH]; intros c' H; cbn in H; [discriminate|].
  destruct (p a); [|discriminate].
  destruct (plus_from p k s c) as [c1|] eqn:E.
  - destruct (IH c1 eq_refl) as (s' & Hs & Hk). exists s'. split.
    + eapply rest_of_trans; [exact Hs | apply rest_of_tail].
    + congruence.
  - exists s. split; [apply rest_of_tail | exact H].
Qed.

(** A successful run hands a rest of the input to its continuation. *)
Lemma run_rest (r : re) :
  forall (k : cont) (s : string) (c c' : captures),
    run r k s c = Some c' -> exists s' c0, rest_of s' s /\ k s' c0 = Some c'.
Proof.
  induction r as [p | r1 IH1 r2 IH2 | r1 IH1 r2 IH2 | r1 IH1 | p | i r1 IH1 | ];
    intros k s c c' H; cbn in H.
  - destruct s as [|a s]; [discriminate|]. destruct (p a); [|discriminate].
    exists s, c. split; [apply rest_of_tail | exact H].
  - destruct (IH1 _ _ _ _ H) as (s1 & c1 & Hs1 & H1).
    destruct (IH2 _ _ _ _ H1) as (s2 & c2 & Hs2 & H2).
    exists s2, c2. split; [eapply rest_of_trans; eassumption | exact H2].
  - destruct (run r1 k s c) as [c1|] eqn:E.
      destruct (IH1 _ _ _ _ E) as (s1 & c0 & Hs1 & H1). exists s1, c0. split; congruence.
    + exact (IH2 _ _ _ _ H).
  - destruct (run r1 k s c) as [c1|] eqn:E.
    + destruct (IH1 _ _ _ _ E) as (s1 & c0 & Hs1 & H1). exists s1, c0. split; congruence.
    + exists s, c. split; [apply rest_of_refl | exact H].
  - destruct (plus_from_rest _ _ _ _ _ H) as (s' & Hs & Hk). exists s', c. auto.
  - destruct (IH1 _ _ _ _ H) as (s1 & c0 & Hs1 & H1). cbn in H1.
    exists s1, ((i, consumed s s1) :: c0). auto.
  - destruct s; [|discriminate]. exists "", c. split; [apply rest_of_refl | exact H].
Qed.

(** A literal consumes exactly its text. *)
Lemma run_str (t : string) (tail : re) (k : cont) :
  forall (s : string) (c c' : captures),
    run (str t tail) k s c = Some c' ->
    exists s', s = t ++ s' /\ run tail k s' c = Some c'.
Proof.
  induction t as [|x t IH]; intros s c c' H.
  - exists s. auto.
  - cbn in H. destruct s as [|a s]; [discriminate|].
    unfold is_char in H. destruct (Ascii.eqb x a) eqn:E; [|discriminate].
    apply Ascii.eqb_eq in E. subst a.
    destruct (IH _ _ _ H) as (s' & Hs & Ht). exists s'.
    split; [rewrite append_cons; f_equal; exact Hs | exact Ht].
Qed.

Lemma exec_rest (r : re) (s : string) (c : captures) :
  exec r s = Some c -> exists s0, rest_of s0 s /\ run r accept s0 [] = Some c.
Proof.
  induction s as [|a s IH]; cbn; intros H.
  - destruct (run r accept "" []) as [c1|] eqn:E; [|discriminate].
    exists "". split; [apply rest_of_refl | congruence].
  - destruct (run r accept (String a s) []) as [c1|] eqn:E.
    + exists (String a s). split; [apply rest_of_refl | congruence].
    + destruct (IH H) as (s0 & Hs & Hr). exists s0. split; [|exact Hr].
      eapply rest_of_trans; [exact Hs | apply rest_of_tail].
Qed.

Lemma exec_here (r : re) (s : string) (c : captures) :
  run r accept s [] = Some c -> exec r s = Some c.
Proof. intros H. destruct s; cbn; now rewrite H. Qed.

(** The search finds a match that starts further right, if none
    starts before. *)
Lemma test_after (r : re) (x : string) (c : captures) :
  run r accept x [] = Some c -> forall before, test r (before ++ x) = true.
Proof.
  intros H before. unfold test. induction before as [|a before IH].
  - change ("" ++ x) with x. now rewrite (exec_here _ _ _ H).
  - rewrite append_cons. cbn [exec].
    destruct (run r accept (String a (before ++ x)) []); [reflexivity | exact IH].
Qed.

Lemma take_app (a b : string) : take (String.length a) (a ++ b) = a.
Proof.
  induction a as [|x a IH]; [destruct b; reflexivity|].
  rewrite append_cons. cbn [String.length take]. now rewrite IH.
Qed.

Lemma consumed_app (a b : string) : consumed (a ++ b) b = a.
Proof.
  unfold consumed. rewrite length_append.
  replace (String.length a + String.length b - String.length b)%nat with (String.length a) by lia.
  apply take_app.
Qed.

Lemma run_cat (r1 r2 : re) (k : cont) (s : string) (c : captures) :
  run (Cat r1 r2) k s c = run r1 (run r2 k) s c.
Proof. reflexivity. Qed.

Lemma run_group (i : nat) (r : re) (k : cont) (s : string) (c : captures) :
  run (Group i r) k s c = run r (fun s' c' => k s' ((i, consumed s s') :: c')) s c.
Proof. reflexivity. Qed.

Lemma run_plus (p : ascii -> bool) (k : cont) (s : string) (c : captures) :
  run (PlusC p) k s c = plus_from p k s c.
Proof. reflexivity. Qed.

Lemma plus_from_some (p : ascii -> bool) (k : cont) (s : string) (c c' : captures) :
  plus_from p k s c = Some c' ->
  exists pre s', pre <> "" /\ all_of p pre = true /\ s = pre ++ s' /\ k s' c = Some c'.
Proof.
  revert c'. induction s as [|a s IH]; intros c' H; cbn in H; [discriminate|].
  destruct (p a) eqn:Ha; [|discriminate].
  destruct (plus_from p k s c) as [c1|] eqn:E.
  - destruct (IH c1 eq_refl) as (pre & s' & Hne & Hall & Hs & Hk).
    exists (String a pre), s'. split; [discriminate|]. split; [cbn; now rewrite Ha|].
    split; [rewrite append_cons; now f_equal|congruence].
  - exists (String a ""), s. split; [discriminate|]. split; [cbn; now rewrite Ha|].
    split; [reflexivity|exact H].
Qed.

Lemma run_group_free (r : re) :
  group_free r = true ->
  forall (k : cont) (s : string) (c c' : captures),
    run r k s c = Some c' -> exists s', k s' c = Some c'.
Proof.
  induction r as [p | r1 IH1 r2 IH2 | r1 IH1 r2 IH2 | r1 IH1 | p | i r1 IH1 | ];
    intros Hg k s c c' H; cbn in Hg, H.
  - destruct s as [|a s]; [discriminate|]. destruct (p a); [|discriminate]. eauto.
  - apply andb_prop in Hg as [H1 H2].
    destruct (IH1 H1 _ _ _ _ H) as (s1 & Hs1). exact (IH2 H2 _ _ _ _ Hs1).
  - apply andb_prop in Hg as [H1 H2]. destruct (run r1 k s c) as [c1|] eqn:E.
    + injection H as <-. exact (IH1 H1 _ _ _ _ E).
    + exact (IH2 H2 _ _ _ _ H).
  - destruct (run r1 k s c) as [c1|] eqn:E.
    + injection H as <-. exact (IH1 Hg _ _ _ _ E).
    + eauto.
  - destruct (plus_from_rest _ _ _ _ _ H) as (s' & _ & Hk). eauto.
  - discriminate.
  - destruct s; [|discriminate]. eauto.
Qed.

End RegexFacts.

Section Language.
Import Regex.

Lemma run_consumes (r : re) :
  forall (k : cont) (s : string) (c c' : captures),
    run r k s c = Some c' -> exists s' c0, consumes r s s' /\ k s' c0 = Some c'.
Proof.
  induction r as [p | r1 IH1 r2 IH2 | r1 IH1 r2 IH2 | r1 IH1 | p | i r1 IH1 | ];
    intros k s c c' H; cbn [run] in H; cbn [consumes].
  - destruct s as [|a s]; [discriminate|]. destruct (p a) eqn:Ha; [|discriminate].
    exists s, c. split; [exists a; auto|exact H].
  - destruct (IH1 _ _ _ _ H) as (s1 & c1 & Hs1 & H1).
    destruct (IH2 _ _ _ _ H1) as (s2 & c2 & Hs2 & H2).
    exists s2, c2. split; [exists s1; auto|exact H2].
  - destruct (run r1 k s c) as [c1|] eqn:E.
    + injection H as <-. destruct (IH1 _ _ _ _ E) as (s1 & c0 & Hs1 & H1). eauto.
    + destruct (IH2 _ _ _ _ H) as (s1 & c0 & Hs1 & H1). eauto.
  - destruct (run r1 k s c) as [c1|] eqn:E.
    + injection H as <-. destruct (IH1 _ _ _ _ E) as (s1 & c0 & Hs1 & H1). eauto.
    + eauto.
  - apply plus_from_some in H as (v & s' & Hne & Hall & Hs & Hk). eauto 10.
  - destruct (IH1 _ _ _ _ H) as (s1 & c0 & Hs1 & H1). cbn beta in H1. eauto.
  - destruct s; [|discriminate]. eauto.
Qed.

(** What [test] accepts holds a text of the language. *)
Lemma test_consumes (r : re) (s : string) :
  test r s = true -> exists before s0 s', s = before ++ s0 /\ consumes r s0 s'.
Proof.
  unfold test. destruct (exec r s) as [c|] eqn:E; [intros _|discriminate].
  apply exec_rest in E as (s0 & [before Hs] & H).
  apply run_consumes in H as (s' & _ & H & _). eauto.
Qed.

Lemma consumes_str (t : string) (tail : re) (s s' : string) :
  consumes (str t tail) s s' -> exists m, s = t ++ m /\ consumes tail m s'.
Proof.
  revert s. induction t as [|x t IH]; intros s H; [exists s; auto|].
  change (str (String x t) tail) with (Cat (lit x) (str t tail)) in H.
  cbn [consumes lit] in H. destruct H as (m & (a & -> & Ha) & H).
  unfold is_char in Ha. apply Ascii.eqb_eq in Ha. subst a.
  destruct (IH _ H) as (m' & -> & H'). exists m'. auto.
Qed.

Lemma consumes_eps (s s' : string) : consumes eps s s' -> s' = s.
Proof. unfold eps. cbn [consumes]. intros [(a & _ & Ha)| ->]; [discriminate|reflexivity]. Qed.

End Language.

Section Folding.
Import Regex.

Lemma plus_from_complete (p : ascii -> bool) (k : cont) (v s' : string) (c : captures) :
  v <> "" -> all_of p v = true -> k s' c <> None -> plus_from p k (v ++ s') c <> None.
Proof.
  intros Hne Hall Hk. induction v as [|a v IHv]; [contradiction|].
  cbn [all_of] in Hall. apply andb_prop in Hall as [Ha Hv].
  rewrite append_cons. cbn [plus_from]. rewrite Ha.
  destruct v as [|b v].
  - change ("" ++ s') with s'. destruct (plus_from p k s' c); [discriminate|exact Hk].
  - specialize (IHv ltac:(discriminate) Hv).
    destruct (plus_from p k (String b v ++ s') c); [discriminate|contradiction].
Qed.

Lemma consumes_run (r : re) :
  forall (k : cont) (s s' : string),
    consumes r s s' -> (forall c, k s' c <> None) -> forall c, run r k s c <> None.
Proof.
  induction r as [p | r1 IH1 r2 IH2 | r1 IH1 r2 IH2 | r1 IH1 | p | i r1 IH1 | ];
    intros k s s' H Hk c; cbn [consumes] in H; cbn [run].
  - destruct H as (a & -> & Ha). rewrite Ha. apply Hk.
  - destruct H as (m & H1 & H2). apply (IH1 _ _ m H1). intros c1. apply (IH2 _ _ s' H2 Hk).
  - destruct (run r1 k s c) eqn:E; [discriminate|].
    destruct H as [H|H]; [exfalso; exact (IH1 _ _ _ H Hk c E)|exact (IH2 _ _ _ H Hk c)].
  - destruct (run r1 k s c) eqn:E; [discriminate|].
    destruct H as [H| ->]; [exfalso; exact (IH1 _ _ _ H Hk c E)|apply Hk].
  - destruct H as (v & Hne & Hall & ->). apply plus_from_complete; auto.
  - apply (IH1 _ _ s' H). intros c1. apply Hk.
  - destruct H as [-> ->]. apply Hk.
Qed.

Lemma folded_app (a b : string) : folded (a ++ b) = folded a ++ folded b.
Proof. induction a as [|x a IH]; [reflexivity|]. rewrite append_cons. cbn. now rewrite IH. Qed.

Lemma folded_split (a b s : string) :
  folded s = a ++ b -> exists s1 s2, s = s1 ++ s2 /\ folded s1 = a /\ folded s2 = b.
Proof.
  revert s. induction a as [|x a IH]; intros s H.
  - exists "", s. auto.
  - destruct s as [|y s]; [discriminate H|]. cbn in H. injection H as Hy H.
    destruct (IH _ H) as (s1 & s2 & -> & H1 & H2).
    exists (String y s1), s2. cbn. rewrite Hy, H1. auto.
Qed.

Lemma consumes_str_i (t : string) (tail : re) (s s' : string) :
  consumes (str_i t tail) s s' <->
  exists t' m, s = t' ++ m /\ folded t' = folded t /\ consumes tail m s'.
Proof.
  revert s. induction t as [|x t IH]; intros s.
  - change (str_i "" tail) with tail. split.
    + intros H. exists "", s. auto.
    + intros (t' & m & -> & Ht & H). destruct t'; [exact H|discriminate Ht].
  - change (str_i (String x t) tail) with (Cat (lit_i x) (str_i t tail)).
    cbn [consumes lit_i]. split.
    + intros (m & (a & -> & Ha) & H). apply IH in H as (t' & m' & -> & Ht & H).
      apply Ascii.eqb_eq in Ha.
      exists (String a t'), m'. cbn. rewrite Ht, Ha. auto.
    + intros (t' & m & -> & Ht & H). destruct t' as [|a t']; [discriminate Ht|].
      cbn in Ht. injection Ht as Ha Ht.
      exists (t' ++ m). split.
      * exists a. split; [reflexivity|]. rewrite Ha. apply Ascii.eqb_refl.
      * apply IH. exists t', m. auto.
Qed.

Lemma consumes_eps_iff (s s' : string) : consumes eps s s' <-> s' = s.
Proof.
  unfold eps. cbn [consumes]. split; [intros [(a & _ & Ha)| ->]; [discriminate|reflexivity]|].
  intros ->. right. reflexivity.
Qed.

End Folding.

Section WaterfallFacts.
Context {T W : Type}.
Variable exec : T -> W -> W * Async.outcome.

(** The invoked tasks are an initial part of the task list. *)
Lemma waterfall_prefix (tasks : list T) (w : W) :
  exists later, tasks = ((Async.waterfall exec tasks w).1.1 ++ later)%list.
Proof.
  revert w. induction tasks as [|t tasks IH]; intros w; cbn.
  - exists []. reflexivity.
  - destruct (exec t w) as [w' [|e|]].
    + destruct (IH w') as [later Hl].
      destruct (Async.waterfall exec tasks w') as [[tr w''] r]. cbn in *.
      exists later. now rewrite <- Hl.
    + exists tasks. reflexivity.
    + exists tasks. reflexivity.
Qed.

(** Without an error every task was invoked. *)
Lemma waterfall_done (tasks : list T) (w : W) :
  (Async.waterfall exec tasks w).2 = Async.Done -> (Async.waterfall exec tasks w).1.1 = tasks.
Proof.
  revert w. induction tasks as [|t tasks IH]; intros w; cbn.
  - reflexivity.
  - destruct (exec t w) as [w' [|e|]]; cbn; try discriminate.
    specialize (IH w').
    destruct (Async.waterfall exec tasks w') as [[tr w''] r]. cbn in *.
    intros H. now rewrite (IH H).
Qed.

End WaterfallFacts.

Lemma compiles_app (a b : list Builder.task) :
  Builder.compiles (a ++ b) = (Builder.compiles a ++ Builder.compiles b)%list.
Proof.
  induction a as [|t a IH]; cbn; [reflexivity|].
  destruct t; cbn; now rewrite ?IH.
Qed.

Lemma run_cat_rest (r1 r2 : Regex.re) (k : Regex.cont) (s : string) (c c' : Regex.captures) :
  Regex.run (Regex.Cat r1 r2) k s c = Some c' ->
  exists s' c0, Regex.rest_of s' s /\ Regex.run r2 k s' c0 = Some c'.
Proof. intros H. exact (run_rest r1 _ _ _ _ H). Qed.

(** ** The Android builder *)

Section AndroidFacts.
Import Builder AndroidBuilder.

(** What the filter of a signed job accepts ends in [-release.apk]. *)
Lemma release_apk_suffix (path : string) :
  Regex.test release_apk path = true -> exists before, path = before ++ "-release.apk".
Proof.
  unfold Regex.test. destruct (Regex.exec release_apk path) as [c|] eqn:E; [intros _|discriminate].
  destruct (exec_rest _ _ _ E) as (s0 & Hs0 & H0).
  unfold release_apk in H0.
  destruct (run_str _ _ _ _ _ _ H0) as (s1 & Hs1 & H1).
  destruct (run_cat_rest _ _ _ _ _ _ H1) as (s2 & c2 & Hs2 & H2).
  destruct (run_cat_rest _ _ _ _ _ _ H2) as (s3 & c3 & Hs3 & H3).
  destruct (run_str _ _ _ _ _ _ H3) as (s4 & Hs4 & H4).
  destruct s4; [|discriminate]. rewrite append_nil_r in Hs4. subst s3.
  assert (Hrest : Regex.rest_of "-release.apk" path).
  { eapply rest_of_trans; [exact Hs3|]. eapply rest_of_trans; [exact Hs2|].
    eapply rest_of_trans; [|exact Hs0]. exists "/". exact Hs1. }
  exact Hrest.
Qed.

(** The filter of an unsigned job accepts the debug and the
    release-unsigned APK, under both names cordova gives them. *)
Lemma unsigned_apks_accepted (dir name : string) :
  In name ["app-debug.apk"; "app-release-unsigned.apk";
           "android-debug.apk"; "android-release-unsigned.apk"] ->
  Regex.test debug_or_release_apk (dir ++ "/" ++ name) = true.
Proof.
  intros [<-|[<-|[<-|[<-|[]]]]]; eapply test_after; vm_compute; reflexivity.
Qed.

Lemma release_apk_names (path : string) :
  Regex.test release_apk path = true <->
  exists dir base arch,
    path = dir ++ "/" ++ base ++ arch ++ "-release.apk" /\
    In base ["android"; "app"] /\ In arch [""; "-armv7"; "-x86"].
Proof.
  split.
  - intros H. apply test_consumes in H as (before & s0 & s' & -> & H).
    unfold release_apk in H.
    apply consumes_str in H as (m1 & -> & H). cbn [Regex.consumes] in H.
    destruct H as (m2 & Hbase & m3 & Harch & Hend).
    apply consumes_str in Hend as (m4 & -> & Hend). cbn [Regex.consumes] in Hend.
    destruct Hend as [-> ->].
    destruct Hbase as [Hb|Hb]; apply consumes_str in Hb as (x & -> & Hb);
      apply consumes_eps in Hb; subst;
      (destruct Harch as [[Ha|Ha]|Ha];
       [apply consumes_str in Ha as (y & Hy & Ha); apply consumes_eps in Ha; subst..
       |subst]);
      try_each ["android"; "app"] ltac:(fun base =>
        try_each [""; "-armv7"; "-x86"] ltac:(fun arch =>
          exists before, base, arch; split; [reflexivity|cbn; auto 10])).
  - intros (dir & base & arch & -> & Hbase & Harch).
    cbn [In] in Hbase, Harch.
    destruct Hbase as [<-|[<-|[]]]; destruct Harch as [<-|[<-|[<-|[]]]];
      eapply test_after; vm_compute; reflexivity.
Qed.

Lemma debug_or_release_apk_names (path : string) :
  Regex.test debug_or_release_apk path = true <->
  exists dir base arch kind unsigned,
    path = dir ++ "/" ++ base ++ arch ++ "-" ++ kind ++ unsigned ++ ".apk" /\
    In base ["android"; "app"] /\ In arch [""; "-armv7"; "-x86"] /\
    In kind ["debug"; "release"] /\ In unsigned [""; "-unsigned"].
Proof.
  split.
  - intros H. apply test_consumes in H as (before & s0 & s' & -> & H).
    unfold debug_or_release_apk in H.
    apply consumes_str in H as (m1 & -> & H). cbn [Regex.consumes] in H.
    destruct H as (m2 & Hbase & m3 & Harch & Hrest).
    apply consumes_str in Hrest as (m4 & -> & Hrest). cbn [Regex.consumes] in Hrest.
    destruct Hrest as (m5 & Hkind & m6 & Huns & Hend).
    apply consumes_str in Hend as (m7 & -> & Hend). cbn [Regex.consumes] in Hend.
    destruct Hend as [-> ->].
    destruct Hbase as [Hb|Hb]; apply consumes_str in Hb as (x & -> & Hb);
      apply consumes_eps in Hb; subst;
      (destruct Harch as [[Ha|Ha]|Ha];
       [apply consumes_str in Ha as (y & Hy & Ha); apply consumes_eps in Ha; subst..
       |subst]);
      (destruct Hkind as [Hk|Hk]; apply consumes_str in Hk as (z & Hz & Hk);
       apply consumes_eps in Hk; subst);
      (destruct Huns as [Hu|Hu];
       [apply consumes_str in Hu as (u & Hu' & Hu); apply consumes_eps in Hu; subst
       |subst]);
      try_each ["android"; "app"] ltac:(fun base =>
        try_each [""; "-armv7"; "-x86"] ltac:(fun arch =>
          try_each ["debug"; "release"] ltac:(fun kind =>
            try_each [""; "-unsigned"] ltac:(fun uns =>
              exists before, base, arch, kind, uns; split; [reflexivity|cbn; auto 10])))).
  - intros (dir & base & arch & kind & uns & -> & Hbase & Harch & Hkind & Huns).
    cbn [In] in Hbase, Harch, Hkind, Huns.
    destruct Hbase as [<-|[<-|[]]]; destruct Harch as [<-|[<-|[<-|[]]]];
      destruct Hkind as [<-|[<-|[]]]; destruct Huns as [<-|[<-|[]]];
      eapply test_after; vm_compute; reflexivity.
Qed.

End AndroidFacts.

Section AndroidBuild.
Import Builder AndroidBuilder.
Context {W : Type}.
Variable host : Globals.Host.
Variable env : Globals.CocoonEnvironment.
Variable data : ICompilation.
Variable tool : task -> W -> W * option string.
Variable accept_licenses : W -> W * bool.

Lemma build_prefix (w : W) :
  exists later,
    build_tasks host env data
    = ((build host env data tool accept_licenses w).1.1 ++ later)%list.
Proof.
  unfold build. destruct (accept_licenses w) as [w' [|]].
  - apply waterfall_prefix.
  - exists (build_tasks host env data). reflexivity.
Qed.

Lemma build_compiles_prefix (w : W) :
  exists later,
    compiles (build_tasks host env data)
    = (compiles (build host env data tool accept_licenses w).1.1 ++ later)%list.
Proof.
  destruct (build_prefix w) as [later Hl].
  exists (compiles later). rewrite Hl at 1. apply compiles_app.
Qed.

Lemma build_done_all (w : W) :
  (build host env data tool accept_licenses w).2 = Async.Done ->
  (build host env data tool accept_licenses w).1.1 = build_tasks host env data.
Proof.
  unfold build. destruct (accept_licenses w) as [w' [|]].
  - apply waterfall_done.
  - discriminate.
Qed.


End AndroidBuild.



(** ** The Windows builder *)

Section WindowsFacts.
Import Builder WindowsBuilder.
Context {W : Type}.
Variable host : Globals.Host.
Variable env : Globals.CocoonEnvironment.
Variable data : ICompilation.
Variable tool : task -> W -> W * option string.

(** C7.  The check of the project name does not do what the claim
    says.  For every name, of 41 characters, of 40 or of any other
    length, the build stage of the Windows builder throws at the check
    itself: the callback never gets the error with the public message
    about names longer than 40 characters, and no task of the stage,
    so no native build, is invoked. *)
Theorem C7_windows_name_check_throws (name : string) (w : W) :
  build host env data tool name w = ([], w, Async.Thrown) /\
  (build host env data tool name w).2 <> Async.Failed name_too_long /\
  (build host env data tool name w).2 <> Async.Done /\
  compiles (build host env data tool name w).1.1 = [] /\
  msgPublic name_too_long
  = Some "Windows compilations can't have names longer than 40 characters. Choose a shorter name.".
Proof.
  unfold build, name_length. cbn. repeat split; discriminate.
Qed.

End WindowsFacts.

(** C7 at the two names of the claim: a project name of 40 characters
    and one of 41 end the build stage in the same way, with the
    exception of the check. *)
Lemma C7_forty_and_forty_one_characters :
  Z.of_nat (String.length Scenario.name40) = 40 /\
  Z.of_nat (String.length Scenario.name41) = 41 /\
  WindowsBuilder.build Scenario.linux Globals.TESTING (Scenario.job "windows" None)
    Scenario.all_fine Scenario.name40 tt
  = ([], tt, Async.Thrown) /\
  WindowsBuilder.build Scenario.linux Globals.TESTING (Scenario.job "windows" None)
    Scenario.all_fine Scenario.name41 tt
  = ([], tt, Async.Thrown).
Proof. vm_compute. repeat split. Qed.

(** ** The Notifier *)

Section NotifierFacts.
Import Notifier.
Variable host : Globals.Host.
Variable env : Globals.CocoonEnvironment.
Variable envToHost : Globals.CocoonEnvironment -> string.

Lemma env_eqb_develop : Globals.env_eqb env Globals.DEVELOP = true <-> env = Globals.DEVELOP.
Proof. destruct env; cbn; split; congruence. Qed.

Lemma clean_outside_develop (n : INotificationData) :
  env <> Globals.DEVELOP -> clean host env n = [RemoveSync (workspace host env n)].
Proof.
  intros H. unfold clean. destruct (Globals.env_eqb env Globals.DEVELOP) eqn:E.
  - apply env_eqb_develop in E. contradiction.
  - reflexivity.
Qed.

Lemma clean_never_posts_or_acks (n : INotificationData) :
  posted (clean host env n) = false /\ acked (clean host env n) = false.
Proof. unfold clean. destruct (negb _); split; reflexivity. Qed.

(** C4, as the code has it.  A dequeued message with more than 20 tries
    is acked without any POST of the result; when that ack succeeds the
    workspace of the job is cleaned next (the directory removed outside
    DEVELOP); when the ack fails nothing else is done and the workspace
    stays. *)
Theorem C4_discard_after_max_retries (w : World) (msg : IMongoQueueMessage) :
  get w = GetMessage (Some msg) ->
  MAX_RETRIES_NUMBER < tries msg ->
  posted (loop host env envToHost false w) = false /\
  (ack_error w = None ->
   loop host env envToHost false w
   = ([Working true; QueueGet; QueueAck (ack msg); Working false]
        ++ clean host env (payload msg))%list /\
   (env <> Globals.DEVELOP ->
    clean host env (payload msg) = [RemoveSync (workspace host env (payload msg))]) /\
   (env = Globals.DEVELOP -> clean host env (payload msg) = [])) /\
  (ack_error w <> None ->
   loop host env envToHost false w
   = [Working true; QueueGet; QueueAck (ack msg); Working false]).
Proof.
  intros Hget Htries. unfold loop. rewrite Hget.
  replace (MAX_RETRIES_NUMBER <? tries msg) with true by (symmetry; apply Z.ltb_lt; exact Htries).
  split; [|split].
  - destruct (ack_error w); [reflexivity|].
    cbn. apply clean_never_posts_or_acks.
  - intros Hack. rewrite Hack. split; [reflexivity|]. split.
    + apply clean_outside_develop.
    + intros ->. reflexivity.
  - intros Hack. destruct (ack_error w); [reflexivity | congruence].
Qed.

(** C5, as the code has it.  For a dequeued notification with at most 20
    tries and a non-empty code: outside DEVELOP the result is POSTed,
    the ack is issued exactly when the POST completes with a status code
    in [[200, 400)], and the workspace directory of the job, the folder
    [code_starttime] of the projects folder, is removed exactly when
    moreover that ack succeeds; no other directory is ever removed, and
    after a transport error or any other status there is neither ack
    nor removal.  In DEVELOP nothing is POSTed, the message is acked
    all the same and nothing is removed. *)
Theorem C5_ack_and_clean_after_post (w : World) (msg : IMongoQueueMessage) :
  get w = GetMessage (Some msg) ->
  tries msg <= MAX_RETRIES_NUMBER ->
  Js.truthy (n_code (payload msg)) = true ->
  (env <> Globals.DEVELOP ->
   posted (loop host env envToHost false w) = true /\
   (acked (loop host env envToHost false w) = true <-> post_ok w = true) /\
   (removed (loop host env envToHost false w) = true <->
    post_ok w = true /\ ack_error w = None) /\
   (In (RemoveSync (Path.join [Globals.PROJECTS_PATH host env;
                               Js.show (n_code (payload msg)) ++ "_"
                               ++ pretty (n_starttime (payload msg))]))
       (loop host env envToHost false w) <->
    post_ok w = true /\ ack_error w = None) /\
   (post_ok w = true -> ack_error w = None ->
    loop host env envToHost false w
    = [Working true; QueueGet; QueuePing (ack msg); Post (url env envToHost (payload msg));
       QueueAck (ack msg); Working false; QueueClean;
       RemoveSync (Path.join [Globals.PROJECTS_PATH host env;
                              Js.show (n_code (payload msg)) ++ "_"
                              ++ pretty (n_starttime (payload msg))])]) /\
   (post_ok w = true -> ack_error w <> None ->
    loop host env envToHost false w
    = [Working true; QueueGet; QueuePing (ack msg); Post (url env envToHost (payload msg));
       QueueAck (ack msg); Working false]) /\
   (post_ok w = false ->
    loop host env envToHost false w
    = [Working true; QueueGet; QueuePing (ack msg); Post (url env envToHost (payload msg));
       Working false])) /\
  (env = Globals.DEVELOP ->
   posted (loop host env envToHost false w) = false /\
   acked (loop host env envToHost false w) = true /\
   removed (loop host env envToHost false w) = false /\
   loop host env envToHost false w
   = ([Working true; QueueGet; QueuePing (ack msg); QueueAck (ack msg); Working false]
      ++ match ack_error w with
         | Some _ => []
         | None => [QueueClean]
         end)%list) /\
  (forall path,
      In (RemoveSync path) (loop host env envToHost false w) ->
      path = Path.join [Globals.PROJECTS_PATH host env;
                        Js.show (n_code (payload msg)) ++ "_"
                        ++ pretty (n_starttime (payload msg))]).
Proof.
  intros Hget Htries Hcode. unfold loop. rewrite Hget.
  replace (MAX_RETRIES_NUMBER <? tries msg) with false by (symmetry; apply Z.ltb_ge; exact Htries).
  rewrite Hcode. cbn [negb]. unfold send, post_ok, clean, workspace.
  set (ws := Path.join _).
  split; [|split].
  - intros Hdev.
    destruct (Globals.env_eqb env Globals.DEVELOP) eqn:E;
      [apply env_eqb_develop in E; contradiction|].
    cbn [negb].
    destruct (post w) as [text | statusCode description];
      [|destruct ((200 <=? statusCode) && (statusCode <? 400)); [destruct (ack_error w) as [e|]|]];
      cbn [app];
      repeat match goal with |- _ /\ _ => split end;
      try reflexivity;
      try (intros; first [reflexivity | discriminate | congruence]);
      try (split; [discriminate | intros [? ?]; discriminate]);
      try (split; [intros H; repeat (destruct H as [H|H]; [discriminate H|]); contradiction
                  | intros [? ?]; discriminate]);
      try (split; [intros _; split; reflexivity | intros _; first [reflexivity | cbn; auto 10]]).
  - intros ->. cbn. destruct (ack_error w); cbn; auto.
  - intros path.
    destruct (Globals.env_eqb env Globals.DEVELOP); cbn [negb app];
      [|destruct (post w) as [text | statusCode description];
        [|destruct ((200 <=? statusCode) && (statusCode <? 400))]];
      destruct (ack_error w); cbn [In app];
      intros H; repeat (destruct H as [H|H]; [try discriminate H|]); try contradiction;
      injection H as <-; reflexivity.
Qed.

End NotifierFacts.

(** A message on its 21st try is not POSTed. *)
Lemma C4_witness :
  Notifier.posted
    (Notifier.loop Scenario.linux Globals.TESTING Scenario.envToHost false
       (Scenario.notifier_world 21 200 None)) = false.
Proof.
  apply (proj1 (C4_discard_after_max_retries Scenario.linux Globals.TESTING Scenario.envToHost
                  (Scenario.notifier_world 21 200 None) (Scenario.message 21)
                  eq_refl eq_refl)).
Defined.

(** C4 as stated fails: with 21 tries and an ack that the queue answers
    with an error, the workspace is not cleaned. *)
Lemma C4_failed_ack_leaves_workspace :
  Notifier.MAX_RETRIES_NUMBER < Notifier.tries (Scenario.message 21) /\
  Notifier.loop Scenario.linux Globals.TESTING Scenario.envToHost false
    (Scenario.notifier_world 21 200 (Some "connection closed"))
  = [Notifier.Working true; Notifier.QueueGet; Notifier.QueueAck "token"; Notifier.Working false] /\
  Notifier.removed
    (Notifier.loop Scenario.linux Globals.TESTING Scenario.envToHost false
       (Scenario.notifier_world 21 200 (Some "connection closed"))) = false.
Proof. vm_compute. repeat split. Qed.

(** A message on its third try, in TESTING, with a backend that answers
    200. *)
Lemma C5_witness :
  Notifier.loop Scenario.linux Globals.TESTING Scenario.envToHost false
    (Scenario.notifier_world 3 200 None)
  = [Notifier.Working true; Notifier.QueueGet; Notifier.QueuePing "token";
     Notifier.Post "https://admin-testing.cocoon.io/api/v1/compilation/A1";
     Notifier.QueueAck "token"; Notifier.Working false; Notifier.QueueClean;
     Notifier.RemoveSync
       "/home/cocoon/opt/cocoon_compiler/workspace/testing/projects/A1_1534809600000"].
Proof.
  apply (proj1 (proj2 (proj2 (proj2 (proj2
          (proj1 (C5_ack_and_clean_after_post Scenario.linux Globals.TESTING Scenario.envToHost
                    (Scenario.notifier_world 3 200 None) (Scenario.message 3)
                    eq_refl ltac:(vm_compute; discriminate) eq_refl)
             ltac:(discriminate))))))
           eq_refl eq_refl).
Defined.

(** C5 as stated fails twice: in DEVELOP the message is acked although
    nothing was POSTed, and outside DEVELOP a POST answered with 200
    followed by a failing ack leaves the workspace in place. *)
Lemma C5_ack_not_tied_to_post :
  ~ Notifier.acked_and_cleaned_iff_post_ok Globals.DEVELOP
      (Scenario.notifier_world 3 200 None)
      (Notifier.loop Scenario.linux Globals.DEVELOP Scenario.envToHost false
         (Scenario.notifier_world 3 200 None)) /\
  ~ Notifier.acked_and_cleaned_iff_post_ok Globals.TESTING
      (Scenario.notifier_world 3 200 (Some "connection closed"))
      (Notifier.loop Scenario.linux Globals.TESTING Scenario.envToHost false
         (Scenario.notifier_world 3 200 (Some "connection closed"))).
Proof.
  split; unfold Notifier.acked_and_cleaned_iff_post_ok; vm_compute.
  - intros [H _]. destruct (H (conj eq_refl (fun Hx => False_ind _ (Hx eq_refl)))) as [Hp _].
    discriminate.
  - intros [_ H]. destruct (H (conj eq_refl eq_refl)) as [_ Hr].
    assert (Hf : false = true) by (apply Hr; discriminate). discriminate.
Qed.

(** ** The Builder service: the once-latch and the watchdog *)

Section CompilerFacts.
Import Compiler.
Variable redact : string -> string.
Variable cordova_log : option string.

Lemma kills_append (s : state) (l : list effect) (c : bool) (t : option Z)
    (r : option (option BuilderError)) (o : string) :
  kills {| cbCalled := c; watchdogTimer := t; resolved := r; stdout_log := o;
           effects := (effects s ++ l)%list |}
  = (kills s + List.length (List.filter is_kill l))%nat.
Proof. unfold kills. cbn. rewrite List.filter_app, List.length_app. reflexivity. Qed.

Lemma kills_finishBuild (error : option BuilderError) (s : state) :
  kills (finishBuild error s) = kills s.
Proof. unfold finishBuild. rewrite kills_append. cbn. lia. Qed.

Lemma kills_write (text : string) (s : state) : kills (write text s) = kills s.
Proof. unfold write. rewrite kills_append. cbn. lia. Qed.

Lemma kills_kill (signal : string) (s : state) : kills (kill signal s) = S (kills s).
Proof. unfold kill. rewrite kills_append. cbn. lia. Qed.

Lemma kills_handle (e : event) (s : state) : kills (handle redact cordova_log e s) = kills s.
Proof.
  destruct e as [b | b | [err|] | [[|c|c]|] sig | err];
    unfold handle, on_message, on_exit; cbv beta iota;
    rewrite ?kills_finishBuild, ?kills_write; reflexivity.
Qed.

(** A handler never arms the timer. *)
Lemma timer_handle (e : event) (s : state) :
  watchdogTimer (handle redact cordova_log e s) = None \/
  watchdogTimer (handle redact cordova_log e s) = watchdogTimer s.
Proof.
  destruct e as [b | b | [err|] | [[|c|c]|] sig | err]; cbn; auto.
Qed.

(** Once [cb] was called, no event changes what it was called with. *)
Lemma latched_handle (e : event) (s : state) :
  cbCalled s = true ->
  cbCalled (handle redact cordova_log e s) = true /\
  resolved (handle redact cordova_log e s) = resolved s.
Proof.
  intros H.
  destruct e as [b | b | [err|] | [[|c|c]|] sig | err]; cbn; rewrite ?H; auto.
Qed.

Lemma fire_all_cleared (periods : nat) (t : Z) (s : state) :
  watchdogTimer s = None -> fire_all periods t s = s.
Proof. intros H. destruct periods; cbn; [reflexivity | now rewrite H]. Qed.

(** [finishBuild] clears the interval, so it fires once at most each
    time the timers are looked at. *)
Lemma fire_due_eq (t : Z) (s : state) :
  fire_due t s
  = match watchdogTimer s with
    | Some due => if due <=? t then watchdog_fire due s else s
    | None => s
    end.
Proof.
  unfold fire_due. destruct (watchdogTimer s) as [due|] eqn:E; [|reflexivity].
  rewrite Nat.add_1_r. cbn [fire_all]. rewrite E.
  destruct (due <=? t); [|reflexivity].
  apply fire_all_cleared. reflexivity.
Qed.

Lemma latched_fire_due (t : Z) (s : state) :
  cbCalled s = true ->
  cbCalled (fire_due t s) = true /\ resolved (fire_due t s) = resolved s.
Proof.
  intros H. rewrite fire_due_eq. destruct (watchdogTimer s) as [due|]; [|auto].
  destruct (due <=? t); [|auto]. cbn. rewrite H. auto.
Qed.

Lemma latched_run (evs : list (Z * event)) (s : state) :
  cbCalled s = true ->
  cbCalled (run redact cordova_log evs s) = true /\
  resolved (run redact cordova_log evs s) = resolved s.
Proof.
  revert s. induction evs as [|[t e] evs IH]; intros s H; [auto|].
  cbn [run].
  destruct (latched_fire_due t s H) as [H1 R1].
  destruct (latched_handle e _ H1) as [H2 R2].
  destruct (IH _ H2) as [H3 R3]. split; [exact H3 | congruence].
Qed.

Lemma at_most_once_fire_due (t : Z) (s : state) :
  at_most_once s -> at_most_once (fire_due t s).
Proof.
  intros [Hle Harmed]. rewrite fire_due_eq.
  destruct (watchdogTimer s) as [due|] eqn:E.
  - destruct (due <=? t).
    + unfold watchdog_fire. split.
      * rewrite kills_finishBuild, kills_kill. unfold reschedule, kills. cbn.
        fold (kills s). rewrite Harmed; [lia | discriminate].
      * cbn. congruence.
    + split; [exact Hle | intros _; apply Harmed; discriminate].
  - split; [exact Hle | intros Hx; congruence].
Qed.

Lemma at_most_once_handle (e : event) (s : state) :
  at_most_once s -> at_most_once (handle redact cordova_log e s).
Proof.
  intros [Hle Harmed]. split; rewrite kills_handle; [exact Hle|].
  intros Hnn. apply Harmed. destruct (timer_handle e s) as [Hn | Heq]; congruence.
Qed.

Lemma at_most_once_run (evs : list (Z * event)) (s : state) :
  at_most_once s -> at_most_once (run redact cordova_log evs s).
Proof.
  revert s. induction evs as [|[t e] evs IH]; intros s H; [exact H|].
  cbn [run]. apply IH, at_most_once_handle, at_most_once_fire_due, H.
Qed.

Lemma at_most_once_build (evs : list (Z * event)) (now : Z) :
  (kills (build redact cordova_log evs now) <= 1)%nat.
Proof.
  unfold build. apply at_most_once_fire_due, at_most_once_run.
  split; [cbn; lia | reflexivity].
Qed.

Lemma effects_handle (e : event) (s : state) (x : effect) :
  In x (effects s) -> In x (effects (handle redact cordova_log e s)).
Proof.
  intros H.
  destruct e as [b | b | [err|] | [[|c|c]|] sig | err]; cbn;
    repeat (apply in_or_app; left); exact H.
Qed.

Lemma timed_out_handle (e : event) (s : state) :
  timed_out s -> timed_out (handle redact cordova_log e s).
Proof.
  intros (Hc & Ht & Hr & Hk & Hin).
  destruct (latched_handle e s Hc) as [Hc' Hr'].
  repeat split.
  - exact Hc'.
  - destruct (timer_handle e s) as [Hn | Heq]; congruence.
  - congruence.
  - rewrite kills_handle. exact Hk.
  - apply effects_handle, Hin.
Qed.

Lemma timed_out_fire_due (t : Z) (s : state) : timed_out s -> fire_due t s = s.
Proof. intros (_ & Ht & _). rewrite fire_due_eq. now rewrite Ht. Qed.

Lemma waiting_fire (s : state) :
  waiting s -> timed_out (watchdog_fire COMPILER_WATCHDOG_INTERVAL s).
Proof.
  intros (Hc & Ht & Hr & Hk). unfold watchdog_fire. repeat split.
  - cbn. rewrite Hc. reflexivity.
  - rewrite kills_finishBuild, kills_kill. unfold reschedule, kills. cbn.
    fold (kills s). now rewrite Hk.
  - cbn. apply in_or_app. left. apply in_or_app. right. left. reflexivity.
Qed.

(** An event that is not terminal leaves a waiting build waiting. *)
Lemma waiting_handle (e : event) (s : state) :
  terminal e = false -> waiting s -> waiting (handle redact cordova_log e s).
Proof.
  intros He (Hc & Ht & Hr & Hk).
  destruct e as [b | b | m | c sig | err]; try discriminate;
    (repeat split; [exact Hc | exact Ht | exact Hr | rewrite kills_handle; exact Hk]).
Qed.

(** While no terminal event arrives up to the deadline, the build waits
    or has been ended by the watchdog. *)
Lemma run_without_terminal (evs : list (Z * event)) (s : state) :
  Forall (fun te => terminal te.2 = true -> COMPILER_WATCHDOG_INTERVAL < te.1) evs ->
  waiting s \/ timed_out s ->
  waiting (run redact cordova_log evs s) \/ timed_out (run redact cordova_log evs s).
Proof.
  revert s. induction evs as [|[t e] evs IH]; intros s Hall Hs; [exact Hs|].
  inversion Hall as [|x l Hte Hrest]; subst. cbn in Hte. cbn [run].
  apply IH; [exact Hrest|].
  destruct Hs as [Hw | Hf].
  - rewrite fire_due_eq. destruct Hw as (Hc & Ht & Hr & Hk). rewrite Ht.
    destruct (COMPILER_WATCHDOG_INTERVAL <=? t) eqn:E.
    + right. apply timed_out_handle, waiting_fire. repeat split; assumption.
    + left. apply waiting_handle; [|repeat split; assumption].
      destruct (terminal e); [|reflexivity].
      apply Z.leb_gt in E. specialize (Hte eq_refl). lia.
  - right. rewrite (timed_out_fire_due t s Hf). apply timed_out_handle, Hf.
Qed.

Lemma spawned_waiting : waiting spawned.
Proof. repeat split. Qed.

Lemma build_times_out (evs : list (Z * event)) (now : Z) :
  Forall (fun te => terminal te.2 = true -> COMPILER_WATCHDOG_INTERVAL < te.1) evs ->
  COMPILER_WATCHDOG_INTERVAL <= now ->
  timed_out (build redact cordova_log evs now).
Proof.
  intros Hall Hnow. unfold build.
  destruct (run_without_terminal evs spawned Hall (or_introl spawned_waiting)) as [Hw | Hf].
  - rewrite fire_due_eq. destruct Hw as (Hc & Ht & Hr & Hk). rewrite Ht.
    replace (COMPILER_WATCHDOG_INTERVAL <=? now) with true by (symmetry; apply Z.leb_le; exact Hnow).
    apply waiting_fire. repeat split; assumption.
  - rewrite (timed_out_fire_due now _ Hf). exact Hf.
Qed.

(** C2.  A spawned child (the fork raised no process error) that has
    sent no IPC message and has not exited up to 2,700,000 ms after the
    fork is killed with SIGKILL when the watchdog fires; the build is resolved
    with the error of the claim, whose two texts become the internal
    and the public message of the notification of the job, which the
    service enqueues; and whatever the child does, the watchdog kills at
    most once. *)
Theorem C2_watchdog_kills_and_resolves
    (evs : list (Z * event)) (now : Z) (data : ICompilation) :
  Forall (fun te => terminal te.2 = true -> COMPILER_WATCHDOG_INTERVAL < te.1) evs ->
  COMPILER_WATCHDOG_INTERVAL <= now ->
  COMPILER_WATCHDOG_INTERVAL = 2700000 /\
  In (Kill "SIGKILL") (effects (build redact cordova_log evs now)) /\
  kills (build redact cordova_log evs now) = 1%nat /\
  resolved (build redact cordova_log evs now)
  = Some (Some {| message := Some "Compilation took too long, killing...";
                  msgPublic := Some "The compilation exceed the designated time." |}) /\
  (forall err, resolved (build redact cordova_log evs now) = Some err ->
     notification err data
     = {| n_platform := platform_name (platform data);
          n_code := Some (code data);
          n_starttime := starttime data;
          msg_internal := Some "Compilation took too long, killing...";
          msg_public := Some "The compilation exceed the designated time." |} /\
     finish_loop true err (Some data) = [Notify (notification err data); Working false]) /\
  (forall evs' now', (kills (build redact cordova_log evs' now') <= 1)%nat).
Proof.
  intros Hall Hnow.
  destruct (build_times_out evs now Hall Hnow) as (Hc & Ht & Hr & Hk & Hin).
  split; [reflexivity|]. split; [exact Hin|]. split; [exact Hk|]. split; [exact Hr|].
  split.
  - intros err Herr. rewrite Hr in Herr. injection Herr as <-. split; reflexivity.
  - intros evs' now'. apply at_most_once_build.
Qed.

End CompilerFacts.

(** A child that only prints for 45 minutes. *)
Lemma C2_witness :
  Compiler.kills
    (Compiler.build (fun s => s) None [(1000, Compiler.StdoutData "building")] 2700000) = 1%nat.
Proof.
  apply (C2_watchdog_kills_and_resolves (fun s => s) None
           [(1000, Compiler.StdoutData "building")] 2700000 (Scenario.job "android" None)).
  - repeat constructor. cbn. discriminate.
  - vm_compute. discriminate.
Defined.

Section CompilerLog.
Import Compiler.
Variable redact : string -> string.
Variable cordova_log : option string.

Lemma run_app (a b : list (Z * event)) (s : state) :
  run redact cordova_log (a ++ b) s = run redact cordova_log b (run redact cordova_log a s).
Proof.
  revert s. induction a as [|[t e] a IH]; intros s; [reflexivity|].
  cbn [run app]. change ((t, e) :: a ++ b)%list with (((t, e) :: a) ++ b)%list.
  cbn [run app]. apply IH.
Qed.

Lemma waiting_fire_due_early (t : Z) (s : state) :
  t < COMPILER_WATCHDOG_INTERVAL -> waiting s -> fire_due t s = s.
Proof.
  intros Ht (_ & Hw & _). rewrite fire_due_eq. rewrite Hw.
  replace (COMPILER_WATCHDOG_INTERVAL <=? t) with false by (symmetry; apply Z.leb_gt; exact Ht).
  reflexivity.
Qed.

(** Output before the deadline leaves the build waiting. *)
Lemma run_quiet (evs : list (Z * event)) (s : state) :
  Forall (fun te => terminal te.2 = false /\ te.1 < COMPILER_WATCHDOG_INTERVAL) evs ->
  waiting s -> waiting (run redact cordova_log evs s).
Proof.
  revert s. induction evs as [|[t e] evs IH]; intros s Hall Hs; [exact Hs|].
  inversion Hall as [|x l [He Ht] Hrest]; subst. cbn in He, Ht. cbn [run].
  apply IH; [exact Hrest|]. rewrite (waiting_fire_due_early t s Ht Hs).
  apply waiting_handle; assumption.
Qed.

(** The first terminal event before the deadline decides the build:
    what its handler resolves is what the build stays resolved with. *)
Lemma first_terminal_event_decides
    (pre post : list (Z * event)) (t : Z) (e : event) (now : Z) :
  Forall (fun te => terminal te.2 = false /\ te.1 < COMPILER_WATCHDOG_INTERVAL) pre ->
  t < COMPILER_WATCHDOG_INTERVAL ->
  terminal e = true ->
  exists s1,
    waiting s1 /\
    resolved (build redact cordova_log (pre ++ (t, e) :: post) now)
    = resolved (handle redact cordova_log e s1).
Proof.
  intros Hpre Ht He.
  pose proof (run_quiet pre spawned Hpre spawned_waiting) as Hw.
  exists (run redact cordova_log pre spawned). split; [exact Hw|].
  unfold build. rewrite run_app. cbn [run].
  rewrite (waiting_fire_due_early t _ Ht Hw).
  assert (Hc : cbCalled (handle redact cordova_log e (run redact cordova_log pre spawned)) = true).
  { destruct e as [b | b | [err|] | [[|c|c]|] sig | err]; try discriminate; reflexivity. }
  destruct (latched_run redact cordova_log post _ Hc) as [Hc' Hr'].
  destruct (latched_fire_due now _ Hc') as [_ Hr'']. congruence.
Qed.


End CompilerLog.


(** The same run, computed: of the log of 10,040 characters the public
    message keeps the 1,000 lines and loses the headline; a log of 12
    characters is carried whole. *)
Lemma C3_long_log_is_cut :
  Z.of_nat (String.length Scenario.long_log) = 10040 /\
  Compiler.resolved
    (Compiler.build (fun s => s) (Some Scenario.long_log)
       [(1000, Compiler.Message (Some (new_BuilderError "gradle" "Build failed")))] 2000)
  = Some (Some {| message := Some "gradle";
                  msgPublic :=
                    Some ("COMPILER ERROR: " ++ Compiler.nl ++ Compiler.nl ++ "Build failed"
                          ++ Compiler.nl ++ Compiler.nl ++ "CORDOVA LOG: "
                          ++ Compiler.nl ++ Compiler.nl
                          ++ Scenario.repeated 1000 ("> Task :a" ++ Compiler.nl)) |}) /\
  Compiler.resolved
    (Compiler.build (fun s => s) (Some "BUILD FAILED")
       [(1000, Compiler.Message (Some (new_BuilderError "gradle" "Build failed")))] 2000)
  = Some (Some {| message := Some "gradle";
                  msgPublic :=
                    Some ("COMPILER ERROR: " ++ Compiler.nl ++ Compiler.nl ++ "Build failed"
                          ++ Compiler.nl ++ Compiler.nl ++ "CORDOVA LOG: "
                          ++ Compiler.nl ++ Compiler.nl ++ "BUILD FAILED") |}) /\
  Compiler.resolved
    (Compiler.build (fun s => s) (Some Scenario.long_log)
       [(1000, Compiler.Message (Some (new_Error "gradle")))] 2000)
  = Some (Some {| message := Some "gradle";
                  msgPublic :=
                    Some ("CORDOVA LOG: " ++ Compiler.nl ++ Compiler.nl
                          ++ Scenario.long_log) |}).
Proof. vm_compute. repeat split. Qed.


(** ** The purge of temporary files *)

Section DoubleFacts.

(** Below [2 ^ 53 / 25] bytes the product and the quotient of
    [total * 25 / 100] are exact, and the test of [cleanUp] is the
    comparison of the integers. *)
Lemma rounded_at_exact (a t e : Z) :
  e <= -2 ->
  Js.lt_double a (Js.rounded_at (t * 25) 100 e) = (a * 100 <? t * 25).
Proof.
  intros He. unfold Js.rounded_at, Js.scaled.
  replace (e <? 0) with true by (symmetry; apply Z.ltb_lt; lia).
  assert (Hpow : 2 ^ (- e) = 4 * 2 ^ (- e - 2)).
  { replace (- e) with (2 + (- e - 2)) at 1 by lia.
    rewrite Z.pow_add_r by lia. reflexivity. }
  assert (Hpos : 0 < 2 ^ (- e - 2)) by (apply Z.pow_pos_nonneg; lia).
  set (P := 2 ^ (- e - 2)) in *.
  replace (t * 25 * 2 ^ (- e)) with (t * P * 100) by (rewrite Hpow; ring).
  rewrite Z.div_mul, Z.mod_mul by discriminate.
  unfold Js.round_half_even, Js.lt_double. cbn [Js.mantissa Js.exponent].
  change (2 * 0 <? 100) with true. cbv iota.
  replace (e <? 0) with true by (symmetry; apply Z.ltb_lt; lia).
  rewrite Hpow.
  destruct (Z.ltb_spec (a * (4 * P)) (t * P)); destruct (Z.ltb_spec (a * 100) (t * 25));
    try reflexivity; exfalso; nia.
Qed.

Lemma lt_quarter_exact (a t : Z) :
  0 <= a -> 0 <= t -> t * 25 < 2 ^ 53 ->
  Js.lt_double a (Builder.quarter t) = (a * 100 <? t * 25).
Proof.
  intros Ha Ht Hsmall. unfold Builder.quarter, Js.double_of_integer.
  replace (t * 25 <? 2 ^ 53) with true by (symmetry; apply Z.ltb_lt; exact Hsmall).
  unfold Js.double_div.
  destruct (Z.eqb_spec (t * 25) 0) as [E|E].
  - rewrite E. unfold Js.lt_double. cbn [Js.mantissa Js.exponent].
    change (0 <? 0) with false. cbv iota.
    destruct (Z.ltb_spec a (0 * 2 ^ 0)); destruct (Z.ltb_spec (a * 100) 0);
      try reflexivity; exfalso; lia.
  - assert (Hlog : Z.log2 (t * 25) < 53) by (apply Z.log2_lt_pow2; lia).
    change (Z.log2 100) with 6.
    destruct (Js.scaled (t * 25) 100 (Z.log2 (t * 25) - 6 - 53)) as [num den].
    destruct (2 ^ 53 <=? num / den); apply rounded_at_exact; lia.
Qed.

End DoubleFacts.

(** Above that size the doubles round: on a volume of about 1.4
    petabytes the test finds less than a quarter free where the
    integers say a quarter or more. *)
Lemma quarter_rounds_on_large_volumes :
  Js.lt_double 360451392214147 (Builder.quarter 1441805568856588) = true /\
  (360451392214147 * 100 <? 1441805568856588 * 25) = false.
Proof. vm_compute. split; reflexivity. Qed.

Section CleanUpFacts.
Import Builder.
Context {W : Type}.
Variable host : Globals.Host.
Variable env : Globals.CocoonEnvironment.
Variable data : ICompilation.
Variable run_stage : stage -> W -> W * Async.outcome.
Variable disk_of : W -> Disk.
Variable chdir : W -> bool.

Lemma purged_stages (tr : list stage) : purged (map RunStage tr) = false.
Proof. induction tr as [|s tr IH]; [reflexivity | exact IH]. Qed.

Lemma purged_app (a b : list start_effect) : purged (a ++ b) = purged a || purged b.
Proof. apply existsb_app. Qed.


End CleanUpFacts.




(** ** The Updater *)

(** ** Paths: what [path.join] gives below a normalized path *)

Section PathFacts.
Import Path.

Lemma split_rev_acc (s cur : string) (acc : list string) :
  split_rev s cur acc = (split_rev s cur [] ++ acc)%list.
Proof.
  revert cur acc. induction s as [|a s IH]; intros cur acc; [reflexivity|].
  cbn [split_rev]. destruct (is_slash a).
  - rewrite IH, (IH "" [cur]). rewrite <- app_assoc. reflexivity.
  - apply IH.
Qed.

Lemma split_rev_app (a b cur : string) (acc : list string) :
  split_rev (a ++ "/" ++ b) cur acc = split_rev b "" (split_rev a cur acc).
Proof.
  revert cur acc. induction a as [|x a IH]; intros cur acc; [reflexivity|].
  rewrite append_cons. cbn [split_rev]. destruct (is_slash x); apply IH.
Qed.

Lemma segments_app (a b : string) : segments (a ++ "/" ++ b) = (segments a ++ segments b)%list.
Proof.
  unfold segments. rewrite split_rev_app, split_rev_acc, rev_app_distr. reflexivity.
Qed.

Lemma slash_free_cons (a : ascii) (s : string) :
  slash_free (String a s) = negb (is_slash a) && slash_free s.
Proof. reflexivity. Qed.

Lemma slash_free_app (a b : string) : slash_free (a ++ b) = slash_free a && slash_free b.
Proof.
  induction a as [|x a IH]; [reflexivity|].
  rewrite append_cons, !slash_free_cons, IH. apply andb_assoc.
Qed.

Lemma split_rev_segment (s cur : string) (acc : list string) :
  slash_free s = true -> split_rev s cur acc = (cur ++ s) :: acc.
Proof.
  revert cur. induction s as [|a s IH]; intros cur H.
  - cbn. now rewrite append_nil_r.
  - rewrite slash_free_cons in H. apply andb_prop in H as [Ha Hs].
    cbn [split_rev]. apply negb_true_iff in Ha. rewrite Ha, (IH _ Hs).
    rewrite append_assoc. reflexivity.
Qed.

Lemma segments_segment (s : string) : slash_free s = true -> segments s = [s].
Proof. intros H. unfold segments. now rewrite (split_rev_segment s "" [] H). Qed.

Lemma segments_join (l : list string) :
  l <> [] -> Forall (fun s => slash_free s = true) l -> segments (join_with_slash l) = l.
Proof.
  induction l as [|x l IH]; intros Hne Hall; [contradiction|].
  apply Forall_cons in Hall as [Hx Hl].
  destruct l as [|y l]; [apply segments_segment; exact Hx|].
  change (join_with_slash (x :: y :: l)) with (x ++ "/" ++ join_with_slash (y :: l)).
  rewrite segments_app, (segments_segment x Hx), IH; [reflexivity|discriminate|exact Hl].
Qed.

Lemma split_rev_slash_free (s cur : string) (acc : list string) :
  slash_free cur = true -> Forall (fun s => slash_free s = true) acc ->
  Forall (fun s => slash_free s = true) (split_rev s cur acc).
Proof.
  revert cur acc. induction s as [|a s IH]; intros cur acc Hc Ha.
  - cbn. apply Forall_cons. auto.
  - cbn [split_rev]. destruct (is_slash a) eqn:E.
    + apply IH; [reflexivity|apply Forall_cons; auto].
    + apply IH; [|exact Ha]. rewrite slash_free_app, Hc. cbn. now rewrite E.
Qed.

Lemma segments_slash_free (s : string) : Forall (fun s => slash_free s = true) (segments s).
Proof.
  unfold segments. apply Forall_rev. apply split_rev_slash_free; [reflexivity|constructor].
Qed.

Lemma normalize_segments_app (allow : bool) (a b stack : list string) :
  normalize_segments allow (a ++ b) stack
  = normalize_segments allow b (normalize_segments allow a stack).
Proof.
  revert stack. induction a as [|x a IH]; intros stack; [reflexivity|].
  cbn [app normalize_segments].
  destruct (String.eqb x "" || String.eqb x "."); [apply IH|].
  destruct (String.eqb x ".."); [|apply IH].
  destruct stack as [|top below]; [destruct allow; apply IH|].
  destruct (String.eqb top ".."); apply IH.
Qed.

Lemma kept_normalize_segments (allow : bool) (segs stack : list string) :
  Forall (fun s => slash_free s = true) segs -> kept allow stack ->
  kept allow (normalize_segments allow segs stack).
Proof.
  intros Hall. revert stack. induction Hall as [|x segs Hx _ IH]; intros stack Hk; [exact Hk|].
  cbn [normalize_segments].
  destruct (String.eqb x "" || String.eqb x ".") eqn:E1; [apply IH; exact Hk|].
  apply orb_false_elim in E1 as [E1 E2].
  apply String.eqb_neq in E1. apply String.eqb_neq in E2.
  destruct (String.eqb x "..") eqn:E3.
  - apply String.eqb_eq in E3. subst x.
    destruct stack as [|top below].
    + destruct allow; apply IH; cbn; auto 10.
    + destruct (String.eqb top "..") eqn:E4.
      * apply String.eqb_eq in E4. subst top. apply IH.
        pose proof Hk as (_ & _ & _ & Hup & _). destruct (Hup eq_refl) as [Hal _].
        cbn [kept]. split; [reflexivity|]. split; [discriminate|]. split; [discriminate|].
        split; [intros _; split; [exact Hal|reflexivity]|exact Hk].
      * apply IH. cbn [kept] in Hk. tauto.
  - apply String.eqb_neq in E3. apply IH. cbn [kept]. repeat split; auto; contradiction.
Qed.

Lemma normalize_segments_kept (allow : bool) (stack more : list string) :
  kept allow stack ->
  normalize_segments allow (rev stack ++ more) [] = normalize_segments allow more stack.
Proof.
  revert more. induction stack as [|x stack IH]; intros more Hk; [reflexivity|].
  cbn [kept] in Hk. destruct Hk as (_ & Hne & Hdot & Hup & Hk).
  cbn [rev]. rewrite <- app_assoc. cbn [app]. rewrite (IH _ Hk).
  cbn [normalize_segments].
  apply String.eqb_neq in Hne. apply String.eqb_neq in Hdot. rewrite Hne, Hdot. cbn [orb].
  destruct (String.eqb x "..") eqn:E; [|reflexivity].
  apply String.eqb_eq in E. destruct (Hup E) as [-> Hbelow].
  destruct stack as [|top below]; [subst; reflexivity|].
  subst. reflexivity.
Qed.

Lemma join_with_slash_empty (l : list string) :
  Forall (fun s => s <> "") l -> join_with_slash l = "" -> l = [].
Proof.
  intros Hall H. destruct l as [|x l]; [reflexivity|exfalso].
  apply Forall_cons in Hall as [Hx _].
  destruct l as [|y l]; [contradiction|].
  change (join_with_slash (x :: y :: l)) with (x ++ "/" ++ join_with_slash (y :: l)) in H.
  destruct x; [contradiction|discriminate].
Qed.

Lemma kept_segments (allow : bool) (stack : list string) :
  kept allow stack ->
  Forall (fun s => slash_free s = true) stack /\ Forall (fun s => s <> "") stack.
Proof.
  induction stack as [|x stack IH]; intros Hk; [split; constructor|].
  cbn [kept] in Hk. destruct Hk as (H1 & H2 & _ & _ & Hk). destruct (IH Hk).
  split; constructor; auto.
Qed.

(** The segments of a rendered path normalize to its stack. *)
Lemma segments_render (isAbsolute : bool) (stack more : list string) :
  kept (negb isAbsolute) stack ->
  normalize_segments (negb isAbsolute) (segments (render isAbsolute stack) ++ more) []
  = normalize_segments (negb isAbsolute) more stack.
Proof.
  intros Hk. destruct (kept_segments _ _ Hk) as [Hsf Hne].
  unfold render. destruct (join_with_slash (rev stack)) as [|a b] eqn:E.
  - apply join_with_slash_empty in E; [|apply Forall_rev; exact Hne].
    assert (stack = []) as -> by (apply (f_equal (@rev string)) in E;
                                  now rewrite rev_involutive in E).
    destruct isAbsolute; reflexivity.
  - assert (Hseg : segments (String a b) = rev stack).
    { rewrite <- E. apply segments_join; [|apply Forall_rev; exact Hsf].
      intros Hnil. rewrite Hnil in E. discriminate E. }
    destruct isAbsolute.
    + change ("/" ++ String a b) with ("" ++ "/" ++ String a b).
      rewrite segments_app, Hseg. cbn [segments split_rev rev app normalize_segments].
      cbn [String.eqb orb]. apply (normalize_segments_kept _ _ _ Hk).
    + rewrite Hseg. apply (normalize_segments_kept _ _ _ Hk).
Qed.

Lemma rev_chars_app (a b : string) (acc : list ascii) :
  rev_chars (a ++ b) acc = rev_chars b (rev_chars a acc).
Proof.
  revert acc. induction a as [|x a IH]; intros acc; [reflexivity|].
  rewrite append_cons. cbn [rev_chars]. apply IH.
Qed.

Lemma rev_chars_last (s : string) (acc : list ascii) :
  s <> "" -> exists c rest, rev_chars s acc = c :: rest /\
                            (slash_free s = true -> is_slash c = false).
Proof.
  revert acc. induction s as [|a s IH]; intros acc Hne; [contradiction|].
  cbn [rev_chars]. destruct s as [|b s].
  - exists a, acc. split; [reflexivity|]. rewrite slash_free_cons. intros H.
    apply andb_prop in H as [H _]. now apply negb_true_iff in H.
  - destruct (IH (a :: acc)) as (c & rest & Hr & Hc); [discriminate|].
    exists c, rest. split; [exact Hr|]. rewrite slash_free_cons. intros H.
    apply andb_prop in H as [_ H]. exact (Hc H).
Qed.

Lemma ends_with_slash_app (a b : string) :
  b <> "" -> slash_free b = true -> ends_with_slash (a ++ b) = false.
Proof.
  intros Hne Hsf. unfold ends_with_slash. rewrite rev_chars_app.
  destruct (rev_chars_last b (rev_chars a []) Hne) as (c & rest & -> & Hc). exact (Hc Hsf).
Qed.

Lemma join_with_slash_last (l : list string) :
  l <> [] -> Forall (fun s => slash_free s = true /\ s <> "") l ->
  exists a b, join_with_slash l = a ++ b /\ b <> "" /\ slash_free b = true.
Proof.
  induction l as [|x l IH]; intros Hne Hall; [contradiction|].
  apply Forall_cons in Hall as [[Hx Hx'] Hl].
  destruct l as [|y l]; [exists "", x; auto|].
  destruct IH as (a & b & E & Hb & Hb'); [discriminate|exact Hl|].
  exists (x ++ "/" ++ a), b.
  change (join_with_slash (x :: y :: l)) with (x ++ "/" ++ join_with_slash (y :: l)).
  rewrite E, !append_assoc. auto.
Qed.

Lemma render_head (isAbsolute : bool) (stack : list string) :
  kept (negb isAbsolute) stack ->
  exists a r, render isAbsolute stack = String a r /\ is_slash a = isAbsolute.
Proof.
  intros Hk. destruct (kept_segments _ _ Hk) as [Hsf Hne].
  unfold render. destruct (join_with_slash (rev stack)) as [|a b] eqn:E.
  - destruct isAbsolute; eexists _, _; split; reflexivity.
  - destruct isAbsolute; [eexists _, _; split; reflexivity|].
    exists a, b. split; [reflexivity|].
    destruct (rev stack) as [|x l] eqn:Er; [discriminate E|].
    assert (Hx : slash_free x = true /\ x <> "").
    { assert (In x (rev stack)) by (rewrite Er; left; reflexivity).
      apply in_rev in H. split.
      - rewrite List.Forall_forall in Hsf. apply Hsf. exact H.
      - rewrite List.Forall_forall in Hne. apply Hne. exact H. }
    destruct Hx as [Hx Hx']. destruct x as [|c x]; [contradiction|].
    rewrite slash_free_cons in Hx. apply andb_prop in Hx as [Hx _].
    apply negb_true_iff in Hx.
    destruct l; cbn in E; injection E as -> _; exact Hx.
Qed.

(** [path.join] of a normalized path with further segments goes on
    from its stack. *)
Lemma normalize_render (isAbsolute : bool) (stack segs : list string) :
  kept (negb isAbsolute) stack ->
  segs <> [] -> Forall (fun s => slash_free s = true /\ s <> "") segs ->
  normalize (render isAbsolute stack ++ "/" ++ join_with_slash segs)
  = render isAbsolute (normalize_segments (negb isAbsolute) segs stack).
Proof.
  intros Hk Hne Hall.
  destruct (render_head _ _ Hk) as (a & r & Hr & Ha).
  destruct (join_with_slash_last segs Hne Hall) as (x & y & Hj & Hy & Hy').
  assert (Htrail : ends_with_slash (render isAbsolute stack ++ "/" ++ join_with_slash segs)
                   = false).
  { rewrite Hj, <- !append_assoc. apply ends_with_slash_app; assumption. }
  assert (Hsegs : segments (render isAbsolute stack ++ "/" ++ join_with_slash segs)
                  = (segments (render isAbsolute stack) ++ segs)%list).
  { rewrite segments_app, segments_join; [reflexivity|exact Hne|].
    eapply Forall_impl; [exact Hall|]. cbn. tauto. }
  unfold normalize. rewrite Htrail, Hsegs.
  rewrite Hr at 1. rewrite append_cons. rewrite Ha.
  rewrite (segments_render _ _ _ Hk). unfold render.
  destruct (join_with_slash (rev (normalize_segments (negb isAbsolute) segs stack)));
    destruct isAbsolute; reflexivity.
Qed.

End PathFacts.

Section PathMore.
Import Path.

Lemma normalize_stack (p : string) :
  p <> "" -> ends_with_slash p = false ->
  exists isAbsolute stack, kept (negb isAbsolute) stack /\ normalize p = render isAbsolute stack.
Proof.
  intros Hne Htrail. destruct p as [|first rest]; [contradiction|].
  exists (is_slash first),
    (normalize_segments (negb (is_slash first)) (segments (String first rest)) []).
  split.
  - apply kept_normalize_segments; [apply segments_slash_free|exact I].
  - unfold normalize, render. rewrite Htrail.
    destruct (join_with_slash _); destruct (is_slash first); reflexivity.
Qed.

Lemma render_not_empty (isAbsolute : bool) (stack : list string) : render isAbsolute stack <> "".
Proof.
  unfold render. destruct (join_with_slash (rev stack)); destruct isAbsolute; discriminate.
Qed.

Lemma join_with_slash_snoc (l : list string) (x : string) :
  l <> [] -> join_with_slash (l ++ [x]) = join_with_slash l ++ "/" ++ x.
Proof.
  induction l as [|y l IH]; intros Hne; [contradiction|].
  destruct l as [|z l]; [reflexivity|].
  change (join_with_slash ((y :: z :: l) ++ [x]))
    with (y ++ "/" ++ join_with_slash ((z :: l) ++ [x])).
  rewrite IH by discriminate.
  change (join_with_slash (y :: z :: l)) with (y ++ "/" ++ join_with_slash (z :: l)).
  now rewrite !append_assoc.
Qed.

Lemma render_push (isAbsolute : bool) (x : string) (stack : list string) :
  kept (negb isAbsolute) stack -> stack <> [] ->
  render isAbsolute (x :: stack) = render isAbsolute stack ++ "/" ++ x.
Proof.
  intros Hk Hne. destruct (kept_segments _ _ Hk) as [_ Hall].
  unfold render. cbn [rev]. rewrite join_with_slash_snoc.
  2:{ intros E. apply Hne. apply (f_equal (@rev string)) in E.
      now rewrite rev_involutive in E. }
  destruct (join_with_slash (rev stack)) as [|a b] eqn:E.
  - exfalso. apply join_with_slash_empty in E; [|apply Forall_rev; exact Hall].
    apply Hne. apply (f_equal (@rev string)) in E. now rewrite rev_involutive in E.
  - destruct isAbsolute; reflexivity.
Qed.

Lemma join_two (x y : string) : x <> "" -> y <> "" -> join [x; y] = normalize (x ++ "/" ++ y).
Proof.
  intros Hx Hy. unfold join. cbn [List.filter filter].
  apply String.eqb_neq in Hx. apply String.eqb_neq in Hy.
  cbn. rewrite Hx, Hy. reflexivity.
Qed.

Lemma starts_with_length (p s : string) :
  Js.starts_with p s = true -> (String.length p <= String.length s)%nat.
Proof.
  revert s. induction p as [|a p IH]; intros s H; [cbn; lia|].
  destruct s as [|b s]; [discriminate|]. cbn in H. apply andb_prop in H as [_ H].
  apply IH in H. cbn. lia.
Qed.

Lemma under_longer (dir p : string) :
  (String.length p < String.length dir)%nat -> Updater.under dir p = false.
Proof.
  intros Hlen. unfold Updater.under. apply orb_false_intro.
  - apply String.eqb_neq. intros ->. lia.
  - apply not_true_is_false. intros H. apply starts_with_length in H.
    rewrite length_append in H. cbn in H. lia.
Qed.

End PathMore.

Section RegexMore.
Import Path Regex.

Lemma all_of_slash_free (p : ascii -> bool) (s : string) :
  p "/"%char = false -> all_of p s = true -> slash_free s = true.
Proof.
  intros Hp. induction s as [|a s IH]; intros H; [reflexivity|].
  cbn in H. apply andb_prop in H as [Ha Hs].
  rewrite slash_free_cons, (IH Hs), andb_true_r. apply negb_true_iff.
  apply not_true_is_false. intros E. unfold Path.is_slash in E. apply Ascii.eqb_eq in E.
  subst a. unfold Path.slash in Ha. congruence.
Qed.

(** The text a literal with the flag [i] consumes has no slash when
    the literal has none. *)
Lemma run_str_i_some (t : string) (tail : re) (k : cont) :
  all_of (fun x => negb (Ascii.eqb (fold_case x) (fold_case "/"%char))) t = true ->
  forall (s : string) (c c' : captures),
    run (str_i t tail) k s c = Some c' ->
    exists t' s', s = t' ++ s' /\ slash_free t' = true /\ run tail k s' c = Some c'.
Proof.
  induction t as [|x t IH]; intros Hall s c c' H.
  - exists "", s. auto.
  - cbn in Hall. apply andb_prop in Hall as [Hx Hall].
    change (str_i (String x t) tail) with (Cat (lit_i x) (str_i t tail)) in H.
    cbn [run lit_i] in H. destruct s as [|a s]; [discriminate|].
    destruct (Ascii.eqb (fold_case x) (fold_case a)) eqn:E; [|discriminate].
    destruct (IH Hall _ _ _ H) as (t' & s' & Hs & Hsf & Hr).
    exists (String a t'), s'. split; [rewrite append_cons; now f_equal|].
    split; [|exact Hr]. rewrite slash_free_cons, Hsf, andb_true_r.
    apply negb_true_iff. apply not_true_is_false. intros Ha.
    unfold Path.is_slash in Ha. apply Ascii.eqb_eq in Ha. subst a.
    unfold Path.slash in E. rewrite E in Hx. discriminate Hx.
Qed.

End RegexMore.

Section Prefixes.
Import Path.

Lemma eqb_app_l (a x y : string) : String.eqb (a ++ x) (a ++ y) = String.eqb x y.
Proof.
  induction a as [|c a IH]; [reflexivity|].
  rewrite !append_cons. cbn [String.eqb]. now rewrite Ascii.eqb_refl.
Qed.

Lemma starts_with_app_l (a p s : string) :
  Js.starts_with (a ++ p) (a ++ s) = Js.starts_with p s.
Proof.
  induction a as [|c a IH]; [reflexivity|].
  rewrite !append_cons. cbn [Js.starts_with]. now rewrite Ascii.eqb_refl.
Qed.

Lemma render_last (isAbsolute : bool) (x : string) (stack : list string) :
  kept (negb isAbsolute) stack -> x <> "" ->
  render isAbsolute (x :: stack) = before_last isAbsolute stack ++ x.
Proof.
  intros Hk Hx. destruct stack as [|y stack].
  - unfold render. cbn. destruct x; [contradiction|]. destruct isAbsolute; reflexivity.
  - rewrite (render_push _ x _ Hk) by discriminate. unfold before_last.
    now rewrite append_assoc.
Qed.

End Prefixes.

(** ** [updater.ts]: where the output directories lie *)

Section OutputNames.
Import Path Updater.
Variable host : Globals.Host.
Variable env : Globals.CocoonEnvironment.

Lemma group_class (p : ascii -> bool) (tail : Regex.re) (s : string) (c : Regex.captures) :
  p "/"%char = false -> Regex.group_free tail = true ->
  Regex.run (Regex.Cat (Regex.Group 1 (Regex.PlusC p)) tail) Regex.accept s [] = Some c ->
  exists name, Regex.lookup 1 c = Some name /\ segment name.
Proof.
  intros Hp Hg H. cbn [Regex.run] in H.
  apply plus_from_some in H as (pre & s' & Hne & Hall & -> & H).
  apply (run_group_free tail Hg) in H as (s2 & H). injection H as <-.
  exists pre. rewrite consumed_app. split; [reflexivity|].
  split; [exact (all_of_slash_free p pre Hp Hall)|exact Hne].
Qed.

Lemma name_pattern_segment (s name : string) :
  Regex.match_group1 name_pattern s = Js.Ret name -> segment name.
Proof.
  unfold Regex.match_group1. destruct (Regex.exec name_pattern s) as [c|] eqn:E; [|discriminate].
  apply exec_rest in E as (s0 & _ & H).
  apply group_class in H as (n & Hl & Hn); [|reflexivity|reflexivity].
  rewrite Hl. intros [= <-]. exact Hn.
Qed.

Lemma compiler_pattern_segment (s name : string) :
  Regex.match_group1 compiler_pattern s = Js.Ret name -> segment name.
Proof.
  unfold Regex.match_group1.
  destruct (Regex.exec compiler_pattern s) as [c|] eqn:E; [|discriminate].
  apply exec_rest in E as (s0 & _ & H). unfold compiler_pattern in H.
  apply run_str_i_some in H as (t' & s1 & _ & _ & H); [|reflexivity].
  apply group_class in H as (n & Hl & Hn); [|reflexivity|reflexivity].
  rewrite Hl. intros [= <-]. exact Hn.
Qed.

Lemma lib_name_pattern_segment (s name : string) :
  Regex.match_group1 lib_name_pattern s = Js.Ret name -> segment name.
Proof.
  unfold Regex.match_group1.
  destruct (Regex.exec lib_name_pattern s) as [c|] eqn:E; [|discriminate].
  apply exec_rest in E as (s0 & _ & H). unfold lib_name_pattern in H.
  rewrite run_cat, run_group in H.
  apply run_str_i_some in H as (t' & s1 & -> & Hsf & H); [|reflexivity].
  rewrite run_plus in H.
  apply plus_from_some in H as (pre & s' & Hne & Hall & -> & H).
  cbv beta in H.
  apply run_group_free in H as (s2 & H); [|reflexivity]. injection H as <-.
  rewrite <- append_assoc, consumed_app. cbn [Regex.lookup Nat.eqb]. intros [= <-].
  split.
  - rewrite slash_free_app, Hsf. exact (all_of_slash_free _ pre eq_refl Hall).
  - destruct t'; [exact Hne|discriminate].
Qed.

End OutputNames.

Section OutputDirs.
Import Path Updater.
Variable host : Globals.Host.
Variable env : Globals.CocoonEnvironment.

Lemma workspace_stack :
  exists isAbsolute stack,
    kept (negb isAbsolute) stack /\
    Globals.COMPILER_WORKSPACE_PATH host env = render isAbsolute stack.
Proof.
  unfold Globals.COMPILER_WORKSPACE_PATH.
  destruct (Globals.home host) as [|h hs].
  - exists false, [Globals.envToString env; "workspace"; "cocoon_compiler"; "opt"].
    destruct env; (split; [cbn; repeat split; discriminate|reflexivity]).
  - assert (E : Path.join [String h hs; "opt"; "cocoon_compiler"; "workspace";
                           Globals.envToString env]
                = Path.normalize
                    ((String h hs ++ "/opt/cocoon_compiler/workspace/")
                     ++ Globals.envToString env)).
    { destruct env; unfold Path.join; cbn [List.filter String.eqb Ascii.eqb negb
        Globals.envToString Path.join_with_slash]; rewrite !append_assoc; reflexivity. }
    rewrite E. apply normalize_stack; [discriminate|].
    apply ends_with_slash_app; destruct env; (discriminate || reflexivity).
Qed.

Lemma join_render (isAbsolute : bool) (stack : list string) (x : string) :
  kept (negb isAbsolute) stack -> segment x ->
  Path.join [render isAbsolute stack; x]
  = render isAbsolute (Path.normalize_segments (negb isAbsolute) [x] stack).
Proof.
  intros Hk [Hsf Hne]. rewrite join_two; [|apply render_not_empty|exact Hne].
  apply (normalize_render isAbsolute stack [x] Hk); [discriminate|].
  constructor; [split; assumption|constructor].
Qed.

Lemma data_stack :
  exists isAbsolute stack,
    kept (negb isAbsolute) ("data" :: stack) /\
    Globals.COMPILER_DATA_PATH host env = render isAbsolute ("data" :: stack) /\
    Globals.S3_STRUCTURE_FILE_PATH host env = render isAbsolute ("s3_structure.json" :: stack).
Proof.
  destruct workspace_stack as (isAbsolute & stack & Hk & Hw).
  exists isAbsolute, stack. split; [|split].
  - cbn [kept]. split; [reflexivity|]. split; [discriminate|]. split; [discriminate|].
    split; [discriminate|exact Hk].
  - unfold Globals.COMPILER_DATA_PATH. rewrite Hw.
    rewrite (join_render _ _ "data" Hk); [reflexivity|split; [reflexivity|discriminate]].
  - unfold Globals.S3_STRUCTURE_FILE_PATH. rewrite Hw.
    rewrite (join_render _ _ "s3_structure.json" Hk);
      [reflexivity|split; [reflexivity|discriminate]].
Qed.

Lemma output_in_placed (folder : string) (pattern : Regex.re) (c : IS3ContentData)
    (dir r : option string) :
  In folder folders ->
  (forall s name, Regex.match_group1 pattern s = Js.Ret name -> segment name) ->
  placed host env dir ->
  output_in folder pattern (Path.join [Globals.COMPILER_DATA_PATH host env; folder]) c dir
  = Js.Ret r ->
  placed host env r.
Proof.
  intros Hin Hpat Hdir. unfold output_in.
  destruct (String.eqb (Path.dirname (Key c)) folder).
  - destruct (Regex.match_group1 pattern (Path.basename (Key c))) as [name|] eqn:E;
      [|discriminate].
    cbn [Js.bind]. intros [= <-] outDir [= <-].
    exists folder, name. split; [exact Hin|]. split; [exact (Hpat _ _ E)|reflexivity].
  - intros [= <-]. exact Hdir.
Qed.

Lemma getOutputDir_placed (c : IS3ContentData) (r : option string) :
  getOutputDir host env c = Js.Ret r -> placed host env r.
Proof.
  unfold getOutputDir.
  destruct (output_in Globals.CORDOVA_PLATFORMS_FOLDER _ _ c None) as [d1|] eqn:E1;
    [|discriminate].
  apply output_in_placed in E1;
    [|unfold folders; cbn [In]; intuition reflexivity|exact name_pattern_segment|intros o; discriminate].
  cbn [Js.bind].
  destruct (output_in Globals.CORDOVA_COMPILERS_FOLDER _ _ c d1) as [d2|] eqn:E2;
    [|discriminate].
  apply output_in_placed in E2;
    [|unfold folders; cbn [In]; intuition reflexivity|exact compiler_pattern_segment|exact E1].
  cbn [Js.bind].
  destruct (output_in Globals.CORDOVA_PLUGINS_FOLDER _ _ c d2) as [d3|] eqn:E3;
    [|discriminate].
  apply output_in_placed in E3;
    [|unfold folders; cbn [In]; intuition reflexivity|exact name_pattern_segment|exact E2].
  cbn [Js.bind].
  destruct (output_in Globals.CORDOVA_LIBS_FOLDER _ _ c d3) as [d4|] eqn:E4;
    [|discriminate].
  apply output_in_placed in E4;
    [|unfold folders; cbn [In]; intuition reflexivity|exact lib_name_pattern_segment|exact E3].
  cbn [Js.bind]. intros E5.
  apply output_in_placed in E5;
    [exact E5|unfold folders; cbn [In]; intuition reflexivity|exact name_pattern_segment|exact E4].
Qed.

(** The three shapes of an output directory: the data folder itself
    (the name [..]), one of its five folders (the name [.]), or a name
    in such a folder. *)
Lemma output_dir_shape (c : IS3ContentData) (outDir : string) :
  getOutputDir host env c = Js.Ret (Some outDir) ->
  outDir = Globals.COMPILER_DATA_PATH host env \/
  exists folder rest,
    In folder folders /\
    outDir = Globals.COMPILER_DATA_PATH host env ++ "/" ++ folder ++ rest.
Proof.
  intros Hout.
  destruct (getOutputDir_placed c _ Hout outDir eq_refl) as (folder & name & Hin & Hname & ->).
  destruct data_stack as (isAbsolute & stack & Hk & Hdata & _).
  rewrite Hdata in *.
  assert (Hfolder : segment folder /\ folder <> "." /\ folder <> "..").
  { pose proof Hin as Hin'. unfold folders in Hin'. cbn [In] in Hin'.
    repeat (destruct Hin' as [<-|Hin']; [repeat split; discriminate|]). contradiction. }
  destruct Hfolder as (Hseg & Hdot & Hup).
  assert (Hk2 : kept (negb isAbsolute) (folder :: "data" :: stack)).
  { destruct Hseg. cbn [kept]. cbn [kept] in Hk. repeat split; tauto. }
  assert (Hbase : Path.join [render isAbsolute ("data" :: stack); folder]
                  = render isAbsolute (folder :: "data" :: stack)).
  { rewrite (join_render _ _ folder Hk Hseg). cbn [Path.normalize_segments].
    destruct Hseg as [_ Hne].
    apply String.eqb_neq in Hne, Hdot, Hup. now rewrite Hne, Hdot, Hup. }
  rewrite Hbase, (join_render _ _ name Hk2 Hname).
  cbn [Path.normalize_segments].
  destruct (String.eqb name "" || String.eqb name ".").
  { right. exists folder, "". split; [exact Hin|].
    rewrite append_nil_r. apply (render_push _ folder _ Hk). discriminate. }
  destruct (String.eqb name "..") eqn:E.
  - apply String.eqb_neq in Hup. rewrite Hup. left. reflexivity.
  - right. exists folder, ("/" ++ name). split; [exact Hin|].
    rewrite (render_push _ name _ Hk2) by discriminate.
    rewrite (render_push _ folder _ Hk) by discriminate.
    now rewrite !append_assoc.
Qed.

(** No output directory lies above the data folder: one that holds the
    data folder is the data folder. *)
Lemma output_dir_holds_data (c : IS3ContentData) (outDir : string) :
  getOutputDir host env c = Js.Ret (Some outDir) ->
  under outDir (Globals.COMPILER_DATA_PATH host env) = true ->
  outDir = Globals.COMPILER_DATA_PATH host env.
Proof.
  intros Hout Hunder.
  destruct (output_dir_shape c outDir Hout) as [E|(folder & rest & _ & ->)]; [exact E|].
  rewrite under_longer in Hunder; [discriminate|].
  rewrite !length_append. cbn. lia.
Qed.

(** The manifest file lies beside the data folder: no output directory
    holds it. *)
Lemma output_dir_spares_manifest (c : IS3ContentData) (outDir : string) :
  getOutputDir host env c = Js.Ret (Some outDir) ->
  under outDir (Globals.S3_STRUCTURE_FILE_PATH host env) = false.
Proof.
  intros Hout.
  destruct data_stack as (isAbsolute & stack & Hk & Hdata & Hfile).
  assert (Hw : kept (negb isAbsolute) stack) by (cbn [kept] in Hk; tauto).
  rewrite Hfile, (render_last _ _ _ Hw) by discriminate.
  assert (Hshape : exists more, outDir = before_last isAbsolute stack ++ "data" ++ more).
  { destruct (output_dir_shape c outDir Hout) as [->|(folder & rest & _ & ->)];
      rewrite Hdata, (render_last _ _ _ Hw) by discriminate.
    - exists "". now rewrite append_nil_r.
    - exists ("/" ++ folder ++ rest). now rewrite !append_assoc. }
  destruct Hshape as [more ->]. unfold under.
  rewrite eqb_app_l, append_assoc, starts_with_app_l. reflexivity.
Qed.

(** [ready.lock] is a file of the data folder. *)
Lemma lock_in_data :
  lock host env = Globals.COMPILER_DATA_PATH host env ++ "/ready.lock".
Proof.
  destruct data_stack as (isAbsolute & stack & Hk & Hdata & _).
  unfold lock. rewrite Hdata.
  rewrite (join_render _ _ "ready.lock" Hk) by (split; [reflexivity|discriminate]).
  cbn [Path.normalize_segments String.eqb Ascii.eqb Bool.eqb orb].
  apply (render_push _ "ready.lock" _ Hk). discriminate.
Qed.

Lemma data_holds_lock :
  under (Globals.COMPILER_DATA_PATH host env) (lock host env) = true.
Proof.
  rewrite lock_in_data. unfold under. apply orb_true_iff. right.
  rewrite <- (append_nil_r (Globals.COMPILER_DATA_PATH host env ++ "/")) at 1.
  change "/ready.lock" with ("/" ++ "ready.lock").
  rewrite <- !append_assoc, starts_with_app_l. reflexivity.
Qed.

(** Of the output directories only the data folder holds
    [ready.lock]. *)
Lemma output_dir_holds_lock (c : IS3ContentData) (outDir : string) :
  getOutputDir host env c = Js.Ret (Some outDir) ->
  under outDir (lock host env) = true <-> outDir = Globals.COMPILER_DATA_PATH host env.
Proof.
  intros Hout. split.
  - rewrite lock_in_data. unfold under.
    destruct (output_dir_shape c outDir Hout) as [E|(folder & rest & Hin & ->)]; [auto|].
    change "/ready.lock" with ("/" ++ "ready.lock").
    rewrite !append_assoc, !eqb_app_l, !starts_with_app_l.
    unfold folders in Hin. cbn [In] in Hin.
    repeat (destruct Hin as [<-|Hin]; [cbn; discriminate|]). contradiction.
  - intros ->. apply data_holds_lock.
Qed.

End OutputDirs.

Section UpdaterFacts.
Import Updater.
Variable host : Globals.Host.
Variable env : Globals.CocoonEnvironment.
Variable service : bool.

(** An entry whose key the persisted manifest does not hold keeps the
    initial status of [getSyncStatus]. *)
Lemma getSyncStatus_new_key (fs : FS) (data : list IS3ContentData) (contentData : IS3ContentData) :
  Forall (fun item => Key item <> Key contentData) data ->
  getSyncStatus host env fs data contentData = Js.Ret IGNORE.
Proof.
  induction 1 as [|item data Hne _ IH]; [reflexivity|].
  cbn [getSyncStatus].
  replace (String.eqb (Key item) (Key contentData)) with false
    by (symmetry; apply String.eqb_neq; exact Hne).
  rewrite andb_false_r. exact IH.
Qed.

Lemma touched_app (a b : list effect) :
  touched_ready_lock (a ++ b) = touched_ready_lock a || touched_ready_lock b.
Proof. apply existsb_app. Qed.

Lemma wiped_app (a b : list effect) :
  wiped_ready_lock host env (a ++ b)
  = wiped_ready_lock host env a || wiped_ready_lock host env b.
Proof. apply existsb_app. Qed.

Lemma parents_head (fuel : nat) (p : string) : In p (parents fuel p).
Proof. destruct fuel; cbn; [|destruct (String.eqb _ _)]; left; reflexivity. Qed.

Lemma mkdirs_self (p : string) : p ∈ mkdirs p.
Proof. unfold mkdirs. apply elem_of_list_to_set, list_elem_of_In, parents_head. Qed.

(** After [ensureDir] the directory is there. *)
Lemma ensureDir_exists (dir : string) (fs : FS) :
  existsSync (ensureDir dir fs) (Some dir) = true.
Proof.
  unfold existsSync, ensureDir. cbn [dirs set_dirs]. apply bool_decide_eq_true.
  apply elem_of_union_l, mkdirs_self.
Qed.

(** Emptying an output directory spares the manifest file and the data
    folder; it takes [ready.lock] when the directory holds it. *)
Lemma emptyDirSync_output (c : IS3ContentData) (outDir : string) (fs : FS) :
  getOutputDir host env c = Js.Ret (Some outDir) ->
  s3_structure (emptyDirSync host env outDir fs) = s3_structure fs /\
  ready_lock (emptyDirSync host env outDir fs)
  = ready_lock fs && negb (under outDir (lock host env)) /\
  (existsSync fs (Some (Globals.COMPILER_DATA_PATH host env)) = true ->
   existsSync (emptyDirSync host env outDir fs) (Some (Globals.COMPILER_DATA_PATH host env))
   = true).
Proof.
  intros Hout. unfold emptyDirSync, removeSync, set_dirs. cbn [s3_structure ready_lock dirs].
  rewrite (output_dir_spares_manifest host env c outDir Hout).
  split; [reflexivity|]. split; [reflexivity|].
  unfold existsSync. intros H. apply bool_decide_eq_true in H. apply bool_decide_eq_true.
  destruct (under outDir (Globals.COMPILER_DATA_PATH host env)) eqn:E.
  - rewrite <- (output_dir_holds_data host env c outDir Hout E) at 1.
    apply elem_of_union_l, mkdirs_self.
  - apply elem_of_union_r, elem_of_filter. split; [|exact H]. now rewrite E.
Qed.

(** Removing an output directory spares the manifest file; it takes
    [ready.lock] when the directory holds it. *)
Lemma removeSync_output (c : IS3ContentData) (path : string) (fs : FS) :
  getOutputDir host env c = Js.Ret (Some path) ->
  s3_structure (removeSync host env path fs) = s3_structure fs /\
  ready_lock (removeSync host env path fs)
  = ready_lock fs && negb (under path (lock host env)).
Proof.
  intros Hout. unfold removeSync. cbn [s3_structure ready_lock].
  rewrite (output_dir_spares_manifest host env c path Hout). split; reflexivity.
Qed.

(** [sync] never touches [ready.lock] and leaves the manifest file and
    the data folder in place; [ready.lock] goes when a directory that
    holds it is emptied. *)
Lemma sync_each_quiet (w : World) (contents : list IS3ContentData) (fs : FS) :
  touched_ready_lock (sync_each host env w contents fs).1.2 = false /\
  ready_lock (sync_each host env w contents fs).1.1
  = ready_lock fs && negb (wiped_ready_lock host env (sync_each host env w contents fs).1.2) /\
  s3_structure (sync_each host env w contents fs).1.1 = s3_structure fs /\
  (existsSync fs (Some (Globals.COMPILER_DATA_PATH host env)) = true ->
   existsSync (sync_each host env w contents fs).1.1
     (Some (Globals.COMPILER_DATA_PATH host env)) = true).
Proof.
  revert fs. induction contents as [|c contents IH]; intros fs.
  { cbn. rewrite andb_true_r. auto. }
  assert (Hstay : touched_ready_lock [] = false /\
                  ready_lock fs = ready_lock fs && negb (wiped_ready_lock host env []) /\
                  s3_structure fs = s3_structure fs /\
                  (existsSync fs (Some (Globals.COMPILER_DATA_PATH host env)) = true ->
                   existsSync fs (Some (Globals.COMPILER_DATA_PATH host env)) = true)).
  { cbn. rewrite andb_true_r. auto. }
  cbn [sync_each]. destruct (syncObject host env fs c); try apply IH.
  destruct (getObject w (Key c)) as [text | tar_error]; [exact Hstay|].
  destruct (getOutputDir host env c) as [[outDir|]|] eqn:Hout; [| |exact Hstay].
  - destruct (emptyDirSync_output c outDir fs Hout) as (Hm & Hl & Hd).
    destruct tar_error as [text|].
    + cbn [fst snd]. split; [reflexivity|]. split; [|split; [exact Hm|exact Hd]].
      rewrite Hl. unfold wiped_ready_lock. cbn [existsb is_wipe orb].
      now rewrite orb_false_r.
    + specialize (IH (emptyDirSync host env outDir fs)).
      destruct (sync_each host env w contents (emptyDirSync host env outDir fs))
        as [[fs' eff] r].
      cbn [fst snd] in *. destruct IH as (H1 & H2 & H3 & H4).
      split; [exact H1|]. split; [|split; [congruence|auto]].
      rewrite H2, Hl. unfold wiped_ready_lock. cbn [app existsb is_wipe orb].
      destruct (ready_lock fs), (under outDir (lock host env)); reflexivity.
  - specialize (IH fs).
    destruct (sync_each host env w contents fs) as [[fs' eff] r]. cbn [fst snd] in *. exact IH.
Qed.

(** [purge] never touches [ready.lock] and leaves the manifest file in
    place; [ready.lock] goes when a directory that holds it is
    removed. *)
Lemma purge_each_quiet (remote structure : list IS3ContentData) (fs : FS) :
  touched_ready_lock (purge_each host env remote structure fs).2 = false /\
  ready_lock (purge_each host env remote structure fs).1
  = ready_lock fs && negb (wiped_ready_lock host env (purge_each host env remote structure fs).2) /\
  s3_structure (purge_each host env remote structure fs).1 = s3_structure fs.
Proof.
  revert fs. induction structure as [|item structure IH]; intros fs.
  { cbn. rewrite andb_true_r. auto. }
  cbn [purge_each]. destruct (existsb _ remote); [apply IH|].
  destruct (getOutputDir host env item) as [file|] eqn:Hout.
  2:{ cbn. rewrite andb_true_r. auto. }
  destruct (existsSync fs file); [|apply IH].
  destruct file as [path|]; [|apply IH].
  destruct (removeSync_output item path fs Hout) as (Hm & Hl).
  specialize (IH (removeSync host env path fs)).
  destruct (purge_each host env remote structure (removeSync host env path fs)) as [fs' eff].
  cbn [fst snd] in *. destruct IH as (H1 & H2 & H3).
  split; [exact H1|]. split; [|congruence].
  rewrite H2, Hl. unfold wiped_ready_lock. cbn [existsb is_wipe].
  destruct (ready_lock fs), (under path (lock host env)); reflexivity.
Qed.

Lemma purge_quiet (remote : list IS3ContentData) (fs : FS) :
  touched_ready_lock (purge host env remote fs).2 = false /\
  ready_lock (purge host env remote fs).1
  = ready_lock fs && negb (wiped_ready_lock host env (purge host env remote fs).2) /\
  s3_structure (purge host env remote fs).1 = s3_structure fs.
Proof.
  unfold purge. destruct (s3_structure fs) eqn:E;
    try (cbn; rewrite andb_true_r, ?E; auto).
  destruct (purge_each_quiet remote items fs) as (H1 & H2 & H3).
  rewrite H3. auto.
Qed.

(** The directories an iteration empties are output directories, and
    so are those it removes. *)
Lemma sync_each_output_dirs (w : World) (contents : list IS3ContentData) (fs : FS) :
  Forall (fun e => forall p, e = EmptyDir p \/ e = RemoveDir p ->
                             exists c, getOutputDir host env c = Js.Ret (Some p))
    (sync_each host env w contents fs).1.2.
Proof.
  revert fs. induction contents as [|c contents IH]; intros fs; [constructor|].
  assert (Hdl : forall p, Download (Key c) = EmptyDir p \/ Download (Key c) = RemoveDir p ->
                          exists c0, getOutputDir host env c0 = Js.Ret (Some p))
    by (intros p [H|H]; discriminate H).
  cbn [sync_each]. destruct (syncObject host env fs c); try apply IH.
  destruct (getObject w (Key c)) as [text | tar_error]; [repeat constructor; exact Hdl|].
  destruct (getOutputDir host env c) as [[outDir|]|] eqn:Hout;
    [| |repeat constructor; exact Hdl].
  - assert (Hhere : Forall (fun e => forall p, e = EmptyDir p \/ e = RemoveDir p ->
                                     exists c0, getOutputDir host env c0 = Js.Ret (Some p))
                      [Download (Key c); EmptyDir outDir; Extract (Key c) outDir]).
    { repeat constructor; try exact Hdl.
      - intros p [[= <-]|H]; [exists c; exact Hout|discriminate H].
      - intros p [H|H]; discriminate H. }
    destruct tar_error as [text|]; [exact Hhere|].
    specialize (IH (emptyDirSync host env outDir fs)).
    destruct (sync_each host env w contents (emptyDirSync host env outDir fs))
      as [[fs' eff] r].
    cbn [fst snd] in *. apply Forall_app. split; [exact Hhere|exact IH].
  - specialize (IH fs).
    destruct (sync_each host env w contents fs) as [[fs' eff] r]. cbn [fst snd] in *.
    constructor; [exact Hdl|exact IH].
Qed.

Lemma purge_each_output_dirs (remote structure : list IS3ContentData) (fs : FS) :
  Forall (fun e => forall p, e = EmptyDir p \/ e = RemoveDir p ->
                             exists c, getOutputDir host env c = Js.Ret (Some p))
    (purge_each host env remote structure fs).2.
Proof.
  revert fs. induction structure as [|item structure IH]; intros fs; [constructor|].
  cbn [purge_each]. destruct (existsb _ remote); [apply IH|].
  destruct (getOutputDir host env item) as [file|] eqn:Hout; [|constructor].
  destruct (existsSync fs file); [|apply IH].
  destruct file as [path|]; [|apply IH].
  specialize (IH (removeSync host env path fs)).
  destruct (purge_each host env remote structure (removeSync host env path fs)) as [fs' eff].
  cbn [fst snd] in *. constructor; [|exact IH].
  intros p [H|[= <-]]; [discriminate H|exists item; exact Hout].
Qed.

Lemma finish_output_dirs (before : list effect) (err : option string)
    (status : option (list IS3ContentData)) (fs : FS) :
  Forall (fun e => forall p, e = EmptyDir p \/ e = RemoveDir p ->
                             exists c, getOutputDir host env c = Js.Ret (Some p)) before ->
  Forall (fun e => forall p, e = EmptyDir p \/ e = RemoveDir p ->
                             exists c, getOutputDir host env c = Js.Ret (Some p))
    (finish host env service before err status fs).1.2.
Proof.
  intros Hb. unfold finish, final.
  destruct (lock_due err status), (existsSync fs _); cbn [andb negb fst snd];
    apply Forall_app; (split; [exact Hb|]); destruct service; cbn;
    repeat constructor; intros p [H|H]; discriminate H.
Qed.

Lemma loop_output_dirs (w : World) (fs : FS) :
  Forall (fun e => forall p, e = EmptyDir p \/ e = RemoveDir p ->
                             exists c, getOutputDir host env c = Js.Ret (Some p))
    (loop host env service false w fs).1.2.
Proof.
  assert (Hw : forall l,
             Forall (fun e => forall p, e = EmptyDir p \/ e = RemoveDir p ->
                                        exists c, getOutputDir host env c = Js.Ret (Some p)) l ->
             Forall (fun e => forall p, e = EmptyDir p \/ e = RemoveDir p ->
                                        exists c, getOutputDir host env c = Js.Ret (Some p))
               (Working true :: l)).
  { intros l Hl. constructor; [intros p [H|H]; discriminate H|exact Hl]. }
  unfold loop.
  destruct (ensure_data_dir w); [apply finish_output_dirs, Hw; constructor|].
  destruct (empty_sync_dir w); [apply finish_output_dirs, Hw; constructor|].
  destruct (listObjects w) as [text|remote]; [apply finish_output_dirs, Hw; constructor|].
  destruct (purgedContents host remote) as [contents|]; [|apply Hw; constructor].
  pose proof (sync_each_output_dirs w contents
                (ensureDir (Globals.COMPILER_DATA_PATH host env) fs)) as H1.
  destruct (sync_each host env w contents _) as [[fs1 eff1] r]. cbn [fst snd] in H1.
  destruct r as [[text|]| |]; try (apply Hw; exact H1).
  - apply finish_output_dirs, Hw. exact H1.
  - assert (H2 : Forall (fun e => forall p, e = EmptyDir p \/ e = RemoveDir p ->
                                  exists c, getOutputDir host env c = Js.Ret (Some p))
                   (purge host env contents fs1).2).
    { unfold purge. destruct (s3_structure fs1); try constructor.
      apply purge_each_output_dirs. }
    destruct (purge host env contents fs1) as [fs2 eff2]. cbn [fst snd] in H2.
    unfold save. destruct (writeFile w) as [|text remains];
      apply finish_output_dirs, Hw; apply Forall_app; (split; [exact H1|]);
      apply Forall_app; (split; [exact H2|]);
      repeat constructor; intros p [H|H]; discriminate H.
Qed.

(** What the final callback does about [ready.lock]. *)
Lemma finish_touch (before : list effect) (err : option string)
    (status : option (list IS3ContentData)) (fs : FS) :
  touched_ready_lock before = false ->
  touched_ready_lock (finish host env service before err status fs).1.2
  = lock_due err status && existsSync fs (Some (Globals.COMPILER_DATA_PATH host env)) /\
  ready_lock (finish host env service before err status fs).1.1
  = touched_ready_lock (finish host env service before err status fs).1.2 || ready_lock fs /\
  wiped_ready_lock host env (finish host env service before err status fs).1.2
  = wiped_ready_lock host env before /\
  s3_structure (finish host env service before err status fs).1.1 = s3_structure fs /\
  (finish host env service before err status fs).2
  = if lock_due err status && negb (existsSync fs (Some (Globals.COMPILER_DATA_PATH host env)))
    then Crashed else Completed err.
Proof.
  intros Hb. unfold finish, final. cbv zeta.
  destruct (lock_due err status), (existsSync fs _); cbn [andb negb fst snd];
    rewrite ?touched_app, ?wiped_app, ?Hb; destruct service; cbn;
    rewrite ?orb_false_r; auto.
Qed.

End UpdaterFacts.

Section UpdaterReadyLock.
Import Updater.
Variable host : Globals.Host.
Variable env : Globals.CocoonEnvironment.
Variable service : bool.

(** The two ways an iteration ends: in the final callback of the
    waterfall, or in an exception that skips it. *)
Lemma loop_cases (w : World) (fs : FS) :
  (exists before err status fs',
      loop host env service false w fs = finish host env service before err status fs' /\
      touched_ready_lock before = false /\
      ready_lock fs' = ready_lock fs && negb (wiped_ready_lock host env before) /\
      (err = None ->
       exists remote contents,
         listObjects w = inr remote /\
         purgedContents host remote = Js.Ret contents /\
         status = Some contents /\
         s3_structure fs' = Structure contents)) \/
  (exists fs' eff r,
      loop host env service false w fs = (fs', eff, r) /\
      (forall e, r <> Completed e) /\
      touched_ready_lock eff = false /\
      ready_lock fs' = ready_lock fs && negb (wiped_ready_lock host env eff)).
Proof.
  unfold loop.
  destruct (ensure_data_dir w) as [text|].
  { left. exists [Working true], (Some text), None, fs.
    cbn. rewrite andb_true_r. repeat split; discriminate. }
  set (fs0 := ensureDir (Globals.COMPILER_DATA_PATH host env) fs).
  assert (H0 : ready_lock fs0 = ready_lock fs) by reflexivity.
  destruct (empty_sync_dir w) as [text|].
  { left. exists [Working true], (Some text), None, fs0.
    cbn. rewrite andb_true_r. repeat split; discriminate. }
  destruct (listObjects w) as [text|remote] eqn:Elist.
  { left. exists [Working true], (Some text), None, fs0.
    cbn. rewrite andb_true_r. repeat split; discriminate. }
  destruct (purgedContents host remote) as [contents|] eqn:Epurged.
  2: { right. exists fs0, [Working true], Crashed.
       cbn. rewrite andb_true_r. repeat split; discriminate. }
  destruct (sync_each_quiet host env w contents fs0) as (Hq1 & Hl1 & Hm1 & _).
  destruct (sync_each host env w contents fs0) as [[fs1 eff1] r]. cbn [fst snd] in Hq1, Hl1, Hm1.
  rewrite H0 in Hl1.
  destruct r as [[text|]| |].
  - left. exists (Working true :: eff1), (Some text), (Some contents), fs1.
    repeat split; [exact Hq1 | exact Hl1 | discriminate].
  - destruct (purge_quiet host env contents fs1) as (Hq2 & Hl2 & _).
    destruct (purge host env contents fs1) as [fs2 eff2]. cbn [fst snd] in Hq2, Hl2.
    assert (Hbefore : touched_ready_lock
                        (Working true :: eff1 ++ eff2 ++ [RemoveSyncFolder; WriteManifest])
                      = false)
      by (change (Working true :: ?l) with ([Working true] ++ l)%list;
          rewrite !touched_app, Hq1, Hq2; reflexivity).
    assert (Hwiped : ready_lock fs2
                     = ready_lock fs
                       && negb (wiped_ready_lock host env
                                  (Working true :: eff1 ++ eff2
                                   ++ [RemoveSyncFolder; WriteManifest]))).
    { change (Working true :: ?l) with ([Working true] ++ l)%list.
      rewrite !wiped_app, Hl2, Hl1. cbn.
      destruct (ready_lock fs), (wiped_ready_lock host env eff1),
        (wiped_ready_lock host env eff2); reflexivity. }
    unfold save. destruct (writeFile w) as [|text remains].
    + left. exists (Working true :: eff1 ++ eff2 ++ [RemoveSyncFolder; WriteManifest])%list,
        None, (Some contents), (set_manifest (Structure contents) fs2).
      split; [reflexivity|]. split; [exact Hbefore|]. split; [exact Hwiped|].
      intros _. exists remote, contents. repeat split. exact Epurged.
    + left. exists (Working true :: eff1 ++ eff2 ++ [RemoveSyncFolder; WriteManifest])%list,
        (Some text), (Some contents), (set_manifest remains fs2).
      split; [reflexivity|]. split; [exact Hbefore|]. split; [exact Hwiped|]. discriminate.
  - right. exists fs1, (Working true :: eff1), Crashed.
    repeat split; [discriminate | exact Hq1 | exact Hl1].
  - right. exists fs1, (Working true :: eff1), Skipped.
    repeat split; [discriminate | exact Hq1 | exact Hl1].
Qed.


End UpdaterReadyLock.


(** C1 on the code: with the manifest of the last sync on disk (plugin
    Y), a bucket that has gained the plugin X is listed.  X is for this
    host, its key is not in the manifest, and [sync] gives it the status
    IGNORE: the iteration completes without downloading it and without
    creating its directory, yet records it in the new manifest.  Only
    the next iteration, which finds the key in the manifest and the
    directory missing, downloads it. *)
Theorem C1_new_key_ignored_in_first_iteration :
  Updater.isPlatformFile Scenario.linux Scenario.plugin_X = Js.Ret true /\
  Updater.syncObject Scenario.linux Globals.TESTING Scenario.synced_Y Scenario.plugin_X
  = Updater.IGNORE /\
  (Scenario.update (Scenario.bucket [Scenario.plugin_Y; Scenario.plugin_X]) Scenario.synced_Y).2
  = Updater.Completed None /\
  Updater.downloaded "plugins/X.tar.bz2"
    (Scenario.update (Scenario.bucket [Scenario.plugin_Y; Scenario.plugin_X])
       Scenario.synced_Y).1.2
  = false /\
  Updater.existsSync
    (Scenario.update (Scenario.bucket [Scenario.plugin_Y; Scenario.plugin_X])
       Scenario.synced_Y).1.1
    (Some (Scenario.plugins_dir "X"))
  = false /\
  Updater.s3_structure
    (Scenario.update (Scenario.bucket [Scenario.plugin_Y; Scenario.plugin_X])
       Scenario.synced_Y).1.1
  = Updater.Structure [Scenario.plugin_Y; Scenario.plugin_X] /\
  Updater.downloaded "plugins/X.tar.bz2"
    (Scenario.update (Scenario.bucket [Scenario.plugin_Y; Scenario.plugin_X])
       (Scenario.update (Scenario.bucket [Scenario.plugin_Y; Scenario.plugin_X])
          Scenario.synced_Y).1.1).1.2
  = true /\
  Updater.existsSync
    (Scenario.update (Scenario.bucket [Scenario.plugin_Y; Scenario.plugin_X])
       (Scenario.update (Scenario.bucket [Scenario.plugin_Y; Scenario.plugin_X])
          Scenario.synced_Y).1.1).1.1
    (Some (Scenario.plugins_dir "X"))
  = true.
Proof. vm_compute. repeat split. Qed.


(** [ready.lock] can go.  The archive [plugins/...tar.bz2] has the
    name [..], so its output directory is the data folder itself.  The
    first sync of a bucket that holds it empties the data folder and
    creates [ready.lock]; a later sync of a new version of the archive
    takes [ready.lock] away and the final callback creates it again.
    Once the archive has left the bucket, [purge] removes the data
    folder and [ready.lock] with it: with an empty listing the
    iteration completes and [ready.lock] is gone; with another entry
    in the listing the manifest is written, and the final callback
    throws on [ready.lock], which stays missing. *)
Lemma C6_ready_lock_goes_with_the_data_folder :
  Updater.getOutputDir Scenario.linux Globals.TESTING Scenario.plugin_dots
  = Js.Ret (Some Scenario.data_dir) /\
  Updater.under Scenario.data_dir (Updater.lock Scenario.linux Globals.TESTING) = true /\
  (Scenario.update (Scenario.bucket [Scenario.plugin_dots]) Scenario.fresh).1.2
  = [Updater.Working true; Updater.Download "plugins/...tar.bz2";
     Updater.EmptyDir Scenario.data_dir;
     Updater.Extract "plugins/...tar.bz2" Scenario.data_dir;
     Updater.RemoveSyncFolder; Updater.WriteManifest; Updater.RemoveSyncFolder;
     Updater.TouchReadyLock; Updater.Working false] /\
  Updater.ready_lock
    (Scenario.update (Scenario.bucket [Scenario.plugin_dots]) Scenario.fresh).1.1 = true /\
  Updater.s3_structure
    (Scenario.update (Scenario.bucket [Scenario.plugin_dots]) Scenario.fresh).1.1
  = Updater.Structure [Scenario.plugin_dots] /\
  Scenario.update (Scenario.bucket []) Scenario.synced_dots
  = ({| Updater.s3_structure := Updater.Structure [];
        Updater.dirs := Updater.dirs (Scenario.update (Scenario.bucket []) Scenario.synced_dots).1.1;
        Updater.ready_lock := false |},
     [Updater.Working true; Updater.RemoveDir Scenario.data_dir;
      Updater.RemoveSyncFolder; Updater.WriteManifest; Updater.RemoveSyncFolder;
      Updater.Working false],
     Updater.Completed None) /\
  Updater.existsSync (Scenario.update (Scenario.bucket []) Scenario.synced_dots).1.1
    (Some Scenario.data_dir) = false /\
  Scenario.update (Scenario.bucket [Scenario.plugin_Y]) Scenario.synced_dots
  = ({| Updater.s3_structure := Updater.Structure [Scenario.plugin_Y];
        Updater.dirs :=
          Updater.dirs
            (Scenario.update (Scenario.bucket [Scenario.plugin_Y]) Scenario.synced_dots).1.1;
        Updater.ready_lock := false |},
     [Updater.Working true; Updater.RemoveDir Scenario.data_dir;
      Updater.RemoveSyncFolder; Updater.WriteManifest; Updater.RemoveSyncFolder],
     Updater.Crashed).
Proof. vm_compute. repeat split. Qed.

(** Whatever the manifest on disk holds, an entry whose key it does not
    hold is not downloaded by [sync]. *)
Lemma syncObject_new_key
    (host : Globals.Host) (env : Globals.CocoonEnvironment)
    (fs : Updater.FS) (structure : list Updater.IS3ContentData)
    (contentData : Updater.IS3ContentData) :
  Updater.s3_structure fs = Updater.Structure structure ->
  Forall (fun item => Updater.Key item <> Updater.Key contentData) structure ->
  Updater.syncObject host env fs contentData = Updater.IGNORE.
Proof.
  intros Hs Hnew. unfold Updater.syncObject. rewrite Hs.
  now rewrite (getSyncStatus_new_key host env fs structure contentData Hnew).
Qed.

(** An IPC error without public message gets the whole log, not its
    tail. *)
Lemma augment_without_public_message
    (redact : string -> string) (cordova_log : option string) (err : BuilderError) :
  Js.truthy (msgPublic err) = false ->
  Compiler.augment redact cordova_log err
  = "CORDOVA LOG: " ++ Compiler.nl ++ Compiler.nl ++ Compiler.read_log redact cordova_log.
Proof. intros H. unfold Compiler.augment. now rewrite H. Qed.

Section UpdaterNewKey.
Import Updater.
Variable host : Globals.Host.
Variable env : Globals.CocoonEnvironment.
Variable service : bool.

Lemma downloaded_app (k : string) (a b : list effect) :
  downloaded k (a ++ b) = downloaded k a || downloaded k b.
Proof. apply existsb_app. Qed.

Lemma purge_each_no_download (k : string) (remote structure : list IS3ContentData) (fs : FS) :
  downloaded k (purge_each host env remote structure fs).2 = false.
Proof.
  revert fs. induction structure as [|item structure IH]; intros fs; [reflexivity|].
  cbn [purge_each]. destruct (existsb _ remote); [apply IH|].
  destruct (getOutputDir host env item) as [file|]; [|reflexivity].
  destruct (existsSync fs file); [|apply IH].
  destruct file as [path|]; [|apply IH].
  specialize (IH (removeSync host env path fs)).
  destruct (purge_each host env remote structure (removeSync host env path fs)) as [fs' eff].
  exact IH.
Qed.

(** [sync] downloads no object whose key the manifest on disk does not
    hold, whatever else it downloads on the way. *)
Lemma sync_each_skips_new_key
    (w : World) (k : string) (structure contents : list IS3ContentData) (fs : FS) :
  s3_structure fs = Structure structure ->
  Forall (fun item => Key item <> k) structure ->
  downloaded k (sync_each host env w contents fs).1.2 = false.
Proof.
  intros Hs Hnew. revert fs Hs.
  induction contents as [|c contents IH]; intros fs Hs; [reflexivity|].
  cbn [sync_each]. destruct (syncObject host env fs c) eqn:Estatus; try (apply IH; exact Hs).
  assert (Hk : String.eqb k (Key c) = false).
  { apply String.eqb_neq. intros ->.
    rewrite (syncObject_new_key host env fs structure c Hs Hnew) in Estatus. discriminate. }
  destruct (getObject w (Key c)) as [text | tar_error].
  { cbn. now rewrite Hk. }
  destruct (getOutputDir host env c) as [[outDir|]|] eqn:Hout.
  - destruct tar_error as [text|].
    + cbn. now rewrite Hk.
    + destruct (emptyDirSync_output host env c outDir fs Hout) as (Hm & _).
      rewrite Hs in Hm. specialize (IH (emptyDirSync host env outDir fs) Hm).
      destruct (sync_each host env w contents (emptyDirSync host env outDir fs))
        as [[fs' eff] r].
      cbn [fst snd] in *. rewrite downloaded_app, IH. cbn. now rewrite Hk.
  - specialize (IH fs Hs).
    destruct (sync_each host env w contents fs) as [[fs' eff] r].
    cbn [fst snd] in *. change (Download (Key c) :: eff) with ([Download (Key c)] ++ eff)%list.
    rewrite downloaded_app, IH. cbn. now rewrite Hk.
  - cbn. now rewrite Hk.
Qed.

Lemma finish_no_download (k : string) (before : list effect) (err : option string)
    (status : option (list IS3ContentData)) (fs : FS) :
  downloaded k (finish host env service before err status fs).1.2 = downloaded k before.
Proof.
  unfold finish, final.
  destruct (lock_due err status), (existsSync fs _); cbn [andb negb fst snd];
    rewrite downloaded_app; destruct service; cbn; apply orb_false_r.
Qed.

(** With a manifest on disk, an iteration never downloads an object
    whose key that manifest does not hold. *)
Lemma loop_skips_new_key (w : World) (k : string) (structure : list IS3ContentData) (fs : FS) :
  s3_structure fs = Structure structure ->
  Forall (fun item => Key item <> k) structure ->
  downloaded k (loop host env service false w fs).1.2 = false.
Proof.
  intros Hs Hnew. unfold loop.
  destruct (ensure_data_dir w); [apply finish_no_download|].
  destruct (empty_sync_dir w); [apply finish_no_download|].
  destruct (listObjects w) as [text|remote]; [apply finish_no_download|].
  destruct (purgedContents host remote) as [contents|]; [|reflexivity].
  pose proof (sync_each_skips_new_key w k structure contents
                (ensureDir (Globals.COMPILER_DATA_PATH host env) fs) Hs Hnew) as H1.
  destruct (sync_each host env w contents _) as [[fs1 eff1] r]. cbn [fst snd] in H1.
  destruct r as [[text|]| |].
  - rewrite finish_no_download. change (Working true :: eff1) with ([Working true] ++ eff1)%list.
    rewrite downloaded_app, H1. reflexivity.
  - assert (H2 : downloaded k (purge host env contents fs1).2 = false).
    { unfold purge. destruct (s3_structure fs1); try reflexivity.
      apply purge_each_no_download. }
    destruct (purge host env contents fs1) as [fs2 eff2]. cbn [fst snd] in H2.
    unfold save. destruct (writeFile w) as [|text remains];
      rewrite finish_no_download;
      change (Working true :: (eff1 ++ eff2 ++ [RemoveSyncFolder; WriteManifest])%list)
        with ([Working true] ++ eff1 ++ eff2 ++ [RemoveSyncFolder; WriteManifest])%list;
      rewrite !downloaded_app, H1, H2; reflexivity.
  - cbn [fst snd]. change (Working true :: eff1) with ([Working true] ++ eff1)%list.
    rewrite downloaded_app, H1. reflexivity.
  - cbn [fst snd]. change (Working true :: eff1) with ([Working true] ++ eff1)%list.
    rewrite downloaded_app, H1. reflexivity.
Qed.

End UpdaterNewKey.

(** * Further properties of the code *)

(** ** [globals.ts]: environments and platforms *)

Section GlobalsFacts.
Import Globals.

(** X1.  The name of an environment reads back as that environment,
    and a text that is not one of the three names stands for DEVELOP:
    [stringToEnv] never fails. *)
Theorem X1_environment_names_round_trip :
  (forall env, stringToEnv (envToString env) = env) /\
  (forall s, envToString (stringToEnv s) = s \/ stringToEnv s = DEVELOP).
Proof.
  split.
  - intros []; reflexivity.
  - intros s. unfold stringToEnv.
    destruct (String.eqb_spec s "develop") as [->|_]; [left; reflexivity|].
    destruct (String.eqb_spec s "testing") as [->|_]; [left; reflexivity|].
    destruct (String.eqb_spec s "production") as [->|_]; [left; reflexivity|].
    right; reflexivity.
Qed.

(** X2.  DEVELOP reads the bucket of TESTING and talks to the backend
    of TESTING, while the queue database is one per environment; no
    other two environments share a bucket. *)
Theorem X2_develop_shares_bucket_not_queue :
  BUCKET DEVELOP = BUCKET TESTING /\
  envToHost DEVELOP = envToHost TESTING /\
  (forall a b, BUCKET a = BUCKET b -> a = b \/ (a <> PRODUCTION /\ b <> PRODUCTION)) /\
  (forall a b, getMongoDBName a = getMongoDBName b -> a = b).
Proof.
  split; [reflexivity|]. split; [reflexivity|]. split.
  - intros [] []; vm_compute; intros H; try discriminate H;
      first [ left; reflexivity | right; split; discriminate ].
  - intros [] []; vm_compute; intros H; try discriminate H; reflexivity.
Qed.

(** X3.  Whatever the host, every platform the service asks
    compilations for has a builder in the launcher, and no platform is
    asked for by hosts of two different operating systems. *)
Theorem X3_local_platforms_have_builders :
  (forall host p,
      In p (getLocalPlatforms host) -> Launcher.known_platform p = true) /\
  (forall h1 h2 p,
      In p (getLocalPlatforms h1) -> In p (getLocalPlatforms h2) ->
      os_platform h1 = os_platform h2).
Proof.
  assert (Hcases : forall host,
             (os_platform host = "darwin" /\ getLocalPlatforms host = ["ios"; "osx"]) \/
             (os_platform host = "linux" /\ getLocalPlatforms host = ["ubuntu"; "android"]) \/
             (os_platform host = "win32" /\ getLocalPlatforms host = ["windows"]) \/
             getLocalPlatforms host = []).
  { intros host. unfold getLocalPlatforms.
    destruct (String.eqb_spec (os_platform host) "darwin") as [E|_]; [left; auto|].
    destruct (String.eqb_spec (os_platform host) "linux") as [E|_]; [right; left; auto|].
    destruct (String.eqb_spec (os_platform host) "win32") as [E|_]; [right; right; left; auto|].
    right; right; right; reflexivity. }
  split.
  - intros host p Hin.
    destruct (Hcases host) as [[_ E]|[[_ E]|[[_ E]|E]]]; rewrite E in Hin; cbn [In] in Hin;
      repeat (destruct Hin as [<-|Hin]; [reflexivity|]); destruct Hin.
  - intros h1 h2 p H1 H2.
    destruct (Hcases h1) as [[O1 E1]|[[O1 E1]|[[O1 E1]|E1]]]; rewrite E1 in H1; cbn [In] in H1;
    destruct (Hcases h2) as [[O2 E2]|[[O2 E2]|[[O2 E2]|E2]]]; rewrite E2 in H2; cbn [In] in H2;
      try (rewrite O1, O2; reflexivity);
      repeat (destruct H1 as [<-|H1]; [
        repeat (destruct H2 as [H2|H2]; [discriminate H2|]); destruct H2 |]);
      destruct H1.
Qed.

End GlobalsFacts.

(** X3 at work: the linux host asks for android, which has a builder. *)
Lemma X3_witness : Launcher.known_platform "android" = true.
Proof.
  apply (proj1 X3_local_platforms_have_builders Scenario.linux "android").
  vm_compute. right; left; reflexivity.
Defined.

(** ** [builder_launcher.ts] started from a console *)

Section LauncherConsole.
Import Launcher.


End LauncherConsole.


(** ** [builder.ts]: the order of the stages *)

Section WaterfallFailure.
Context {T W : Type}.
Variable exec : T -> W -> W * Async.outcome.

(** A sequence that does not end well ends with the task that failed. *)
Lemma waterfall_stopped (tasks : list T) (w : W) :
  (Async.waterfall exec tasks w).2 <> Async.Done ->
  exists before t w0,
    (Async.waterfall exec tasks w).1.1 = (before ++ [t])%list /\
    exec t w0 = ((Async.waterfall exec tasks w).1.2, (Async.waterfall exec tasks w).2).
Proof.
  revert w. induction tasks as [|t tasks IH]; intros w; cbn.
  - intros H. exfalso. apply H. reflexivity.
  - destruct (exec t w) as [w' o] eqn:E. destruct o as [|e|].
    + specialize (IH w').
      destruct (Async.waterfall exec tasks w') as [[tr w''] r]. cbn in *.
      intros H. destruct (IH H) as [before [t' [w0 [Htr Hex]]]].
      exists (t :: before), t', w0. rewrite Htr. split; [reflexivity|exact Hex].
    + intros _. exists [], t, w. split; [reflexivity|exact E].
    + intros _. exists [], t, w. split; [reflexivity|exact E].
Qed.

End WaterfallFailure.

Section StartFacts.
Import Builder.
Context {W : Type}.
Variable host : Globals.Host.
Variable env : Globals.CocoonEnvironment.
Variable data : ICompilation.
Variable run_stage : stage -> W -> W * Async.outcome.
Variable disk_of : W -> Disk.
Variable chdir : W -> bool.

(** X5.  The pipeline of the child runs its stages in the order init,
    create, prepare, build, pack and stops at the first stage that does
    not succeed: the stages run are an initial part of the five, all
    five when the callback gets no error, and when it gets an error it
    is the error of the last stage that ran.  Nothing that follows the
    stages runs a stage.  The callback is reached only if
    [process.chdir] to the project folder succeeds; it is not reached
    when a stage throws or when that call throws, and then nothing
    follows the call. *)
Theorem X5_stages_stop_at_first_failure (w : W) :
  exists stages after,
    (start host env data run_stage disk_of chdir w).1 = (map RunStage stages ++ after)%list /\
    Forall (fun e => forall s, e <> RunStage s) after /\
    (exists later, [Init; Create; Prepare; Build; Pack] = (stages ++ later)%list) /\
    ((start host env data run_stage disk_of chdir w).2 = Finished None ->
     stages = [Init; Create; Prepare; Build; Pack]) /\
    (forall e, (start host env data run_stage disk_of chdir w).2 = Finished (Some e) ->
       exists before s w0 w1,
         stages = (before ++ [s])%list /\ run_stage s w0 = (w1, Async.Failed e)) /\
    (forall err, (start host env data run_stage disk_of chdir w).2 = Finished err ->
       chdir (Async.waterfall run_stage [Init; Create; Prepare; Build; Pack] w).1.2 = true) /\
    ((start host env data run_stage disk_of chdir w).2 = Crashed ->
       (after = [] /\
        exists before s w0 w1,
          stages = (before ++ [s])%list /\ run_stage s w0 = (w1, Async.Thrown)) \/
       (after = [Chdir (getProjectPath host env (code data) (starttime data))] /\
        chdir (Async.waterfall run_stage [Init; Create; Prepare; Build; Pack] w).1.2 = false)).
Proof.
  unfold start.
  pose proof (waterfall_prefix run_stage [Init; Create; Prepare; Build; Pack] w) as Hpre.
  pose proof (waterfall_done run_stage [Init; Create; Prepare; Build; Pack] w) as Hdone.
  pose proof (waterfall_stopped run_stage [Init; Create; Prepare; Build; Pack] w) as Hstop.
  destruct (Async.waterfall run_stage [Init; Create; Prepare; Build; Pack] w) as [[tr w'] r].
  cbn [fst snd] in *.
  assert (Hafter : forall err,
             Forall (fun e : start_effect => forall s, e <> RunStage s)
               (final host env data disk_of chdir w' err).1).
  { intros err. unfold final. destruct (chdir w'); cbn [fst].
    - destruct (negb (Globals.env_eqb env Globals.DEVELOP)); cbn;
        repeat constructor; intros s; discriminate.
    - repeat constructor; intros s; discriminate. }
  destruct r as [|e|].
  - exists tr, (final host env data disk_of chdir w' None).1.
    split; [unfold final; destruct (chdir w'); reflexivity|].
    split; [exact (Hafter None)|]. split; [exact Hpre|].
    unfold final. destruct (chdir w'); cbn [fst snd].
    + split; [intros _; apply Hdone; reflexivity|].
      split; [intros e H; discriminate H|]. split; [reflexivity|intros H; discriminate H].
    + split; [intros H; discriminate H|].
      split; [intros e H; discriminate H|]. split; [intros err H; discriminate H|].
      intros _. right. split; reflexivity.
  - exists tr, (final host env data disk_of chdir w' (Some e)).1.
    split; [unfold final; destruct (chdir w'); reflexivity|].
    split; [exact (Hafter (Some e))|]. split; [exact Hpre|].
    unfold final. destruct (chdir w'); cbn [fst snd].
    + split; [intros H; discriminate H|].
      split; [|split; [reflexivity|intros H; discriminate H]].
      intros e' H. injection H as <-.
      destruct Hstop as [before [s [w0 [Htr Hex]]]]; [discriminate|].
      exists before, s, w0, w'. split; [exact Htr|exact Hex].
    + split; [intros H; discriminate H|].
      split; [intros e' H; discriminate H|]. split; [intros err H; discriminate H|].
      intros _. right. split; reflexivity.
  - exists tr, []. cbn. rewrite app_nil_r.
    split; [reflexivity|]. split; [constructor|]. split; [exact Hpre|].
    split; [intros H; discriminate H|].
    split; [intros e H; discriminate H|]. split; [intros err H; discriminate H|].
    intros _. left. split; [reflexivity|].
    destruct Hstop as [before [s [w0 [Htr Hex]]]]; [discriminate|].
    exists before, s, w0, w'. split; [exact Htr|exact Hex].
Qed.

End StartFacts.

(** X5 at work: when the build stage fails, pack is not run and the
    callback gets the error of the build stage. *)
Lemma X5_witness :
  (Builder.start Scenario.linux Globals.TESTING (Scenario.job "android" None)
     Scenario.build_fails (fun _ => Scenario.full_disk) (fun _ => true) tt).2
  = Builder.Finished (Some Scenario.gradle_failed) /\
  exists stages after before s w0 w1,
    (Builder.start Scenario.linux Globals.TESTING (Scenario.job "android" None)
       Scenario.build_fails (fun _ => Scenario.full_disk) (fun _ => true) tt).1
    = (map Builder.RunStage stages ++ after)%list /\
    stages = (before ++ [s])%list /\
    Scenario.build_fails s w0 = (w1, Async.Failed Scenario.gradle_failed).
Proof.
  split; [reflexivity|].
  destruct (X5_stages_stop_at_first_failure Scenario.linux Globals.TESTING
              (Scenario.job "android" None) Scenario.build_fails
              (fun _ => Scenario.full_disk) (fun _ => true) tt)
    as [stages [after [Heff [_ [_ [_ [Hfail _]]]]]]].
  destruct (Hfail Scenario.gradle_failed eq_refl) as [before [s [w0 [w1 [Hst Hrun]]]]].
  exists stages, after, before, s, w0, w1. auto.
Defined.

(** ** The pack stage of the Windows and Android builders *)

Section LiteralPrefix.
Import Regex.

(** A literal pattern consumes exactly its text. *)
Lemma run_str_starts_with (t : string) (tail : re) (k : cont) :
  forall (s : string) (c : captures),
    run (str t tail) k s c
    = if Js.starts_with t s then run tail k (Js.drop (String.length t) s) c else None.
Proof.
  induction t as [|a t IH]; intros s c.
  - reflexivity.
  - change (str (String a t) tail) with (Cat (lit a) (str t tail)).
    destruct s as [|b s]; [reflexivity|].
    cbn [run lit Js.starts_with String.length Js.drop]. unfold is_char.
    destruct (Ascii.eqb a b); [apply IH|reflexivity].
Qed.

End LiteralPrefix.

Section WindowsPack.
Import Builder WindowsBuilder.
Variable host : Globals.Host.
Variable env : Globals.CocoonEnvironment.
Variable data : ICompilation.

(** X7.  The pack stage of the Windows builder zips exactly the entries
    of [AppPackages] whose name begins with [CordovaApp], in the order
    of the listing; the dots the pattern asks for after that prefix
    are optional and do not narrow the choice. *)
Theorem X7_windows_pack_by_prefix (dirContents : list string) :
  (forall item, is_package item = Js.starts_with "CordovaApp" item) /\
  pack host env data dirContents
  = map (fun value => Path.join [getCordovaProjectPath host env (code data) (starttime data);
                                 "platforms"; "windows"; "AppPackages"; value])
        (List.filter (Js.starts_with "CordovaApp") dirContents).
Proof.
  assert (H : forall item, is_package item = Js.starts_with "CordovaApp" item).
  { intros item. unfold is_package, package_pattern.
    rewrite run_str_starts_with.
    destruct (Js.starts_with "CordovaApp" item); [|reflexivity].
    cbn [Regex.run].
    destruct (Regex.plus_from _ _ _ _); reflexivity. }
  split; [exact H|].
  unfold pack. f_equal. apply filter_ext. intros item. apply H.
Qed.

End WindowsPack.

Section AndroidPack.
Import Builder AndroidBuilder.
Variable data : ICompilation.

(** X8.  The pack stage of the Android builder asks for the output zip
    in every case, with exactly the files its filter accepts.  When no
    file is accepted it first reports the error [No matching APKs found
    for packaging] and still asks for the (empty) zip: the error does
    not end the stage. *)
Theorem X8_android_pack_always_zips (found : list string) :
  exists reported,
    pack data found = (reported ++ [CreateOutputZip (zipped data found)])%list /\
    (zipped data found <> [] -> reported = []) /\
    (zipped data found = [] ->
     reported = [Callback (new_BuilderError "No matching APKs found for packaging"
                             "Internal compiler error (code 0200)")]) /\
    (forall path, In path (zipped data found) <-> In path found /\ filterFn data path = true).
Proof.
  unfold pack, zipped.
  destruct (List.filter (filterFn data) found) as [|f files] eqn:E.
  - eexists. split; [reflexivity|]. split; [intros H; exfalso; apply H; reflexivity|].
    split; [reflexivity|]. intros path. rewrite <- E. apply filter_In.
  - eexists. split; [reflexivity|]. split; [reflexivity|].
    split; [discriminate|]. intros path. rewrite <- E. apply filter_In.
Qed.

End AndroidPack.

(** X8 at work: nothing but a text file in the output directory. *)
Lemma X8_witness :
  AndroidBuilder.pack (Scenario.job "android" None) ["/out/notes.txt"]
  = [AndroidBuilder.Callback Scenario.pack_failed; AndroidBuilder.CreateOutputZip []].
Proof.
  destruct (X8_android_pack_always_zips (Scenario.job "android" None) ["/out/notes.txt"])
    as [reported [Hpack [_ [Hnone _]]]].
  rewrite Hpack, (Hnone eq_refl). reflexivity.
Defined.

(** ** [builder.ts]: the plugins asked of cordova *)

Section PluginFacts.
Import Builder.

Lemma is_url_consumes (s : option string) :
  is_url s = true <-> exists rest, Regex.consumes regexURL (Js.show s) rest.
Proof.
  unfold is_url. split.
  - destruct (Regex.run regexURL Regex.accept (Js.show s) []) eqn:E; [intros _|discriminate].
    apply run_consumes in E as (rest & _ & H & _). exists rest. exact H.
  - intros [rest H].
    destruct (Regex.run regexURL Regex.accept (Js.show s) []) eqn:E; [reflexivity|].
    exfalso. apply (consumes_run regexURL Regex.accept _ _ H (fun c => ltac:(discriminate)) [] E).
Qed.

(** What the pattern of [installPlugin] accepts: a text that begins,
    in upper or lower case, with [http://] or [https://]. *)
Lemma is_url_scheme (s : option string) :
  is_url s = true <->
  exists scheme rest,
    Js.show s = scheme ++ rest /\ In (Regex.folded scheme) ["http://"; "https://"].
Proof.
  rewrite is_url_consumes. unfold regexURL. cbn [Regex.consumes]. split.
  - intros [rest H]. apply consumes_str_i in H as (t1 & m1 & -> & Ht1 & H).
    cbn [Regex.consumes] in H. destruct H as (m2 & Hs & H).
    apply consumes_str_i in H as (t3 & m3 & -> & Ht3 & H).
    apply consumes_eps_iff in H. subst rest.
    destruct Hs as [(a & -> & Ha)| <-].
    + apply Ascii.eqb_eq in Ha.
      exists (t1 ++ String a t3), m3. split; [now rewrite !append_assoc|].
      rewrite folded_app. cbn [Regex.folded]. rewrite Ht1, Ht3, <- Ha. right; left. reflexivity.
    + exists (t1 ++ t3), m3. split; [now rewrite !append_assoc|].
      rewrite folded_app, Ht1, Ht3. left. reflexivity.
  - intros (scheme & rest & Hshow & [H|[H|[]]]); exists rest; rewrite Hshow.
    + symmetry in H. apply (folded_split "http" "://") in H as (t1 & t3 & -> & H1 & H3).
      apply consumes_str_i. exists t1, (t3 ++ rest). split; [apply append_assoc|].
      split; [exact H1|]. cbn [Regex.consumes]. exists (t3 ++ rest). split; [right; reflexivity|].
      apply consumes_str_i. exists t3, rest. split; [reflexivity|]. split; [exact H3|].
      now apply consumes_eps_iff.
    + symmetry in H. apply (folded_split "http" "s://") in H as (t1 & t2 & -> & H1 & H2).
      apply (folded_split "s" "://") in H2 as (ts & t3 & -> & Hs & H3).
      destruct ts as [|a [|b ts]]; try discriminate Hs. cbn in Hs. injection Hs as Ha.
      apply consumes_str_i. exists t1, (String a t3 ++ rest).
      split; [now rewrite !append_assoc|].
      split; [exact H1|]. cbn [Regex.consumes]. exists (t3 ++ rest). split.
      * left. exists a. split; [reflexivity|]. cbn [Regex.lit_i]. rewrite Ha. reflexivity.
      * apply consumes_str_i. exists t3, rest. split; [reflexivity|]. split; [exact H3|].
        now apply consumes_eps_iff.
Qed.

(** X9.  What [installPlugin] asks cordova to add.  A text is taken
    for a URL exactly when it begins, in upper or lower case, with
    [http://] or [https://].  When the [spec] of the plugin is a URL
    the plugin is asked for by this [spec], whatever its name; else,
    when its name is a URL, by this name; else as [name@spec], or as
    [name@*] when there is no [spec] or an empty one.  So the request
    is either a URL or [name@version] with a version that is never
    empty. *)
Theorem X9_plugin_id_is_url_or_versioned (plugin : plugin_attrib) :
  (is_url (plugin_spec plugin) = true -> pluginID plugin = Js.show (plugin_spec plugin)) /\
  (Js.truthy (plugin_spec plugin) = false -> is_url (plugin_name plugin) = false ->
   pluginID plugin = Js.show (plugin_name plugin) ++ "@*") /\
  (is_url (Some (pluginID plugin)) = true \/
   exists version,
     version <> "" /\ pluginID plugin = Js.show (plugin_name plugin) ++ "@" ++ version) /\
  (is_url (plugin_spec plugin) = false -> is_url (plugin_name plugin) = true ->
   pluginID plugin = Js.show (plugin_name plugin)) /\
  (is_url (plugin_spec plugin) = false -> is_url (plugin_name plugin) = false ->
   Js.truthy (plugin_spec plugin) = true ->
   pluginID plugin = Js.show (plugin_name plugin) ++ "@" ++ Js.show (plugin_spec plugin)) /\
  (forall s,
      is_url s = true <->
      exists scheme rest,
        Js.show s = scheme ++ rest /\ In (Regex.folded scheme) ["http://"; "https://"]) /\
  (forall s, Js.truthy s = true <-> exists text, s = Some text /\ text <> "").
Proof.
  unfold pluginID. split; [|split; [|split; [|split; [|split; [|split]]]]].
  - intros ->. reflexivity.
  - intros Hspec Hname. rewrite Hname, Hspec.
    destruct (is_url (plugin_spec plugin)) eqn:Hurl; [|reflexivity].
    exfalso. destruct (plugin_spec plugin) as [s|]; [|discriminate Hurl].
    cbn in Hspec. destruct s; [discriminate Hurl|discriminate Hspec].
  - destruct (is_url (plugin_spec plugin)) eqn:Hspec.
    { left. exact Hspec. }
    destruct (is_url (plugin_name plugin)) eqn:Hname.
    { left. exact Hname. }
    right. destruct (Js.truthy (plugin_spec plugin)) eqn:Ht.
    + exists (Js.show (plugin_spec plugin)). split; [|reflexivity].
      destruct (plugin_spec plugin) as [s|]; [|discriminate Ht].
      cbn in *. intros ->. discriminate Ht.
    + exists "*". split; [discriminate|reflexivity].
  - intros -> ->. reflexivity.
  - intros -> -> ->. reflexivity.
  - exact is_url_scheme.
  - intros [text|]; cbn [Js.truthy]; split.
    + intros H. exists text. split; [reflexivity|]. intros ->. discriminate H.
    + intros (t & [= <-] & Hne). apply negb_true_iff. now apply String.eqb_neq.
    + discriminate.
    + intros (t & H & _). discriminate H.
Qed.

End PluginFacts.

(** X9 at work: a plugin given by name only. *)
Lemma X9_witness :
  Builder.pluginID {| Builder.plugin_name := Some "cordova-plugin-camera";
                      Builder.plugin_spec := None |}
  = "cordova-plugin-camera@*".
Proof.
  apply (proj1 (proj2 (X9_plugin_id_is_url_or_versioned
                         {| Builder.plugin_name := Some "cordova-plugin-camera";
                            Builder.plugin_spec := None |}))).
  - reflexivity.
  - reflexivity.
Defined.

(** ** [service.ts]: stopping, registering and starting a service *)

Section ServiceFacts.
Import Service.
Variable env : Globals.CocoonEnvironment.
Variable service : bool.
Variable id : string.
Variable loopInterval : Z.

Lemma clearInterval_not_running (t : timer) : clearInterval t <> Running.
Proof. destruct t; discriminate. Qed.

Lemma clearInterval_stopped (t : timer) : t <> Running -> clearInterval t = t.
Proof. destruct t; [reflexivity| |reflexivity]. intros H. exfalso. apply H. reflexivity. Qed.

Lemma stop_intervals_emit (e : list effect) (s : state) :
  stop_intervals (emit e s)
  = (stop_intervals s + List.length (List.filter is_stop_interval e))%nat.
Proof. unfold stop_intervals, emit. cbn [trace]. now rewrite List.filter_app, length_app. Qed.

(** One call of [stop] while the service works. *)
Lemma stop_at_work (s : state) :
  _working s = true ->
  _working (stop env service id s) = true /\
  exited (stop env service id s) = exited s /\
  requests (stop env service id s) = requests s /\
  _loopIntervalId (stop env service id s) = clearInterval (_loopIntervalId s) /\
  _stopIntervalId (stop env service id s) <> Null /\
  (_stopIntervalId s <> Null -> _stopIntervalId (stop env service id s) = _stopIntervalId s) /\
  stop_intervals (stop env service id s)
  = (stop_intervals s + (if is_null (_stopIntervalId s) then 1 else 0))%nat.
Proof.
  intros Hw. unfold stop. rewrite Hw. cbn [set_timers _stopIntervalId].
  destruct (_stopIntervalId s) eqn:Hs; cbn [is_null].
  - rewrite stop_intervals_emit. unfold exited, requests. cbn.
    rewrite existsb_app, flat_map_app. cbn. rewrite orb_false_r, app_nil_r.
    repeat split; try reflexivity; try discriminate; try exact Hw.
    intros H. exfalso. apply H. reflexivity.
  - unfold exited, requests, stop_intervals. cbn.
    repeat split; try reflexivity; try discriminate; try exact Hw;
      try (intros _; reflexivity); lia.
  - unfold exited, requests, stop_intervals. cbn.
    repeat split; try reflexivity; try discriminate; try exact Hw;
      try (intros _; reflexivity); lia.
Qed.

(** X10.  While the service works, [stop] never ends the process and
    sends nothing, however often it is called: the first call stops the
    loop interval and creates the stop interval, and every further call
    (the signal again, or the stop interval itself) finds that interval
    and creates no second one. *)
Theorem X10_stop_waits_for_the_work (n : nat) (s : state) :
  _working s = true ->
  _working (Nat.iter n (stop env service id) s) = true /\
  exited (Nat.iter n (stop env service id) s) = exited s /\
  requests (Nat.iter n (stop env service id) s) = requests s /\
  ((0 < n)%nat ->
   _loopIntervalId (Nat.iter n (stop env service id) s) <> Running /\
   _stopIntervalId (Nat.iter n (stop env service id) s) <> Null /\
   stop_intervals (Nat.iter n (stop env service id) s)
   = (stop_intervals s + (if is_null (_stopIntervalId s) then 1 else 0))%nat).
Proof.
  intros Hw. induction n as [|n IH].
  - cbn. repeat split; try assumption; lia.
  - rewrite Nat.iter_succ. destruct IH as [IHw [IHe [IHr IHn]]].
    destruct (stop_at_work (Nat.iter n (stop env service id) s) IHw)
      as [Sw [Se [Sr [Sl [Sn [Skeep Scount]]]]]].
    split; [exact Sw|]. split; [now rewrite Se|]. split; [now rewrite Sr|].
    intros _. split; [rewrite Sl; apply clearInterval_not_running|].
    split; [exact Sn|].
    destruct n as [|n].
    + exact Scount.
    + destruct IHn as [_ [Hnn Hc]]; [lia|].
      rewrite Scount, Hc.
      destruct (_stopIntervalId (Nat.iter (S n) (stop env service id) s)); cbn [is_null];
        [exfalso; apply Hnn; reflexivity|lia|lia].
Qed.

(** X11.  Outside DEVELOP a registration is a chain of up to three
    POSTs, each sent only after the one before was answered with a
    status in [[200, 400)]: the host, then the service, then the
    heartbeat.  In DEVELOP [register] sends nothing.  In no case does
    it touch the working flag or end the process. *)
Theorem X11_registration_chain (b : Backend) (s : state) :
  (env = Globals.DEVELOP -> register env id b s = s) /\
  (env <> Globals.DEVELOP ->
   requests (register env id b s)
   = (requests s ++
      ("POST", compilers_uri env) ::
      (if ok (compilers_answer b)
       then ("POST", (compilers_uri env ++ "/" ++ Js.show (_ipAddress s))%string) ::
            (if ok (service_answer b)
             then [("POST", (compilers_uri env ++ "/" ++ Js.show (_ipAddress s) ++ "/" ++ id
                             ++ "/heartbeat")%string)]
             else [])
       else []))%list) /\
  _working (register env id b s) = _working s /\
  exited (register env id b s) = exited s.
Proof.
  unfold register, register_answered, register_request, registerService, heartbeat.
  destruct env; cbn [Globals.env_eqb].
  - split; [reflexivity|]. split; [intros H; exfalso; apply H; reflexivity|].
    split; reflexivity.
  - split; [discriminate|].
    destruct (ok (compilers_answer b)), (ok (service_answer b));
      unfold requests, exited, emit; cbn [trace _working _ipAddress];
      rewrite ?flat_map_app, ?existsb_app, <- ?app_assoc; cbn;
      rewrite ?orb_false_r; repeat split; reflexivity.
  - split; [discriminate|].
    destruct (ok (compilers_answer b)), (ok (service_answer b));
      unfold requests, exited, emit; cbn [trace _working _ipAddress];
      rewrite ?flat_map_app, ?existsb_app, <- ?app_assoc; cbn;
      rewrite ?orb_false_r; repeat split; reflexivity.
Qed.

(** X12.  A service that is not working stops at once: [onStop], the
    DELETE that takes it off the backend's list, then the exit with
    code 0; as a daemon it leaves no loop or heartbeat interval
    running.  The DELETE is sent in every environment: in DEVELOP,
    where [register] sends nothing, [stop] still asks the backend of
    TESTING to drop the service. *)
Theorem X12_stop_when_idle (s : state) :
  _working s = false ->
  trace (stop env service id s)
  = (trace s ++ [OnStop;
                 Request "DELETE"
                   (compilers_uri env ++ "/" ++ Js.show (_ipAddress s) ++ "/" ++ id)%string;
                 ProcessExit 0])%list /\
  exited (stop env service id s) = true /\
  (service = true ->
   _loopIntervalId (stop env service id s) <> Running /\
   _heartbeatIntervalId (stop env service id s) <> Running) /\
  (env = Globals.DEVELOP ->
   forall b, requests (register env id b s) = requests s /\
   requests (stop env service id s)
   = (requests s ++
      [("DELETE", ("https://admin-testing.cocoon.io/api/v1/compilers/"
                   ++ Js.show (_ipAddress s) ++ "/" ++ id)%string)])%list).
Proof.
  intros Hw. unfold stop. rewrite Hw.
  assert (Htrace :
    trace (emit [ProcessExit 0]
             (deregister env id
                (working false
                   (if service
                    then set_timers (clearInterval (_loopIntervalId (emit [OnStop] s)))
                           (_stopIntervalId (emit [OnStop] s))
                           (clearInterval (_heartbeatIntervalId (emit [OnStop] s)))
                           (emit [OnStop] s)
                    else emit [OnStop] s))))
    = (trace s ++ [OnStop;
                   Request "DELETE"
                   (compilers_uri env ++ "/" ++ Js.show (_ipAddress s) ++ "/" ++ id)%string;
                   ProcessExit 0])%list).
  { destruct service; unfold deregister, emit, working, set_timers; cbn;
      rewrite <- !app_assoc; reflexivity. }
  split; [exact Htrace|]. split; [|split].
  - unfold exited. rewrite Htrace, existsb_app. cbn. apply orb_true_r.
  - intros ->. cbn. split; apply clearInterval_not_running.
  - intros -> b. split.
    + reflexivity.
    + unfold requests. rewrite Htrace, flat_map_app. reflexivity.
Qed.

(** X13.  As a daemon a service starts once: a second [start] finds the
    loop interval and does nothing.  When the address of the host
    cannot be found, [start] goes straight to [stop] after [onStart]:
    a service that is not working by then ends with code 0 without
    having set an interval; a service that is (the Updater, whose
    [onStart] runs the first iteration) waits for that work. *)
Theorem X13_start_once (onStart : state -> state) (b : Backend) (s : state) :
  _loopIntervalId s = Null ->
  (forall ip,
      service = true ->
      start env service id loopInterval onStart (inl ip) b
        (start env service id loopInterval onStart (inl ip) b s)
      = start env service id loopInterval onStart (inl ip) b s) /\
  (forall text,
      _working (onStart s) = false ->
      trace (start env service id loopInterval onStart (inr text) b s)
      = (trace (onStart s) ++
         [OnStop;
          Request "DELETE"
            (compilers_uri env ++ "/" ++ Js.show (_ipAddress (onStart s)) ++ "/" ++ id)%string;
          ProcessExit 0])%list) /\
  (forall text,
      _working (onStart s) = true ->
      exited (start env service id loopInterval onStart (inr text) b s) = exited (onStart s) /\
      _stopIntervalId (start env service id loopInterval onStart (inr text) b s) <> Null).
Proof.
  intros Hnull. split; [|split].
  - intros ip ->.
    assert (Hrun : _loopIntervalId (start env true id loopInterval onStart (inl ip) b s)
                   = Running).
    { unfold start. rewrite Hnull. cbn [is_null].
      unfold register_answered, register_request, registerService, heartbeat.
      destruct env; cbn [Globals.env_eqb]; [reflexivity| |];
        destruct (ok (compilers_answer b)), (ok (service_answer b)); reflexivity. }
    unfold start at 1. rewrite Hrun. reflexivity.
  - intros text Hw. unfold start. rewrite Hnull. cbn [is_null].
    unfold stop. rewrite Hw.
    destruct service; unfold deregister, emit, working, set_timers; cbn;
      rewrite <- !app_assoc; reflexivity.
  - intros text Hw. unfold start. rewrite Hnull. cbn [is_null].
    destruct (stop_at_work (onStart s) Hw) as [_ [He [_ [_ [Hn _]]]]].
    split; assumption.
Qed.

End ServiceFacts.

(** X10 at work: SIGTERM three times while the service works. *)
Lemma X10_witness :
  Service.exited (Nat.iter 3 (Service.stop Globals.TESTING true "cocoon-compiler") Scenario.busy)
  = false /\
  Service.stop_intervals
    (Nat.iter 3 (Service.stop Globals.TESTING true "cocoon-compiler") Scenario.busy) = 1%nat.
Proof.
  destruct (X10_stop_waits_for_the_work Globals.TESTING true "cocoon-compiler" 3 Scenario.busy
              eq_refl) as [_ [He [_ Hn]]].
  split; [exact He|].
  destruct Hn as [_ [_ Hc]]; [lia|]. exact Hc.
Defined.

(** X11 at work: the backend refuses the host, the service is not
    registered. *)
Lemma X11_witness :
  Service.requests
    (Service.register Globals.PRODUCTION "cocoon-compiler"
       {| Service.compilers_answer := Service.Status 503;
          Service.service_answer := Service.Status 200 |} Scenario.busy)
  = [("POST", "https://admin.cocoon.io/api/v1/compilers")].
Proof.
  apply (proj1 (proj2 (X11_registration_chain Globals.PRODUCTION "cocoon-compiler"
                         {| Service.compilers_answer := Service.Status 503;
                            Service.service_answer := Service.Status 200 |} Scenario.busy))).
  discriminate.
Defined.

(** X12 at work: a service in DEVELOP that is not working is taken off
    the list of the backend of TESTING. *)
Lemma X12_witness :
  Service.requests (Service.stop Globals.DEVELOP true "cocoon-updater" Service.constructed)
  = [("DELETE", "https://admin-testing.cocoon.io/api/v1/compilers/undefined/cocoon-updater")].
Proof.
  apply (proj2 (proj2 (proj2 (proj2 (X12_stop_when_idle Globals.DEVELOP true "cocoon-updater"
                                       Service.constructed eq_refl))) eq_refl Scenario.backend_up)).
Defined.

(** X13 at work: the freshly constructed Notifier cannot find its
    address. *)
Lemma X13_witness :
  Service.exited
    (Service.start Globals.TESTING true "cocoon-notifier" 5000 (fun s => s)
       (inr "no network interface") Scenario.backend_up Service.constructed) = true.
Proof.
  unfold Service.exited.
  rewrite (proj1 (proj2 (X13_start_once Globals.TESTING true "cocoon-notifier"
                           5000 (fun s => s) Scenario.backend_up
                           Service.constructed eq_refl))
             "no network interface" eq_refl).
  reflexivity.
Defined.

(** ** [notifier.ts]: the working flag, broken payloads and the result file *)

Section NotifierMore.
Import Notifier.
Variable host : Globals.Host.
Variable env : Globals.CocoonEnvironment.
Variable envToHost : Globals.CocoonEnvironment -> string.

Lemma clean_cleaning (n : INotificationData) : Forall cleaning (clean host env n).
Proof.
  unfold clean. destruct (negb (Globals.env_eqb env Globals.DEVELOP)); repeat constructor.
Qed.

(** X14.  An iteration of the Notifier that starts sets the working
    flag first and clears it exactly once, whatever the queue and the
    backend answer; every request to the queue or to the backend lies
    between the two, and after the flag is cleared the iteration only
    cleans up.  An iteration that finds the flag set does nothing. *)
Theorem X14_notifier_clears_working_once (w : World) :
  loop host env envToHost true w = [] /\
  exists during after,
    loop host env envToHost false w
    = (Working true :: during ++ Working false :: after)%list /\
    Forall queue_or_post during /\
    Forall cleaning after.
Proof.
  split; [reflexivity|].
  unfold loop.
  destruct (get w) as [text|[msg|]].
  - exists [QueueGet], []. repeat constructor.
  - destruct (MAX_RETRIES_NUMBER <? tries msg).
    + exists [QueueGet; QueueAck (ack msg)].
      destruct (ack_error w).
      * exists []. repeat constructor.
      * exists (clean host env (payload msg)).
        split; [reflexivity|]. split; [repeat constructor|apply clean_cleaning].
    + destruct (negb (Js.truthy (n_code (payload msg)))).
      * exists [QueueGet], (clean host env (payload msg)).
        split; [reflexivity|]. split; [repeat constructor|apply clean_cleaning].
      * unfold send. destruct (Globals.env_eqb env Globals.DEVELOP).
        { destruct (ack_error w).
          - exists [QueueGet; QueuePing (ack msg); QueueAck (ack msg)], [].
            repeat constructor.
          - exists [QueueGet; QueuePing (ack msg); QueueAck (ack msg)],
              (QueueClean :: clean host env (payload msg)).
            split; [reflexivity|]. split; [repeat constructor|].
            constructor; [exact I|apply clean_cleaning]. }
        destruct (post w) as [text|statusCode description].
        { exists [QueueGet; QueuePing (ack msg); Post (url env envToHost (payload msg))], [].
          repeat constructor. }
        destruct ((200 <=? statusCode) && (statusCode <? 400)).
        { destruct (ack_error w).
          - exists [QueueGet; QueuePing (ack msg); Post (url env envToHost (payload msg));
                    QueueAck (ack msg)], [].
            repeat constructor.
          - exists [QueueGet; QueuePing (ack msg); Post (url env envToHost (payload msg));
                    QueueAck (ack msg)],
              (QueueClean :: clean host env (payload msg)).
            split; [reflexivity|]. split; [repeat constructor|].
            constructor; [exact I|apply clean_cleaning]. }
        exists [QueueGet; QueuePing (ack msg); Post (url env envToHost (payload msg))], [].
        repeat constructor.
  - exists [QueueGet], []. repeat constructor.
Qed.

(** X15.  A notification whose payload has no code (missing or empty)
    is neither sent nor acknowledged: the iteration clears the flag
    and cleans the workspace named after the missing code.  The
    message stays in flight and comes back until its tries exceed the
    limit. *)
Theorem X15_notification_without_code (w : World) (msg : IMongoQueueMessage) :
  get w = GetMessage (Some msg) ->
  tries msg <= MAX_RETRIES_NUMBER ->
  Js.truthy (n_code (payload msg)) = false ->
  loop host env envToHost false w
  = ([Working true; QueueGet; Working false] ++ clean host env (payload msg))%list /\
  posted (loop host env envToHost false w) = false /\
  acked (loop host env envToHost false w) = false.
Proof.
  intros Hget Htries Hcode.
  assert (Hloop : loop host env envToHost false w
                  = ([Working true; QueueGet; Working false] ++ clean host env (payload msg))%list).
  { unfold loop. rewrite Hget.
    replace (MAX_RETRIES_NUMBER <? tries msg) with false by (symmetry; apply Z.ltb_ge; lia).
    rewrite Hcode. reflexivity. }
  split; [exact Hloop|]. rewrite Hloop.
  destruct (clean_never_posts_or_acks host env (payload msg)) as [Hp Ha].
  unfold posted, acked in *. rewrite !existsb_app, Hp, Ha. split; reflexivity.
Qed.

(** X16.  The result file the Notifier attaches is the last entry of
    the [out] folder whose name does not begin with a dot, as
    [readdirSync] lists it; there is none when the folder cannot be
    read or holds only such entries.  The second test of the filter,
    for a leading [..], adds nothing to the first. *)
Theorem X16_result_file_is_last_visible_entry (n : INotificationData) :
  (forall value, hidden value = Js.starts_with "." value) /\
  getOutputFile host env Js.Throw n = None /\
  (forall files,
      Forall (fun value => hidden value = true) files ->
      getOutputFile host env (Js.Ret files) n = None) /\
  (forall before value after,
      hidden value = false ->
      Forall (fun value => hidden value = true) after ->
      getOutputFile host env (Js.Ret (before ++ value :: after)%list) n
      = Some (Path.join [Globals.PROJECTS_PATH host env;
                         Js.show (n_code n) ++ "_" ++ pretty (n_starttime n);
                         "out"; value])).
Proof.
  assert (Hnone : forall files,
             Forall (fun value => hidden value = true) files ->
             List.filter (fun value => negb (hidden value)) files = []).
  { intros files H. induction H as [|v files Hv _ IH]; [reflexivity|].
    cbn. rewrite Hv. exact IH. }
  split; [|split; [reflexivity|split]].
  - intros value. unfold hidden, Js.index_of_is_zero.
    destruct value as [|a value]; [reflexivity|].
    cbn [Js.starts_with]. destruct (Ascii.eqb "." a); reflexivity.
  - intros files H. unfold getOutputFile. rewrite (Hnone files H). reflexivity.
  - intros before value after Hv Hafter. unfold getOutputFile.
    rewrite List.filter_app. cbn [List.filter]. rewrite Hv. cbn [negb].
    rewrite (Hnone after Hafter), map_app. cbn [map].
    apply last_snoc.
Qed.

End NotifierMore.

(** X15 at work: the payload of the message has lost its code. *)
Lemma X15_witness :
  Notifier.loop Scenario.linux Globals.TESTING Scenario.envToHost false
    {| Notifier.get := Notifier.GetMessage (Some Scenario.without_code);
       Notifier.ping_error := None;
       Notifier.post := Notifier.Response 200 None;
       Notifier.ack_error := None |}
  = [Notifier.Working true; Notifier.QueueGet; Notifier.Working false;
     Notifier.RemoveSync
       "/home/cocoon/opt/cocoon_compiler/workspace/testing/projects/undefined_1534809600000"].
Proof.
  apply (X15_notification_without_code Scenario.linux Globals.TESTING Scenario.envToHost
           {| Notifier.get := Notifier.GetMessage (Some Scenario.without_code);
              Notifier.ping_error := None;
              Notifier.post := Notifier.Response 200 None;
              Notifier.ack_error := None |} Scenario.without_code).
  - reflexivity.
  - vm_compute. discriminate.
  - reflexivity.
Defined.

(** X16 at work: the zip of the build next to a hidden file. *)
Lemma X16_witness :
  Notifier.getOutputFile Scenario.linux Globals.TESTING
    (Js.Ret ["A1_android_1534809700000.zip"; ".DS_Store"]) Scenario.failed_notification
  = Some "/home/cocoon/opt/cocoon_compiler/workspace/testing/projects/A1_1534809600000/out/A1_android_1534809700000.zip".
Proof.
  apply (proj2 (proj2 (proj2 (X16_result_file_is_last_visible_entry Scenario.linux
                                Globals.TESTING Scenario.failed_notification)))
           [] "A1_android_1534809700000.zip" [".DS_Store"]).
  - reflexivity.
  - repeat constructor.
Defined.

(** ** [compiler.ts]: the result of a build is final *)

Section CompilerResult.
Import Compiler.
Variable redact : string -> string.
Variable cordova_log : option string.

Lemma latched_spawned : latched spawned.
Proof. split; [split; [discriminate|intros H; exfalso; apply H; reflexivity]|discriminate]. Qed.

Lemma latched_finishBuild (error : option BuilderError) (s : state) :
  (cbCalled s = true <-> resolved s <> None) -> latched (finishBuild error s).
Proof.
  intros Hres. unfold latched, finishBuild. cbn.
  split; [split; [intros _|reflexivity]|reflexivity].
  destruct (cbCalled s) eqn:Hc; [apply Hres; reflexivity|discriminate].
Qed.

Lemma latched_preserved_by_handle (e : event) (s : state) :
  latched s -> latched (handle redact cordova_log e s).
Proof.
  intros H. destruct e as [buffer|buffer|[err|]|exit_code signal|err]; cbn;
    try exact H; try (apply latched_finishBuild; exact (proj1 H)).
  unfold on_exit. destruct exit_code as [[| |]|]; apply latched_finishBuild; exact (proj1 H).
Qed.

Lemma latched_preserved_by_fire_due (t : Z) (s : state) :
  latched s -> latched (fire_due t s).
Proof.
  intros H. rewrite fire_due_eq. destruct (watchdogTimer s) as [due|]; [|exact H].
  destruct (due <=? t); [|exact H].
  unfold watchdog_fire. apply latched_finishBuild. exact (proj1 H).
Qed.

Lemma latched_preserved_by_run (evs : list (Z * event)) (s : state) :
  latched s -> latched (run redact cordova_log evs s).
Proof.
  revert s. induction evs as [|[t e] evs IH]; intros s H; [exact H|].
  cbn [run]. apply IH, latched_preserved_by_handle, latched_preserved_by_fire_due, H.
Qed.

Lemma kills_fire_due_cleared (t : Z) (s : state) :
  watchdogTimer s = None -> fire_due t s = s.
Proof. intros H. unfold fire_due. rewrite H. reflexivity. Qed.

Lemma kills_run_latched (evs : list (Z * event)) (s : state) :
  latched s -> cbCalled s = true ->
  kills (run redact cordova_log evs s) = kills s.
Proof.
  revert s. induction evs as [|[t e] evs IH]; intros s Hl Hc; [reflexivity|].
  cbn [run]. rewrite (kills_fire_due_cleared t s (proj2 Hl Hc)).
  rewrite IH.
  - apply kills_handle.
  - apply latched_preserved_by_handle, Hl.
  - apply latched_handle, Hc.
Qed.

(** X17.  Once the events of the child have produced a result, it is
    final: whatever arrives afterwards (output, a message, the exit, a
    process error) and however late the build is looked at, the result
    stays the same, and the watchdog kills nothing any more. *)
Theorem X17_first_result_is_final
    (evs more : list (Z * event)) (now : Z) (r : option BuilderError) :
  resolved (run redact cordova_log evs spawned) = Some r ->
  resolved (build redact cordova_log (evs ++ more) now) = Some r /\
  kills (build redact cordova_log (evs ++ more) now)
  = kills (run redact cordova_log evs spawned).
Proof.
  intros Hr.
  pose proof (latched_preserved_by_run evs spawned latched_spawned) as Hl.
  assert (Hc : cbCalled (run redact cordova_log evs spawned) = true).
  { apply (proj1 Hl). rewrite Hr. discriminate. }
  unfold build. rewrite run_app.
  pose proof (latched_preserved_by_run more _ Hl) as Hl'.
  destruct (latched_run redact cordova_log more _ Hc) as [Hc' Hr'].
  rewrite (kills_fire_due_cleared now _ (proj2 Hl' Hc')).
  split; [rewrite Hr'; exact Hr|].
  apply kills_run_latched; assumption.
Qed.

(** X18.  A child that exits with code 0 before any message has
    arrived ends the build without error: the service reports a
    success, with no internal and no public message. *)
Theorem X18_clean_exit_without_message_is_success
    (pre post : list (Z * event)) (t : Z) (signal : option string) (now : Z)
    (data : ICompilation) :
  Forall (fun te => terminal te.2 = false /\ te.1 < COMPILER_WATCHDOG_INTERVAL) pre ->
  t < COMPILER_WATCHDOG_INTERVAL ->
  resolved (build redact cordova_log (pre ++ (t, Exit (Some 0) signal) :: post) now)
  = Some None /\
  finish_loop true None (Some data)
  = [Notify {| n_platform := platform_name (platform data);
               n_code := Some (code data);
               n_starttime := starttime data;
               msg_internal := None;
               msg_public := None |};
     Working false].
Proof.
  intros Hpre Ht. split; [|reflexivity].
  destruct (first_terminal_event_decides redact cordova_log pre post t
              (Exit (Some 0) signal) now Hpre Ht eq_refl) as [s1 [Hw Hres]].
  rewrite Hres. cbn. destruct Hw as [Hc _]. rewrite Hc. reflexivity.
Qed.

End CompilerResult.

(** X17 at work: the watchdog has ended the build; the message of the
    child that arrives later changes nothing. *)
Lemma X17_witness :
  Compiler.resolved
    (Compiler.build (fun s => s) None
       ([(2700000, Compiler.StdoutData "still building")]
        ++ [(2700500, Compiler.Message None)]) 2800000)
  = Some (Some Compiler.watchdog_error).
Proof.
  apply (X17_first_result_is_final (fun s => s) None
           [(2700000, Compiler.StdoutData "still building")]
           [(2700500, Compiler.Message None)] 2800000 (Some Compiler.watchdog_error)).
  reflexivity.
Defined.

(** X18 at work: the child prints a line and exits with code 0. *)
Lemma X18_witness :
  Compiler.resolved
    (Compiler.build (fun s => s) None
       ([(10, Compiler.StdoutData "done")] ++ (20, Compiler.Exit (Some 0) None) :: []) 30)
  = Some None.
Proof.
  apply (X18_clean_exit_without_message_is_success (fun s => s) None
           [(10, Compiler.StdoutData "done")] [] 20 None 30 (Scenario.job "android" None)).
  - repeat constructor.
  - reflexivity.
Defined.

(** ** The launcher under the Builder service *)

Section ChildUnderService.
Import Compiler.
Variable redact : string -> string.
Variable cordova_log : option string.
Variable wire : BuilderError -> BuilderError.

(** The first of two events at a time before the deadline decides. *)
Lemma first_of_two_decides (t : Z) (e1 e2 : event) (now : Z) :
  t < COMPILER_WATCHDOG_INTERVAL ->
  terminal e1 = true ->
  resolved (build redact cordova_log [(t, e1); (t, e2)] now)
  = resolved (handle redact cordova_log e1 spawned) /\
  cbCalled (handle redact cordova_log e1 spawned) = true.
Proof.
  intros Ht He. unfold build. cbn [run].
  rewrite (waiting_fire_due_early t spawned Ht spawned_waiting).
  assert (Hc : cbCalled (handle redact cordova_log e1 spawned) = true).
  { destruct e1 as [b|b|[err|]|[[| |]|] signal|err]; try discriminate He; reflexivity. }
  split; [|exact Hc].
  destruct (latched_fire_due t _ Hc) as [Hc1 Hr1].
  destruct (latched_handle redact cordova_log e2 _ Hc1) as [Hc2 Hr2].
  destruct (latched_fire_due now _ Hc2) as [_ Hr3].
  rewrite Hr3, Hr2, Hr1. reflexivity.
Qed.


End ChildUnderService.


(** ** [updater.ts]: what is downloaded, what is removed *)

Section GreedyClass.
Import Regex.

(** A class repeated takes all of a text of the class when the rest
    of the pattern matches what follows. *)
Lemma plus_from_greedy (p : ascii -> bool) (k : cont) (v rest : string) (c c' : captures) :
  v <> "" -> all_of p v = true -> stops p rest = true ->
  k rest c = Some c' ->
  plus_from p k (v ++ rest) c = Some c'.
Proof.
  induction v as [|a v IH]; intros Hne Hall Hstop Hk.
  - exfalso. apply Hne. reflexivity.
  - cbn [all_of] in Hall. apply andb_prop in Hall as [Ha Hv].
    rewrite append_cons. cbn [plus_from]. rewrite Ha.
    destruct v as [|b v].
    + change ("" ++ rest) with rest.
      replace (plus_from p k rest c) with (@None captures); [exact Hk|].
      destruct rest as [|x rest]; [reflexivity|].
      cbn in Hstop. cbn [plus_from]. destruct (p x); [discriminate Hstop|reflexivity].
    + rewrite IH; [reflexivity|discriminate|exact Hv|exact Hstop|exact Hk].
Qed.

(** A literal pattern, with or without the flag [i], matches its own
    text. *)
Lemma run_str_i_self (t : string) (tail : re) (k : cont) (x : string) (c : captures) :
  run (str_i t tail) k (t ++ x) c = run tail k x c.
Proof.
  induction t as [|a t IH]; [reflexivity|].
  rewrite append_cons. change (str_i (String a t) tail) with (Cat (lit_i a) (str_i t tail)).
  cbn [run lit_i]. rewrite Ascii.eqb_refl. exact IH.
Qed.

Lemma run_lit_i_self (a : ascii) (k : cont) (x : string) (c : captures) :
  run (lit_i a) k (String a x) c = k x c.
Proof. cbn [run lit_i]. rewrite Ascii.eqb_refl. reflexivity. Qed.

Lemma run_eps (k : cont) (s : string) (c : captures) : run eps k s c = k s c.
Proof. unfold eps. cbn [run]. destruct s; reflexivity. Qed.

End GreedyClass.

Section UpdaterLibs.
Import Updater.
Variable host : Globals.Host.
Variable env : Globals.CocoonEnvironment.

Lemma stops_dash (p : ascii -> bool) (x : string) :
  p "-"%char = false -> Regex.stops p ("-" ++ x) = true.
Proof. intros H. rewrite append_cons. cbn. now rewrite H. Qed.

(** The name of a library archive: [cordova-], a version of digits
    and dots, a dash, the letters of an operating system. *)
Lemma lib_os_of_archive (v o : string) :
  v <> "" -> Regex.all_of (fun a => Regex.is_digit a || dot a) v = true ->
  o <> "" -> Regex.all_of Regex.is_alpha o = true ->
  Regex.match_group1 lib_os_pattern ("cordova-" ++ v ++ "-" ++ o ++ ".tar.bz2") = Js.Ret o.
Proof.
  intros Hv Hvall Ho Hoall. unfold Regex.match_group1.
  rewrite (exec_here _ _ [(1%nat, o)]); [reflexivity|].
  unfold lib_os_pattern. rewrite run_str_i_self.
  change (Regex.run (Regex.Cat (Regex.PlusC ?p) ?r) ?k ?s ?c)
    with (Regex.plus_from p (Regex.run r k) s c).
  apply plus_from_greedy; [exact Hv|exact Hvall|apply stops_dash; reflexivity|].
  rewrite append_cons. change ("" ++ ?x) with x.
  change (Regex.run (Regex.Cat (Regex.lit_i ?a) ?r) ?k (String ?a ?x) ?c)
    with (Regex.run (Regex.lit_i a) (Regex.run r k) (String a x) c).
  rewrite run_lit_i_self.
  change (Regex.run (Regex.Cat (Regex.Group ?i (Regex.PlusC ?p)) ?r) ?k ?s ?c)
    with (Regex.plus_from p (fun s' c' => Regex.run r k s' ((i, Regex.consumed s s') :: c')) s c).
  apply plus_from_greedy; [exact Ho|exact Hoall|reflexivity|].
  cbv beta. rewrite consumed_app. reflexivity.
Qed.

Lemma lib_name_of_archive (v o : string) :
  v <> "" -> Regex.all_of (fun a => Regex.is_digit a || dot a) v = true ->
  o <> "" -> Regex.all_of Regex.is_alpha o = true ->
  Regex.match_group1 lib_name_pattern ("cordova-" ++ v ++ "-" ++ o ++ ".tar.bz2")
  = Js.Ret ("cordova-" ++ v).
Proof.
  intros Hv Hvall Ho Hoall. unfold Regex.match_group1.
  rewrite (exec_here _ _ [(1%nat, "cordova-" ++ v)]); [reflexivity|].
  unfold lib_name_pattern.
  change (Regex.run (Regex.Cat (Regex.Group ?i ?g) ?r) ?k ?s ?c)
    with (Regex.run g (fun s' c' => Regex.run r k s' ((i, Regex.consumed s s') :: c')) s c).
  rewrite run_str_i_self.
  change (Regex.run (Regex.PlusC ?p) ?k ?s ?c) with (Regex.plus_from p k s c).
  apply plus_from_greedy; [exact Hv|exact Hvall|apply stops_dash; reflexivity|].
  cbv beta.
  replace (Regex.consumed ("cordova-" ++ v ++ "-" ++ o ++ ".tar.bz2") ("-" ++ o ++ ".tar.bz2"))
    with ("cordova-" ++ v).
  2:{ rewrite <- (consumed_app ("cordova-" ++ v) ("-" ++ o ++ ".tar.bz2")) at 1.
      now rewrite append_assoc. }
  rewrite append_cons. change ("" ++ ?x) with x.
  change (Regex.run (Regex.Cat (Regex.lit_i ?a) ?r) ?k (String ?a ?x) ?c)
    with (Regex.run (Regex.lit_i a) (Regex.run r k) (String a x) c).
  rewrite run_lit_i_self.
  change (Regex.run (Regex.Cat (Regex.PlusC ?p) ?r) ?k ?s ?c)
    with (Regex.plus_from p (Regex.run r k) s c).
  apply plus_from_greedy; [exact Ho|exact Hoall|reflexivity|].
  reflexivity.
Qed.

(** X20.  A library archive [libs/cordova-<version>-<os>.tar.bz2] is
    kept by the Updater of a host exactly when [<os>] is, letter for
    letter, what [os.platform()] answers on that host: although the
    pattern ignores case, the comparison does not. *)
Theorem X20_library_kept_on_its_platform (data : IS3ContentData) (v o : string) :
  Path.dirname (Key data) = "libs" ->
  Path.basename (Key data) = "cordova-" ++ v ++ "-" ++ o ++ ".tar.bz2" ->
  v <> "" -> Regex.all_of (fun a => Regex.is_digit a || dot a) v = true ->
  o <> "" -> Regex.all_of Regex.is_alpha o = true ->
  isPlatformFile host data = Js.Ret (String.eqb (Globals.os_platform host) o) /\
  (isPlatformFile host data = Js.Ret true <-> Globals.os_platform host = o).
Proof.
  intros Hdir Hbase Hv Hvall Ho Hoall.
  assert (H : isPlatformFile host data = Js.Ret (String.eqb (Globals.os_platform host) o)).
  { unfold isPlatformFile. rewrite Hdir, Hbase. cbn [tracked existsb].
    change (String.eqb "libs" Globals.CORDOVA_LIBS_FOLDER) with true.
    change (String.eqb "libs" Globals.CORDOVA_PLATFORMS_FOLDER) with false.
    change (String.eqb "libs" Globals.CORDOVA_COMPILERS_FOLDER) with false.
    change (String.eqb "libs" Globals.CORDOVA_PLUGINS_FOLDER) with false.
    cbn [orb]. rewrite (lib_os_of_archive v o Hv Hvall Ho Hoall). reflexivity. }
  split; [exact H|]. rewrite H. split.
  - intros E. injection E as E. apply String.eqb_eq. exact E.
  - intros <-. now rewrite String.eqb_refl.
Qed.

(** X21.  A library archive is unpacked into the directory
    [libs/cordova-<version>] of the data folder: the operating system
    in its name plays no part, so the archives of one version for two
    operating systems have the same output directory. *)
Theorem X21_library_output_directory (data : IS3ContentData) (v o : string) :
  Path.dirname (Key data) = "libs" ->
  Path.basename (Key data) = "cordova-" ++ v ++ "-" ++ o ++ ".tar.bz2" ->
  v <> "" -> Regex.all_of (fun a => Regex.is_digit a || dot a) v = true ->
  o <> "" -> Regex.all_of Regex.is_alpha o = true ->
  getOutputDir host env data
  = Js.Ret (Some (Path.join [Globals.CORDOVA_LIBS_PATH host env; "cordova-" ++ v])).
Proof.
  intros Hdir Hbase Hv Hvall Ho Hoall.
  unfold getOutputDir, output_in. rewrite Hdir, Hbase.
  change (String.eqb "libs" Globals.CORDOVA_LIBS_FOLDER) with true.
  change (String.eqb "libs" Globals.CORDOVA_PLATFORMS_FOLDER) with false.
  change (String.eqb "libs" Globals.CORDOVA_COMPILERS_FOLDER) with false.
  change (String.eqb "libs" Globals.CORDOVA_PLUGINS_FOLDER) with false.
  change (String.eqb "libs" Globals.SDKS_FOLDER) with false.
  cbn [Js.bind]. rewrite (lib_name_of_archive v o Hv Hvall Ho Hoall). reflexivity.
Qed.

End UpdaterLibs.

(** X20 at work: the archive for linux on the linux host. *)
Lemma X20_witness : Updater.isPlatformFile Scenario.linux Scenario.linux_lib = Js.Ret true.
Proof.
  apply (proj2 (X20_library_kept_on_its_platform Scenario.linux Scenario.linux_lib
                  "8.0.0" "linux" eq_refl eq_refl ltac:(discriminate) eq_refl
                  ltac:(discriminate) eq_refl)).
  reflexivity.
Defined.

(** X21 at work: the archives for linux and for darwin go to the same
    directory. *)
Lemma X21_witness :
  Updater.getOutputDir Scenario.linux Globals.TESTING Scenario.linux_lib
  = Updater.getOutputDir Scenario.linux Globals.TESTING Scenario.darwin_lib.
Proof.
  rewrite (X21_library_output_directory Scenario.linux Globals.TESTING Scenario.linux_lib
             "8.0.0" "linux" eq_refl eq_refl ltac:(discriminate) eq_refl
             ltac:(discriminate) eq_refl).
  rewrite (X21_library_output_directory Scenario.linux Globals.TESTING Scenario.darwin_lib
             "8.0.0" "darwin" eq_refl eq_refl ltac:(discriminate) eq_refl
             ltac:(discriminate) eq_refl).
  reflexivity.
Defined.

Section UpdaterSync.
Import Updater.
Variable host : Globals.Host.
Variable env : Globals.CocoonEnvironment.
Variable service : bool.

(** The loop of [getSyncStatus] in closed form. *)
Lemma getSyncStatus_closed (fs : FS) (data : list IS3ContentData) (c : IS3ContentData) :
  getSyncStatus host env fs data c
  = if tracked (Path.dirname (Key c))
       && existsb (fun item => String.eqb (Key item) (Key c)) data
    then Js.bind (getOutputDir host env c) (fun outDir =>
           if negb (existsSync fs outDir) then Js.Ret DOWNLOAD
           else if existsb (fun item => String.eqb (Key item) (Key c)
                                        && negb (String.eqb (LastModified item) (LastModified c)))
                     data
                then Js.Ret DOWNLOAD
                else Js.Ret IGNORE)
    else Js.Ret IGNORE.
Proof.
  induction data as [|item data IH].
  - cbn. now rewrite andb_false_r.
  - cbn [getSyncStatus existsb]. rewrite IH. clear IH.
    destruct (tracked (Path.dirname (Key c))); cbn [andb]; [|reflexivity].
    destruct (String.eqb (Key item) (Key c)); cbn [orb andb].
    + destruct (getOutputDir host env c) as [outDir|]; cbn [Js.bind]; [|reflexivity].
      destruct (existsSync fs outDir); cbn [negb]; [|reflexivity].
      destruct (String.eqb (LastModified item) (LastModified c)); cbn [negb orb]; [|reflexivity].
      destruct (existsb (fun item0 => String.eqb (Key item0) (Key c)) data) eqn:Hk;
        [reflexivity|].
      replace (existsb _ data) with false; [reflexivity|].
      symmetry. apply not_true_is_false. intros H.
      apply existsb_exists in H as [x [Hin Hx]]. apply andb_prop in Hx as [Hx _].
      assert (existsb (fun item0 => String.eqb (Key item0) (Key c)) data = true)
        by (apply existsb_exists; exists x; auto).
      congruence.
    + reflexivity.
Qed.

(** X22.  With a manifest on disk, an entry of the listing is
    downloaded exactly when its folder is one of the five tracked
    folders, the manifest holds its key, and its output directory
    cannot be computed, or is missing, or a manifest item with its key
    has another modification date.  Every other entry is ignored; the
    status DELETE is never given. *)
Theorem X22_download_exactly_when_stale
    (fs : FS) (structure : list IS3ContentData) (c : IS3ContentData) :
  s3_structure fs = Structure structure ->
  (syncObject host env fs c = DOWNLOAD <->
   tracked (Path.dirname (Key c)) = true /\
   (exists item, In item structure /\ Key item = Key c) /\
   (getOutputDir host env c = Js.Throw \/
    (exists outDir, getOutputDir host env c = Js.Ret outDir /\ existsSync fs outDir = false) \/
    (exists item, In item structure /\ Key item = Key c /\
                  LastModified item <> LastModified c))) /\
  (syncObject host env fs c <> DOWNLOAD -> syncObject host env fs c = IGNORE).
Proof.
  intros Hs. unfold syncObject. rewrite Hs, getSyncStatus_closed.
  destruct (tracked (Path.dirname (Key c))); cbn [andb].
  2:{ split; [split; [discriminate|intros [H _]; discriminate H]|reflexivity]. }
  destruct (existsb (fun item => String.eqb (Key item) (Key c)) structure) eqn:Hkey.
  2:{ split; [split; [discriminate|]|reflexivity].
      intros [_ [[item [Hin Hk]] _]]. exfalso.
      assert (existsb (fun item => String.eqb (Key item) (Key c)) structure = true).
      { apply existsb_exists. exists item. split; [exact Hin|]. now apply String.eqb_eq. }
      congruence. }
  apply existsb_exists in Hkey as [item0 [Hin0 Hk0]]. apply String.eqb_eq in Hk0.
  destruct (getOutputDir host env c) as [outDir|]; cbn [Js.bind].
  2:{ split; [split; [intros _|reflexivity]|intros H; exfalso; apply H; reflexivity].
      split; [reflexivity|]. split; [exists item0; auto|left; reflexivity]. }
  destruct (existsSync fs outDir) eqn:Hex; cbn [negb].
  2:{ split; [split; [intros _|reflexivity]|intros H; exfalso; apply H; reflexivity].
      split; [reflexivity|]. split; [exists item0; auto|].
      right; left. exists outDir. auto. }
  destruct (existsb _ structure) eqn:Hmod.
  - split; [split; [intros _|reflexivity]|intros H; exfalso; apply H; reflexivity].
    split; [reflexivity|]. split; [exists item0; auto|].
    right; right. apply existsb_exists in Hmod as [item [Hin Hx]].
    apply andb_prop in Hx as [Hk Hm]. exists item. split; [exact Hin|].
    split; [now apply String.eqb_eq|].
    intros E. apply String.eqb_eq in E. rewrite E in Hm. discriminate Hm.
  - split; [split; [discriminate|]|reflexivity].
    intros [_ [_ [H|[[od [Hod Hno]]|[item [Hin [Hk Hm]]]]]]].
    + discriminate H.
    + injection Hod as <-. congruence.
    + exfalso.
      assert (existsb (fun item => String.eqb (Key item) (Key c)
                                   && negb (String.eqb (LastModified item) (LastModified c)))
                structure = true).
      { apply existsb_exists. exists item. split; [exact Hin|].
        apply andb_true_intro. split; [now apply String.eqb_eq|].
        apply negb_true_iff. apply not_true_is_false. intros E.
        apply String.eqb_eq in E. contradiction. }
      congruence.
Qed.

Lemma sync_each_all_ignored (w : World) (contents : list IS3ContentData) (fs : FS) :
  Forall (fun c => syncObject host env fs c = IGNORE) contents ->
  sync_each host env w contents fs = (fs, [], Completed None).
Proof.
  intros H. induction H as [|c contents Hc _ IH]; [reflexivity|].
  cbn [sync_each]. rewrite Hc. exact IH.
Qed.

Lemma purge_each_all_listed (remote structure : list IS3ContentData) (fs : FS) :
  Forall (fun localItem =>
            existsb (fun remoteItem => String.eqb (Key localItem) (Key remoteItem)) remote
            = true) structure ->
  purge_each host env remote structure fs = (fs, []).
Proof.
  intros H. induction H as [|l structure Hl _ IH]; [reflexivity|].
  cbn [purge_each]. rewrite Hl. exact IH.
Qed.

Lemma ensureDir_keeps (dir : string) (fs : FS) (p : option string) :
  existsSync fs p = true -> existsSync (ensureDir dir fs) p = true.
Proof.
  destruct p as [path|]; [|discriminate]. unfold existsSync, ensureDir. cbn [dirs set_dirs].
  intros H. apply bool_decide_eq_true in H. apply bool_decide_eq_true.
  apply elem_of_union_r. exact H.
Qed.

(** X23.  An iteration that finds the bucket as the manifest describes
    it, with every output directory in place, changes nothing beyond
    making sure of the data folder: it downloads nothing, unpacks
    nothing, empties and removes no directory; it only rewrites the
    manifest with the same content and touches [ready.lock] when the
    listing is not empty. *)
Theorem X23_unchanged_bucket_changes_nothing
    (w : World) (fs : FS) (remote contents : list IS3ContentData) :
  ensure_data_dir w = None ->
  empty_sync_dir w = None ->
  listObjects w = inr remote ->
  purgedContents host remote = Js.Ret contents ->
  writeFile w = WriteOk ->
  s3_structure fs = Structure contents ->
  (forall a b, In a contents -> In b contents -> Key a = Key b ->
               LastModified a = LastModified b) ->
  (forall c, In c contents -> tracked (Path.dirname (Key c)) = true ->
             exists outDir, getOutputDir host env c = Js.Ret outDir /\
                            existsSync fs outDir = true) ->
  loop host env service false w fs
  = (if Nat.ltb 0 (List.length contents)
     then touch_ready_lock (ensureDir (Globals.COMPILER_DATA_PATH host env) fs)
     else ensureDir (Globals.COMPILER_DATA_PATH host env) fs,
     ([Working true; RemoveSyncFolder; WriteManifest; RemoveSyncFolder]
      ++ (if Nat.ltb 0 (List.length contents) then [TouchReadyLock] else [])
      ++ [Working false]
      ++ (if negb service then [ProcessExit 0] else []))%list,
     Completed None).
Proof.
  intros Hdata Hsync Hlist Hkept Hwrite Hman Hdates Hdirs.
  set (fs0 := ensureDir (Globals.COMPILER_DATA_PATH host env) fs).
  assert (Hman0 : s3_structure fs0 = Structure contents) by exact Hman.
  assert (Hign : Forall (fun c => syncObject host env fs0 c = IGNORE) contents).
  { apply List.Forall_forall. intros c Hc.
    unfold syncObject. rewrite Hman0, getSyncStatus_closed.
    destruct (tracked (Path.dirname (Key c))) eqn:Htr; cbn [andb]; [|reflexivity].
    destruct (existsb (fun item => String.eqb (Key item) (Key c)) contents); [|reflexivity].
    destruct (Hdirs c Hc Htr) as [outDir [Hod Hex]].
    rewrite Hod. cbn [Js.bind]. unfold fs0. rewrite (ensureDir_keeps _ _ _ Hex). cbn [negb].
    destruct (existsb _ contents) eqn:Hmod; [|reflexivity].
    exfalso. apply existsb_exists in Hmod as [item [Hin Hx]].
    apply andb_prop in Hx as [Hk Hm]. apply String.eqb_eq in Hk.
    rewrite (Hdates item c Hin Hc Hk), String.eqb_refl in Hm. discriminate Hm. }
  unfold loop. rewrite Hdata, Hsync, Hlist, Hkept. fold fs0.
  rewrite (sync_each_all_ignored w contents fs0 Hign).
  unfold purge. rewrite Hman0. rewrite purge_each_all_listed.
  2:{ apply List.Forall_forall. intros l Hl. apply existsb_exists. exists l.
      split; [exact Hl|apply String.eqb_refl]. }
  unfold save. rewrite Hwrite.
  replace (set_manifest (Structure contents) fs0) with fs0
    by (unfold set_manifest; rewrite <- Hman0; destruct fs0; reflexivity).
  unfold finish, final. unfold fs0 at 1. rewrite ensureDir_exists, andb_false_r.
  unfold lock_due. fold fs0. destruct (Nat.ltb 0 (List.length contents)); reflexivity.
Qed.

End UpdaterSync.

(** X22 at work: the plugin Y has a new date in the bucket. *)
Lemma X22_witness :
  Updater.syncObject Scenario.linux Globals.TESTING Scenario.synced_Y
    (Scenario.entry "plugins/Y.tar.bz2" "2018-09-01T00:00:00.000Z")
  = Updater.DOWNLOAD.
Proof.
  apply (proj1 (X22_download_exactly_when_stale Scenario.linux Globals.TESTING
                  Scenario.synced_Y [Scenario.plugin_Y]
                  (Scenario.entry "plugins/Y.tar.bz2" "2018-09-01T00:00:00.000Z") eq_refl)).
  split; [reflexivity|].
  split; [exists Scenario.plugin_Y; split; [left; reflexivity|reflexivity]|].
  right; right. exists Scenario.plugin_Y.
  split; [left; reflexivity|]. split; [reflexivity|discriminate].
Defined.

(** X23 at work: the host in sync with a bucket that holds the plugin Y
    runs one more iteration. *)
Lemma X23_witness :
  Scenario.update (Scenario.bucket [Scenario.plugin_Y]) Scenario.synced_Y
  = (Updater.touch_ready_lock (Updater.ensureDir Scenario.data_dir Scenario.synced_Y),
     [Updater.Working true; Updater.RemoveSyncFolder; Updater.WriteManifest;
      Updater.RemoveSyncFolder; Updater.TouchReadyLock; Updater.Working false],
     Updater.Completed None).
Proof.
  apply (X23_unchanged_bucket_changes_nothing Scenario.linux Globals.TESTING true
           (Scenario.bucket [Scenario.plugin_Y]) Scenario.synced_Y
           [Scenario.plugin_Y] [Scenario.plugin_Y]
           eq_refl eq_refl eq_refl eq_refl eq_refl eq_refl).
  - intros a b [<-|[]] [<-|[]] _. reflexivity.
  - intros c [<-|[]] _. eexists. split; vm_compute; reflexivity.
Defined.

Section UpdaterPurge.
Import Updater.
Variable host : Globals.Host.
Variable env : Globals.CocoonEnvironment.
Variable service : bool.

Lemma removeSync_subset (dir : string) (fs : FS) :
  dirs (removeSync host env dir fs) ⊆ dirs fs.
Proof. unfold removeSync. cbn [dirs]. intros p Hp. apply elem_of_filter in Hp. tauto. Qed.

Lemma removeSync_gone (dir : string) (fs : FS) : dir ∉ dirs (removeSync host env dir fs).
Proof.
  unfold removeSync. cbn [dirs]. intros Hp. apply elem_of_filter in Hp as [Hp _].
  unfold under in Hp. rewrite String.eqb_refl in Hp. exact Hp.
Qed.

(** A directory that [purge] finds and no longer leaves went with a
    directory it removed. *)
Lemma purge_each_gone (d : string) (remote structure : list IS3ContentData) (fs : FS) :
  existsSync fs (Some d) = true ->
  existsSync (purge_each host env remote structure fs).1 (Some d) = false ->
  exists path,
    In (RemoveDir path) (purge_each host env remote structure fs).2 /\ under path d = true.
Proof.
  revert fs. induction structure as [|l structure IH]; intros fs Hd Hgone.
  { cbn [purge_each fst] in Hgone. congruence. }
  cbn [purge_each] in *.
  destruct (existsb (fun remoteItem => String.eqb (Key l) (Key remoteItem)) remote);
    [exact (IH fs Hd Hgone)|].
  destruct (getOutputDir host env l) as [file|]; [|cbn [fst] in Hgone; congruence].
  destruct (existsSync fs file); [|exact (IH fs Hd Hgone)].
  destruct file as [path|]; [|exact (IH fs Hd Hgone)].
  specialize (IH (removeSync host env path fs)).
  destruct (purge_each host env remote structure (removeSync host env path fs)) as [fs' eff].
  cbn [fst snd] in *.
  destruct (under path d) eqn:E; [exists path; split; [left; reflexivity|exact E]|].
  destruct IH as [p [Hin Hp]]; [|exact Hgone|exists p; split; [right; exact Hin|exact Hp]].
  unfold existsSync in *. apply bool_decide_eq_true in Hd. apply bool_decide_eq_true.
  unfold removeSync. cbn [dirs]. apply elem_of_filter. split; [now rewrite E|exact Hd].
Qed.

Lemma purge_each_only_stale (remote structure : list IS3ContentData) :
  forall fs,
    (forall path,
        In (RemoveDir path) (purge_each host env remote structure fs).2 ->
        exists item,
          In item structure /\
          (forall remoteItem, In remoteItem remote -> Key remoteItem <> Key item) /\
          getOutputDir host env item = Js.Ret (Some path) /\
          path ∈ dirs fs /\
          path ∉ dirs (purge_each host env remote structure fs).1) /\
    (forall e, In e (purge_each host env remote structure fs).2 -> exists path, e = RemoveDir path) /\
    dirs (purge_each host env remote structure fs).1 ⊆ dirs fs.
Proof.
  induction structure as [|l structure IH]; intros fs.
  - cbn. split; [intros path []|]. split; [intros e []|reflexivity].
  - cbn [purge_each].
    destruct (existsb (fun remoteItem => String.eqb (Key l) (Key remoteItem)) remote) eqn:Hex.
    { destruct (IH fs) as [H1 [H2 H3]]. split; [|split; assumption].
      intros path Hin. destruct (H1 path Hin) as [item [Hi Hrest]].
      exists item. split; [right; exact Hi|exact Hrest]. }
    assert (Hstale : forall remoteItem, In remoteItem remote -> Key remoteItem <> Key l).
    { intros r Hr E.
      assert (existsb (fun remoteItem => String.eqb (Key l) (Key remoteItem)) remote = true).
      { apply existsb_exists. exists r. split; [exact Hr|]. rewrite E. apply String.eqb_refl. }
      congruence. }
    assert (Hskip :
      (forall path,
          In (RemoveDir path) (purge_each host env remote structure fs).2 ->
          exists item,
            In item (l :: structure) /\
            (forall remoteItem, In remoteItem remote -> Key remoteItem <> Key item) /\
            getOutputDir host env item = Js.Ret (Some path) /\
            path ∈ dirs fs /\
            path ∉ dirs (purge_each host env remote structure fs).1) /\
      (forall e, In e (purge_each host env remote structure fs).2 ->
                 exists path, e = RemoveDir path) /\
      dirs (purge_each host env remote structure fs).1 ⊆ dirs fs).
    { destruct (IH fs) as [H1 [H2 H3]]. split; [|split; assumption].
      intros path Hin. destruct (H1 path Hin) as [item [Hi Hrest]].
      exists item. split; [right; exact Hi|exact Hrest]. }
    destruct (getOutputDir host env l) as [file|] eqn:Hout.
    2:{ cbn. split; [intros path []|]. split; [intros e []|reflexivity]. }
    destruct (existsSync fs file) eqn:Hdir; [|exact Hskip].
    destruct file as [path|]; [|exact Hskip].
    destruct (IH (removeSync host env path fs)) as [H1 [H2 H3]].
    destruct (purge_each host env remote structure (removeSync host env path fs)) as [fs' eff] eqn:Hp.
    cbn [fst snd] in *.
    assert (Hhere : path ∈ dirs fs).
    { unfold existsSync in Hdir. apply bool_decide_eq_true in Hdir. exact Hdir. }
    split; [|split].
    + intros p [E|Hin].
      * injection E as <-. exists l. split; [left; reflexivity|].
        split; [exact Hstale|]. split; [exact Hout|]. split; [exact Hhere|].
        intros Hp'. apply (removeSync_gone path fs). apply H3. exact Hp'.
      * destruct (H1 p Hin) as [item [Hi [Hs [Ho [Hd Hn]]]]].
        exists item. split; [right; exact Hi|]. split; [exact Hs|]. split; [exact Ho|].
        split; [apply (removeSync_subset path fs); exact Hd|exact Hn].
    + intros e [<-|Hin]; [exists path; reflexivity|apply H2; exact Hin].
    + intros p Hp'. apply (removeSync_subset path fs). apply H3. exact Hp'.
Qed.

(** X24.  [purge] removes nothing but output directories of manifest
    entries whose key the listing no longer holds: each directory it
    removes existed, is the output directory of such an entry and is
    gone afterwards.  It does nothing else, creates no directory, and
    without a manifest that parses to a list it does nothing at all. *)
Theorem X24_purge_removes_only_stale_directories (remote : list IS3ContentData) (fs : FS) :
  (forall path,
      In (RemoveDir path) (purge host env remote fs).2 ->
      exists structure item,
        s3_structure fs = Structure structure /\
        In item structure /\
        (forall remoteItem, In remoteItem remote -> Key remoteItem <> Key item) /\
        getOutputDir host env item = Js.Ret (Some path) /\
        path ∈ dirs fs /\
        path ∉ dirs (purge host env remote fs).1) /\
  (forall e, In e (purge host env remote fs).2 -> exists path, e = RemoveDir path) /\
  dirs (purge host env remote fs).1 ⊆ dirs fs /\
  ((forall structure, s3_structure fs <> Structure structure) ->
   purge host env remote fs = (fs, [])).
Proof.
  unfold purge. destruct (s3_structure fs) as [| | |structure] eqn:Hs;
    try (split; [intros path []|]; split; [intros e []|]; split; [reflexivity|];
         intros _; reflexivity).
  destruct (purge_each_only_stale remote structure fs) as [H1 [H2 H3]].
  split; [|split; [exact H2|split; [exact H3|]]].
  - intros path Hin. destruct (H1 path Hin) as [item Hitem].
    exists structure, item. split; [reflexivity|exact Hitem].
  - intros H. exfalso. apply (H structure). reflexivity.
Qed.

(** X25.  An iteration of the Updater that does not end well leaves
    the manifest file as it found it, with two exceptions.  The
    writing of the manifest itself failed; or the manifest was
    written, and the final callback then threw on [ready.lock] because
    [purge] had removed the data folder.  An error before the save
    step (the data folder, the listing, a download, an extraction)
    never changes what the next iteration compares the bucket with. *)
Theorem X25_failed_iteration_keeps_manifest (w : World) (fs : FS) :
  (loop host env service false w fs).2 <> Completed None ->
  s3_structure (loop host env service false w fs).1.1 = s3_structure fs \/
  (exists text remains,
      writeFile w = WriteError text remains /\
      (loop host env service false w fs).2 = Completed (Some text) /\
      s3_structure (loop host env service false w fs).1.1 = remains) \/
  (exists remote contents path,
      writeFile w = WriteOk /\
      listObjects w = inr remote /\
      purgedContents host remote = Js.Ret contents /\
      contents <> [] /\
      (loop host env service false w fs).2 = Crashed /\
      s3_structure (loop host env service false w fs).1.1 = Structure contents /\
      In (RemoveDir path) (loop host env service false w fs).1.2 /\
      under path (Globals.COMPILER_DATA_PATH host env) = true).
Proof.
  assert (Hfinish : forall before err status fs0,
             s3_structure (finish host env service before err status fs0).1.1
             = s3_structure fs0 /\
             (finish host env service before err status fs0).2
             = if lock_due err status
                  && negb (existsSync fs0 (Some (Globals.COMPILER_DATA_PATH host env)))
               then Crashed else Completed err).
  { intros before err status fs0. unfold finish, final.
    destruct (lock_due err status), (existsSync fs0 _); split; reflexivity. }
  unfold loop.
  destruct (ensure_data_dir w); [intros _; left; apply Hfinish|].
  set (fs0 := ensureDir (Globals.COMPILER_DATA_PATH host env) fs).
  assert (H0 : s3_structure fs0 = s3_structure fs) by reflexivity.
  destruct (empty_sync_dir w); [intros _; left; rewrite (proj1 (Hfinish _ _ _ _)); exact H0|].
  destruct (listObjects w) as [text|remote];
    [intros _; left; rewrite (proj1 (Hfinish _ _ _ _)); exact H0|].
  destruct (purgedContents host remote) as [contents|] eqn:Epurged; [|intros _; left; exact H0].
  pose proof (sync_each_quiet host env w contents fs0) as (_ & _ & Hsync & Hdata).
  specialize (Hdata (ensureDir_exists _ _)).
  destruct (sync_each host env w contents fs0) as [[fs1 eff1] r]. cbn [fst snd] in Hsync, Hdata.
  rewrite H0 in Hsync.
  destruct r as [[text|]| |].
  - intros _. left. rewrite (proj1 (Hfinish _ _ _ _)). exact Hsync.
  - pose proof (purge_quiet host env contents fs1) as (_ & _ & Hpurge).
    assert (Hgone : existsSync (purge host env contents fs1).1
                      (Some (Globals.COMPILER_DATA_PATH host env)) = false ->
                    exists path,
                      In (RemoveDir path) (purge host env contents fs1).2 /\
                      under path (Globals.COMPILER_DATA_PATH host env) = true).
    { unfold purge. destruct (s3_structure fs1); try (cbn [fst]; congruence).
      apply purge_each_gone. exact Hdata. }
    destruct (purge host env contents fs1) as [fs2 eff2]. cbn [fst snd] in Hpurge, Hgone.
    unfold save. destruct (writeFile w) as [|text remains].
    + intros H. right; right.
      destruct (Hfinish (Working true :: eff1 ++ eff2 ++ [RemoveSyncFolder; WriteManifest])%list
                  None (Some contents) (set_manifest (Structure contents) fs2)) as [Hs Hr].
      rewrite Hr in H. rewrite Hr, Hs.
      change (existsSync (set_manifest (Structure contents) fs2) ?p)
        with (existsSync fs2 p) in *.
      destruct (lock_due None (Some contents)) eqn:Hdue;
        [|exfalso; apply H; reflexivity].
      destruct (existsSync fs2 _) eqn:Hex; [exfalso; apply H; reflexivity|].
      destruct (Hgone eq_refl) as [path [Hin Hu]].
      exists remote, contents, path.
      split; [reflexivity|]. split; [reflexivity|]. split; [exact Epurged|].
      split; [intros ->; discriminate Hdue|]. split; [reflexivity|].
      split; [reflexivity|]. split; [|exact Hu].
      unfold finish, final. rewrite Hdue.
      change (existsSync (set_manifest (Structure contents) fs2) ?p)
        with (existsSync fs2 p).
      rewrite Hex. cbn [andb negb fst snd]. right.
      apply in_or_app. left. apply in_or_app. right. apply in_or_app. left. exact Hin.
    + intros _. right; left. exists text, remains. split; [reflexivity|].
      rewrite (proj1 (Hfinish _ _ _ _)), (proj2 (Hfinish _ _ _ _)). split; reflexivity.
  - intros _. left. exact Hsync.
  - intros _. left. exact Hsync.
Qed.

End UpdaterPurge.

(** X24 at work: the plugin Y has left the bucket. *)
Lemma X24_witness :
  Scenario.plugins_dir "Y"
  ∉ Updater.dirs (Updater.purge Scenario.linux Globals.TESTING [] Scenario.synced_Y).1.
Proof.
  destruct (proj1 (X24_purge_removes_only_stale_directories Scenario.linux Globals.TESTING []
                     Scenario.synced_Y) (Scenario.plugins_dir "Y"))
    as [structure [item [_ [_ [_ [_ [_ Hgone]]]]]]].
  - vm_compute. left. reflexivity.
  - exact Hgone.
Defined.

(** X25 at work: on a fresh host the first download fails. *)
Lemma X25_witness :
  Updater.s3_structure
    (Scenario.update (Scenario.unreachable_objects [Scenario.plugin_Y]) Scenario.fresh).1.1
  = Updater.Absent.
Proof.
  destruct (X25_failed_iteration_keeps_manifest Scenario.linux Globals.TESTING true
              (Scenario.unreachable_objects [Scenario.plugin_Y]) Scenario.fresh)
    as [Hkept|[(text & remains & Hwrite & _)|(remote & contents & path & _ & _ & _ & _ & Hr & _)]].
  - vm_compute. discriminate.
  - exact Hkept.
  - discriminate Hwrite.
  - vm_compute in Hr. discriminate Hr.
Defined.

Section UpdaterUntracked.
Import Updater.
Variable host : Globals.Host.
Variable env : Globals.CocoonEnvironment.

(** X26.  An object outside the five tracked folders is a bystander:
    the platform filter keeps it, it has no output directory, and once
    a manifest exists it is never downloaded.  Without a manifest it
    is fetched into the sync folder and left there: nothing is emptied
    or unpacked for it, and the iteration goes on with the next
    entry. *)
Theorem X26_untracked_objects_are_bystanders (c : IS3ContentData) :
  tracked (Path.dirname (Key c)) = false ->
  isPlatformFile host c = Js.Ret true /\
  getOutputDir host env c = Js.Ret None /\
  (forall fs structure,
      s3_structure fs = Structure structure -> syncObject host env fs c = IGNORE) /\
  (forall w fs rest tar_error,
      s3_structure fs = Absent ->
      getObject w (Key c) = Closed tar_error ->
      sync_each host env w (c :: rest) fs
      = (let '(fs', eff, r) := sync_each host env w rest fs in
         (fs', Download (Key c) :: eff, r))).
Proof.
  intros Htr.
  assert (Hout : getOutputDir host env c = Js.Ret None).
  { unfold tracked in Htr. cbn [existsb] in Htr.
    repeat (apply orb_false_elim in Htr as [? Htr]).
    unfold getOutputDir, output_in.
    repeat match goal with
           | H : String.eqb _ _ = false |- _ => rewrite H; clear H
           end.
    reflexivity. }
  split; [unfold isPlatformFile; rewrite Htr; reflexivity|].
  split; [exact Hout|]. split.
  - intros fs structure Hs. unfold syncObject. rewrite Hs, getSyncStatus_closed, Htr.
    reflexivity.
  - intros w fs rest tar_error Hs Hget. cbn [sync_each].
    unfold syncObject. rewrite Hs, Hget, Hout. reflexivity.
Qed.

End UpdaterUntracked.

(** X26 at work: a README in the bucket of a host in sync. *)
Lemma X26_witness :
  Updater.syncObject Scenario.linux Globals.TESTING Scenario.synced_Y Scenario.readme
  = Updater.IGNORE.
Proof.
  apply (proj1 (proj2 (proj2 (X26_untracked_objects_are_bystanders Scenario.linux
                                Globals.TESTING Scenario.readme eq_refl)))
           Scenario.synced_Y [Scenario.plugin_Y] eq_refl).
Defined.

Section UpdaterFirstSync.
Import Updater.
Variable host : Globals.Host.
Variable env : Globals.CocoonEnvironment.
Variable service : bool.

Lemma downloaded_here (k : string) (eff : list effect) :
  downloaded k (Download k :: eff) = true.
Proof. unfold downloaded. cbn. now rewrite String.eqb_refl. Qed.

Lemma sync_each_without_manifest (w : World) (contents : list IS3ContentData) :
  forall fs,
    (forall structure, s3_structure fs <> Structure structure) ->
    (forall c, In c contents -> getObject w (Key c) = Closed None) ->
    (forall c, In c contents -> getOutputDir host env c <> Js.Throw) ->
    (sync_each host env w contents fs).2 = Completed None /\
    (forall c, In c contents ->
               downloaded (Key c) (sync_each host env w contents fs).1.2 = true) /\
    (forall c outDir,
        In c contents -> getOutputDir host env c = Js.Ret (Some outDir) ->
        In (Extract (Key c) outDir) (sync_each host env w contents fs).1.2).
Proof.
  induction contents as [|c contents IH]; intros fs Hman Hget Hout.
  - cbn. split; [reflexivity|]. split; [intros c []|intros c outDir []].
  - assert (Hd : syncObject host env fs c = DOWNLOAD).
    { unfold syncObject. destruct (s3_structure fs) as [| | |structure] eqn:Hs;
        try reflexivity. exfalso. apply (Hman structure). reflexivity. }
    cbn [sync_each]. rewrite Hd, (Hget c (or_introl eq_refl)).
    destruct (getOutputDir host env c) as [[outDir|]|] eqn:Hc.
    + assert (Hman1 : forall structure,
                 s3_structure (emptyDirSync host env outDir fs) <> Structure structure)
        by (intros structure;
            rewrite (proj1 (emptyDirSync_output host env c outDir fs Hc)); apply Hman).
      destruct (IH (emptyDirSync host env outDir fs) Hman1
                  (fun c' H => Hget c' (or_intror H)) (fun c' H => Hout c' (or_intror H)))
        as [Hr [Hdl Hex]].
      destruct (sync_each host env w contents (emptyDirSync host env outDir fs))
        as [[fs' eff] r].
      cbn [fst snd] in *. split; [exact Hr|]. split.
      * intros c' [<-|Hin]; [apply downloaded_here|].
        rewrite downloaded_app, (Hdl c' Hin). apply orb_true_r.
      * intros c' d [<-|Hin] Hd'.
        { rewrite Hc in Hd'. injection Hd' as <-. right; right; left. reflexivity. }
        apply in_or_app. right. apply (Hex c' d Hin Hd').
    + destruct (IH fs Hman (fun c' H => Hget c' (or_intror H))
                  (fun c' H => Hout c' (or_intror H))) as [Hr [Hdl Hex]].
      destruct (sync_each host env w contents fs) as [[fs' eff] r].
      cbn [fst snd] in *. split; [exact Hr|]. split.
      * intros c' [<-|Hin]; [apply downloaded_here|].
        change (Download (Key c) :: eff) with ([Download (Key c)] ++ eff)%list.
        rewrite downloaded_app, (Hdl c' Hin). apply orb_true_r.
      * intros c' d [<-|Hin] Hd'; [rewrite Hc in Hd'; discriminate Hd'|].
        right. apply (Hex c' d Hin Hd').
    + exfalso. apply (Hout c (or_introl eq_refl)). exact Hc.
Qed.

(** X27.  Without a manifest that parses to a list (a fresh host, a
    broken or empty file) an iteration fetches every entry the
    platform filter keeps, whatever the data folder holds, and unpacks
    each one that has an output directory; when all of this succeeds
    the listing becomes the manifest. *)
Theorem X27_without_manifest_everything_is_fetched
    (w : World) (fs : FS) (remote contents : list IS3ContentData) :
  ensure_data_dir w = None ->
  empty_sync_dir w = None ->
  listObjects w = inr remote ->
  purgedContents host remote = Js.Ret contents ->
  writeFile w = WriteOk ->
  (forall structure, s3_structure fs <> Structure structure) ->
  (forall c, In c contents -> getObject w (Key c) = Closed None) ->
  (forall c, In c contents -> getOutputDir host env c <> Js.Throw) ->
  (loop host env service false w fs).2 = Completed None /\
  s3_structure (loop host env service false w fs).1.1 = Structure contents /\
  (forall c, In c contents ->
             downloaded (Key c) (loop host env service false w fs).1.2 = true) /\
  (forall c outDir,
      In c contents -> getOutputDir host env c = Js.Ret (Some outDir) ->
      In (Extract (Key c) outDir) (loop host env service false w fs).1.2).
Proof.
  intros Hdata Hsync Hlist Hkept Hwrite Hman Hget Hout.
  set (fs0 := ensureDir (Globals.COMPILER_DATA_PATH host env) fs).
  assert (Hman0 : forall structure, s3_structure fs0 <> Structure structure) by exact Hman.
  destruct (sync_each_without_manifest w contents fs0 Hman0 Hget Hout) as [Hr [Hdl Hex]].
  pose proof (sync_each_quiet host env w contents fs0) as (_ & _ & Hs & Hthere).
  specialize (Hthere (ensureDir_exists _ _)).
  unfold loop. rewrite Hdata, Hsync, Hlist, Hkept. fold fs0.
  destruct (sync_each host env w contents fs0) as [[fs1 eff1] r]. cbn [fst snd] in *.
  subst r.
  assert (Hpurge : purge host env contents fs1 = (fs1, [])).
  { unfold purge. rewrite Hs. destruct (s3_structure fs0) as [| | |structure] eqn:E;
      try reflexivity. exfalso. apply (Hman0 structure). reflexivity. }
  rewrite Hpurge. unfold save. rewrite Hwrite. unfold finish, final.
  change (existsSync (set_manifest (Structure contents) fs1) ?p) with (existsSync fs1 p).
  rewrite Hthere, andb_false_r.
  cbn [fst snd]. split; [reflexivity|]. split.
  { destruct (lock_due None (Some contents)); reflexivity. }
  split.
  - intros c Hc.
    change (Working true :: (eff1 ++ ?rest)%list) with ([Working true] ++ (eff1 ++ rest))%list.
    rewrite !downloaded_app, (Hdl c Hc). reflexivity.
  - intros c outDir Hc Hd. right. apply in_or_app. left. apply in_or_app. left.
    apply (Hex c outDir Hc Hd).
Qed.

End UpdaterFirstSync.

(** X27 at work: the first iteration on a fresh host. *)
Lemma X27_witness :
  Updater.downloaded "plugins/X.tar.bz2"
    (Scenario.update (Scenario.bucket [Scenario.plugin_Y; Scenario.plugin_X]) Scenario.fresh).1.2
  = true.
Proof.
  apply (proj1 (proj2 (proj2
           (X27_without_manifest_everything_is_fetched Scenario.linux Globals.TESTING true
              (Scenario.bucket [Scenario.plugin_Y; Scenario.plugin_X]) Scenario.fresh
              [Scenario.plugin_Y; Scenario.plugin_X] [Scenario.plugin_Y; Scenario.plugin_X]
              eq_refl eq_refl eq_refl eq_refl eq_refl
              ltac:(discriminate) (fun _ _ => eq_refl)
              ltac:(intros c [<-|[<-|[]]]; discriminate))))
           Scenario.plugin_X).
  right; left. reflexivity.
Defined.

(** ** [compiler.ts]: the watchdog and a child that ends in time *)

Section CompilerInTime.
Import Compiler.
Variable redact : string -> string.
Variable cordova_log : option string.

Lemma terminal_calls_back (e : event) (s : state) :
  terminal e = true -> cbCalled (handle redact cordova_log e s) = true.
Proof.
  destruct e as [b|b|[err|]|[[| |]|] signal|err]; intros H; try discriminate H; reflexivity.
Qed.

Lemma latched_waiting (s : state) : waiting s -> latched s.
Proof.
  intros [Hc [_ [Hr _]]]. split; [split|].
  - intros H. congruence.
  - intros H. congruence.
  - intros H. congruence.
Qed.

(** X28.  A child whose first terminal event (a message, its exit, a
    process error) arrives before the deadline is never killed: the
    watchdog is cleared with that event, and nothing that happens
    later, at whatever time, sends a signal to the child. *)
Theorem X28_no_kill_when_the_child_ends_in_time
    (pre post : list (Z * event)) (t : Z) (e : event) (now : Z) :
  Forall (fun te => terminal te.2 = false /\ te.1 < COMPILER_WATCHDOG_INTERVAL) pre ->
  t < COMPILER_WATCHDOG_INTERVAL ->
  terminal e = true ->
  kills (build redact cordova_log (pre ++ (t, e) :: post) now) = 0%nat /\
  watchdogTimer (build redact cordova_log (pre ++ (t, e) :: post) now) = None.
Proof.
  intros Hpre Ht He. unfold build. rewrite run_app. cbn [run].
  pose proof (run_quiet redact cordova_log pre spawned Hpre spawned_waiting) as Hw.
  rewrite (waiting_fire_due_early t _ Ht Hw).
  set (s1 := run redact cordova_log pre spawned) in *.
  pose proof (terminal_calls_back e s1 He) as Hc.
  pose proof (latched_preserved_by_handle redact cordova_log e s1 (latched_waiting s1 Hw)) as Hl.
  pose proof (latched_preserved_by_run redact cordova_log post _ Hl) as Hl'.
  destruct (latched_run redact cordova_log post _ Hc) as [Hc' _].
  rewrite (kills_fire_due_cleared now _ (proj2 Hl' Hc')).
  split; [|exact (proj2 Hl' Hc')].
  rewrite (kills_run_latched redact cordova_log post _ Hl Hc), kills_handle.
  destruct Hw as [_ [_ [_ Hk]]]. exact Hk.
Qed.

End CompilerInTime.

(** X28 at work: the child reports success after a minute; an hour
    later no signal has been sent. *)
Lemma X28_witness :
  Compiler.kills
    (Compiler.build (fun s => s) None
       ([(1000, Compiler.StdoutData "building")]
        ++ (60000, Compiler.Message None) :: [(60010, Compiler.Exit (Some 0) None)])
       3600000)
  = 0%nat.
Proof.
  apply (X28_no_kill_when_the_child_ends_in_time (fun s => s) None
           [(1000, Compiler.StdoutData "building")]
           [(60010, Compiler.Exit (Some 0) None)] 60000 (Compiler.Message None) 3600000).
  - repeat constructor.
  - reflexivity.
  - reflexivity.
Defined.
